(** * Particle-Network-Animation: particle simulation and spatial geometry

    A shallow embedding of the simulation core of the repository
    (Particle, ExclusionZone, SpatialGrid, ShapeManager,
    AnimationController and the glue in Particle3DMesh) together with
    the properties its specification states about it.

    Numbers.  A JavaScript number is modelled by [num]: a real number,
    one of the two infinities, or NaN.  The arithmetic below follows
    IEEE 754 on the special values (0/0 and Infinity - Infinity are NaN,
    every comparison with NaN is false, Math.min and Math.max propagate
    NaN) and is exact on finite values: rounding, overflow and the sign
    of zero are not modelled (a zero divisor is taken as +0).  Where an
    outcome turns on a rounding, as the grid cell of a position does,
    the code is also embedded on IEEE doubles ([Binary64]).

    Objects used as maps.  The registries of shapes and easings and the
    grid are plain objects; a lookup finds what was assigned and, under
    the names of Object.prototype, what every object inherits
    ([JsObject]). *)

From Stdlib Require Import Reals Lra Lia ZArith Bool Ascii String.
From Stdlib Require Import DecimalString DecimalZ DecimalPos.
From Stdlib Require PrimFloat FloatOps SpecFloat Uint63.
From stdpp Require Import base option list strings gmap.

Local Open Scope R_scope.

(** ** JavaScript numbers *)

Inductive num : Type :=
| Fin (r : R)
| PInf
| NInf
| NaN.

Definition Rltb (a b : R) : bool := if Rlt_dec a b then true else false.
Definition Rleb (a b : R) : bool := if Rle_dec a b then true else false.
Definition Reqb0 (a b : R) : bool := if Req_dec_T a b then true else false.

Declare Scope js_scope.
Delimit Scope js_scope with js.
Bind Scope js_scope with num.

Module Js.

Definition neg (a : num) : num :=
    match a with
    | Fin x => Fin (- x)
    | PInf => NInf
    | NInf => PInf
    | NaN => NaN
    end.

Definition add (a b : num) : num :=
    match a, b with
    | NaN, _ | _, NaN => NaN
    | Fin x, Fin y => Fin (x + y)
    | PInf, NInf | NInf, PInf => NaN
    | PInf, _ | _, PInf => PInf
    | NInf, _ | _, NInf => NInf
    end.

Definition sub (a b : num) : num := add a (neg b).

  (** Sign of a real: the infinity with the sign of [x], NaN at zero. *)
Definition signed_inf (x : R) : num :=
    if Rlt_dec 0 x then PInf else if Rlt_dec x 0 then NInf else NaN.

Definition mul (a b : num) : num :=
    match a, b with
    | NaN, _ | _, NaN => NaN
    | Fin x, Fin y => Fin (x * y)
    | Fin x, PInf | PInf, Fin x => signed_inf x
    | Fin x, NInf | NInf, Fin x => signed_inf (- x)
    | PInf, PInf | NInf, NInf => PInf
    | PInf, NInf | NInf, PInf => NaN
    end.

Definition div (a b : num) : num :=
    match a, b with
    | NaN, _ | _, NaN => NaN
    | Fin x, Fin y => if Req_dec_T y 0 then signed_inf x else Fin (x / y)
    | Fin _, (PInf | NInf) => Fin 0
    | PInf, Fin y => if Rlt_dec y 0 then NInf else PInf
    | NInf, Fin y => if Rlt_dec y 0 then PInf else NInf
    | (PInf | NInf), (PInf | NInf) => NaN
    end.

Definition lt (a b : num) : bool :=
    match a, b with
    | NaN, _ | _, NaN => false
    | Fin x, Fin y => Rltb x y
    | _, NInf => false
    | PInf, _ => false
    | NInf, _ => true
    | Fin _, PInf => true
    end.

Definition le (a b : num) : bool :=
    match a, b with
    | NaN, _ | _, NaN => false
    | Fin x, Fin y => Rleb x y
    | NInf, _ => true
    | _, PInf => true
    | _, NInf => false
    | PInf, _ => false
    end.

Definition gt (a b : num) : bool := lt b a.
Definition ge (a b : num) : bool := le b a.

  (** Strict equality [===] on numbers. *)
Definition eq (a b : num) : bool :=
    match a, b with
    | Fin x, Fin y => Reqb0 x y
    | PInf, PInf | NInf, NInf => true
    | _, _ => false
    end.

  (** The global [isFinite]. *)
Definition isFinite (a : num) : bool :=
match a with
| Fin _ => true
| _ => false
end.

(** Truthiness of a number: 0 and NaN are falsy. *)
Definition truthy (a : num) : bool :=
    match a with
    | Fin x => negb (Reqb0 x 0)
    | NaN => false
    | _ => true
    end.

  (** [o || d] for an option field [o] that may be [undefined]. *)
Definition or_default (o : option num) (d : num) : num :=
    match o with
    | Some v => if truthy v then v else d
    | None => d
    end.

  (** A number used in arithmetic where [null] may stand: null is 0. *)
Definition of_nullable (o : option num) : num :=
    match o with
    | Some v => v
    | None => Fin 0
    end.

End Js.

Notation "a + b" := (Js.add a b) : js_scope.
Notation "a - b" := (Js.sub a b) : js_scope.
Notation "a * b" := (Js.mul a b) : js_scope.
Notation "a / b" := (Js.div a b) : js_scope.
Notation "- a" := (Js.neg a) : js_scope.
Notation "a <? b" := (Js.lt a b) (at level 70, no associativity) : js_scope.
Notation "a <=? b" := (Js.le a b) (at level 70, no associativity) : js_scope.
Notation "a >? b" := (Js.gt a b) (at level 70, no associativity) : js_scope.
Notation "a >=? b" := (Js.ge a b) (at level 70, no associativity) : js_scope.
Notation "a === b" := (Js.eq a b) (at level 70, no associativity) : js_scope.

(** Numeric literals of the source. *)
Definition n0 : num := Fin 0.
Definition n1 : num := Fin 1.
Definition n2 : num := Fin 2.
Definition n3 : num := Fin 3.
Definition n4 : num := Fin 4.

(** ** The Math object *)

Module Math.

Definition abs (a : num) : num :=
    match a with
    | Fin x => Fin (Rabs x)
    | PInf | NInf => PInf
    | NaN => NaN
    end.

Definition sqrt (a : num) : num :=
    match a with
    | Fin x => if Rlt_dec x 0 then NaN else Fin (R_sqrt.sqrt x)
    | PInf => PInf
    | NInf | NaN => NaN
    end.

Definition floor (a : num) : num :=
    match a with
    | Fin x => Fin (IZR (Zfloor x))
    | other => other
    end.

  (** [Math.pow(a, 2)]. *)
Definition pow2 (a : num) : num := (a * a)%js.

  (** [Math.pow(2, a)]. *)
Definition powOf2 (a : num) : num :=
    match a with
    | Fin x => Fin (Rpower 2 x)
    | PInf => PInf
    | NInf => Fin 0
    | NaN => NaN
    end.

Definition min2 (a b : num) : num :=
    match a, b with
    | NaN, _ | _, NaN => NaN
    | _, _ => if Js.le a b then a else b
    end.

Definition max2 (a b : num) : num :=
    match a, b with
    | NaN, _ | _, NaN => NaN
    | _, _ => if Js.le a b then b else a
    end.

  (** Variadic [Math.min(...)] and [Math.max(...)]: the empty calls are
      Infinity and -Infinity. *)
Definition min (l : list num) : num := fold_right min2 PInf l.
Definition max (l : list num) : num := fold_right max2 NInf l.

Definition PI : num := Fin Rtrigo1.PI.

Definition sin (a : num) : num :=
    match a with
    | Fin x => Fin (Rtrigo_def.sin x)
    | _ => NaN
    end.

Definition cos (a : num) : num :=
    match a with
    | Fin x => Fin (Rtrigo_def.cos x)
    | _ => NaN
    end.

Definition acos (a : num) : num :=
    match a with
    | Fin x => if Rle_dec (-1) x then
                 if Rle_dec x 1 then Fin (Ratan.acos x) else NaN
               else NaN
    | _ => NaN
    end.

End Math.

(** ** Points: any object with [x], [y], [z] *)

Module Point.
Record t : Type := mk { x : num; y : num; z : num }.
End Point.

(** ** ExclusionZone *)

Module ExclusionZone.

  (** The parameter object of a zone.  A zone reads only the fields of
      its own type; the others are carried along unread. *)
Module Params.
Record t : Type := mk {
      x : num; y : num; z : num;
      radius : num;
      height : num;
      width : num;
      depth : num;
      axis : string
    }.
End Params.

Record t : Type := mk { type : string; params : Params.t }.

Section Methods.
Variable this : t.
Local Open Scope js_scope.

Definition containsSphere (point : Point.t) : bool :=
      let dx := Point.x point - Params.x (params this) in
      let dy := Point.y point - Params.y (params this) in
      let dz := Point.z point - Params.z (params this) in
      let distSquared := dx*dx + dy*dy + dz*dz in
      distSquared <=? Params.radius (params this) * Params.radius (params this).

Definition containsCylinder (point : Point.t) : bool :=
      let '(Params.mk x y z radius height _ _ axis) := params this in
      let halfHeight := height / n2 in
      let '(axialDist, radialDistSq) :=
        if String.eqb axis "x" then
          (Math.abs (Point.x point - x),
           Math.pow2 (Point.y point - y) + Math.pow2 (Point.z point - z))
        else if String.eqb axis "y" then
          (Math.abs (Point.y point - y),
           Math.pow2 (Point.x point - x) + Math.pow2 (Point.z point - z))
        else
          (Math.abs (Point.z point - z),
           Math.pow2 (Point.x point - x) + Math.pow2 (Point.y point - y)) in
      (axialDist <=? halfHeight) && (radialDistSq <=? radius * radius).

Definition containsBox (point : Point.t) : bool :=
      let '(Params.mk x y z _ height width depth _) := params this in
      let halfWidth := width / n2 in
      let halfHeight := height / n2 in
      let halfDepth := depth / n2 in
      (Point.x point >=? x - halfWidth) && (Point.x point <=? x + halfWidth) &&
      (Point.y point >=? y - halfHeight) && (Point.y point <=? y + halfHeight) &&
      (Point.z point >=? z - halfDepth) && (Point.z point <=? z + halfDepth).

Definition contains (point : Point.t) : bool :=
      if String.eqb (type this) "sphere" then containsSphere point
      else if String.eqb (type this) "cylinder" then containsCylinder point
      else if String.eqb (type this) "box" then containsBox point
      else false.

Definition intersectsLineSphere (p1 p2 : Point.t) : bool :=
      let '(Params.mk x y z radius _ _ _ _) := params this in
      (* Vector from p1 to sphere center *)
      let dx := x - Point.x p1 in
      let dy := y - Point.y p1 in
      let dz := z - Point.z p1 in
      (* Vector from p1 to p2 *)
      let dirX := Point.x p2 - Point.x p1 in
      let dirY := Point.y p2 - Point.y p1 in
      let dirZ := Point.z p2 - Point.z p1 in
      let lenSq := dirX*dirX + dirY*dirY + dirZ*dirZ in
      let len := Math.sqrt lenSq in
      let normX := dirX / len in
      let normY := dirY / len in
      let normZ := dirZ / len in
      let dot := dx*normX + dy*normY + dz*normZ in
      let closestX := Point.x p1 + normX * dot in
      let closestY := Point.y p1 + normY * dot in
      let closestZ := Point.z p1 + normZ * dot in
      let t := dot / len in
      if (t <? n0) || (t >? n1) then false
      else
        let distX := closestX - x in
        let distY := closestY - y in
        let distZ := closestZ - z in
        let distSq := distX*distX + distY*distY + distZ*distZ in
        distSq <=? radius * radius.

Definition intersectsLineCylinder (p1 p2 : Point.t) : bool :=
      let '(Params.mk x y z radius height _ _ axis) := params this in
      let halfHeight := height / n2 in
      let p1Local := Point.mk (Point.x p1 - x) (Point.y p1 - y) (Point.z p1 - z) in
      let p2Local := Point.mk (Point.x p2 - x) (Point.y p2 - y) (Point.z p2 - z) in
      let dx := Point.x p2Local - Point.x p1Local in
      let dy := Point.y p2Local - Point.y p1Local in
      let dz := Point.z p2Local - Point.z p1Local in
      let '(a, b, c, axisValue1, axisValue2) :=
        if String.eqb axis "x" then
          (dy * dy + dz * dz,
           n2 * (Point.y p1Local * dy + Point.z p1Local * dz),
           Point.y p1Local * Point.y p1Local + Point.z p1Local * Point.z p1Local
             - radius * radius,
           Point.x p1Local, Point.x p2Local)
        else if String.eqb axis "y" then
          (dx * dx + dz * dz,
           n2 * (Point.x p1Local * dx + Point.z p1Local * dz),
           Point.x p1Local * Point.x p1Local + Point.z p1Local * Point.z p1Local
             - radius * radius,
           Point.y p1Local, Point.y p2Local)
        else
          (dx * dx + dy * dy,
           n2 * (Point.x p1Local * dx + Point.y p1Local * dy),
           Point.x p1Local * Point.x p1Local + Point.y p1Local * Point.y p1Local
             - radius * radius,
           Point.z p1Local, Point.z p2Local) in
      let discriminant := b * b - n4 * a * c in
      if discriminant <? n0 then false
      else
        let t1 := (- b + Math.sqrt discriminant) / (n2 * a) in
        let t2 := (- b - Math.sqrt discriminant) / (n2 * a) in
        if ((t1 <? n0) || (t1 >? n1)) && ((t2 <? n0) || (t2 >? n1)) then false
        else
          if (t1 >=? n0) && (t1 <=? n1) &&
             (let axisPos := axisValue1 + t1 * (axisValue2 - axisValue1) in
              (axisPos >=? - halfHeight) && (axisPos <=? halfHeight))
          then true
          else
            if (t2 >=? n0) && (t2 <=? n1) &&
               (let axisPos := axisValue1 + t2 * (axisValue2 - axisValue1) in
                (axisPos >=? - halfHeight) && (axisPos <=? halfHeight))
            then true
            else false.

    (** The combined entry and exit parameters of the slab test, as
        [intersectsLineBox] computes them. *)
Definition boxSlabs (p1 p2 : Point.t) : num * num :=
      let '(Params.mk x y z _ height width depth _) := params this in
      let halfWidth := width / n2 in
      let halfHeight := height / n2 in
      let halfDepth := depth / n2 in
      let minX := x - halfWidth in
      let maxX := x + halfWidth in
      let minY := y - halfHeight in
      let maxY := y + halfHeight in
      let minZ := z - halfDepth in
      let maxZ := z + halfDepth in
      let dirX := Point.x p2 - Point.x p1 in
      let dirY := Point.y p2 - Point.y p1 in
      let dirZ := Point.z p2 - Point.z p1 in
      let txMin := if dirX === n0 then NInf else (minX - Point.x p1) / dirX in
      let txMax := if dirX === n0 then PInf else (maxX - Point.x p1) / dirX in
      let tyMin := if dirY === n0 then NInf else (minY - Point.y p1) / dirY in
      let tyMax := if dirY === n0 then PInf else (maxY - Point.y p1) / dirY in
      let tzMin := if dirZ === n0 then NInf else (minZ - Point.z p1) / dirZ in
      let tzMax := if dirZ === n0 then PInf else (maxZ - Point.z p1) / dirZ in
      let tMin := Math.max [Math.min [txMin; txMax];
                            Math.min [tyMin; tyMax];
                            Math.min [tzMin; tzMax]] in
      let tMax := Math.min [Math.max [txMin; txMax];
                            Math.max [tyMin; tyMax];
                            Math.max [tzMin; tzMax]] in
      (tMin, tMax).

Definition intersectsLineBox (p1 p2 : Point.t) : bool :=
      let '(tMin, tMax) := boxSlabs p1 p2 in
      if (tMax <? n0) || (tMin >? tMax) then false
      else (tMin <=? n1) && (tMax >=? n0).

Definition intersectsLine (p1 p2 : Point.t) : bool :=
      if String.eqb (type this) "sphere" then intersectsLineSphere p1 p2
      else if String.eqb (type this) "cylinder" then intersectsLineCylinder p1 p2
      else if String.eqb (type this) "box" then intersectsLineBox p1 p2
      else false.

End Methods.

End ExclusionZone.

(** ** Shape descriptors

    The object a shape generator returns.  The camera preferences it
    also carries are read by the camera only and are left out. *)

Module Shape.
Record t : Type := mk {
    name : string;
    hasExclusionZone : bool;
    exclusionZone : option ExclusionZone.t;
    crossesExclusionZone : Point.t -> Point.t -> bool
  }.
End Shape.

(** ** Configuration: the keys the simulation core reads *)

Module Config.
Record t : Type := mk {
    BOUND : num;
    PARTICLE_SPEED : num;
    PARTICLE_SIZE : num;
    PARTICLE_COUNT : nat;
    CONNECTION_DISTANCE : num;
    GRID_CELL_SIZE : num;
    SHAPE_SPECIFIC_CAMERA : bool;
    USE_WEBGL : bool;
    SHOW_CONNECTIONS : option bool
  }.
End Config.

(** ** Math.random

    The generator is a sequence of reals and a cursor into it; every
    call of [Math.random()] reads the value under the cursor and moves
    the cursor on.  [Rng.valid] says the sequence stays in [0, 1). *)

Module Rng.
Record t : Type := mk { draws : nat -> R; cursor : nat }.

Definition valid (g : t) : Prop := forall n, 0 <= draws g n < 1.

Definition skip (k : nat) (g : t) : t := mk (draws g) (k + cursor g).
End Rng.

(** Computations that call [Math.random]. *)
Definition Rand (A : Type) : Type := Rng.t -> A * Rng.t.

Definition ret {A} (a : A) : Rand A := fun g => (a, g).

Definition bind {A B} (m : Rand A) (k : A -> Rand B) : Rand B :=
  fun g => let '(a, g') := m g in k a g'.

Notation "'let*' x ':=' m 'in' k" := (bind m (fun x => k))
  (at level 10, x name, m at level 100, k at level 200).

Definition random : Rand num :=
  fun g => (Fin (Rng.draws g (Rng.cursor g)), Rng.skip 1 g).

(** [(Math.random() * 2 - 1) * s] *)
Definition randomSigned (s : num) : Rand num :=
  let* r := random in ret ((r * n2 - n1) * s)%js.

(** ** Particle *)

Module Particle.

Record t : Type := mk {
    x : num; y : num; z : num;
    vx : num; vy : num; vz : num;
    baseVy : num;
    size : num;
    targetX : option num; targetY : option num; targetZ : option num;
    originalX : num; originalY : num; originalZ : num;
    inTransition : bool;
    prevX : num; prevY : num; prevZ : num
  }.

Definition position (p : t) : Point.t := Point.mk (x p) (y p) (z p).

Definition set_pos (p : t) (x' y' z' : num) : t :=
    mk x' y' z' (vx p) (vy p) (vz p) (baseVy p) (size p)
       (targetX p) (targetY p) (targetZ p)
       (originalX p) (originalY p) (originalZ p)
       (inTransition p) (prevX p) (prevY p) (prevZ p).

Definition set_vel (p : t) (vx' vy' vz' : num) : t :=
    mk (x p) (y p) (z p) vx' vy' vz' (baseVy p) (size p)
       (targetX p) (targetY p) (targetZ p)
       (originalX p) (originalY p) (originalZ p)
       (inTransition p) (prevX p) (prevY p) (prevZ p).

Definition set_baseVy (p : t) (b : num) : t :=
    mk (x p) (y p) (z p) (vx p) (vy p) (vz p) b (size p)
       (targetX p) (targetY p) (targetZ p)
       (originalX p) (originalY p) (originalZ p)
       (inTransition p) (prevX p) (prevY p) (prevZ p).

Definition set_prev (p : t) (a b c : num) : t :=
    mk (x p) (y p) (z p) (vx p) (vy p) (vz p) (baseVy p) (size p)
       (targetX p) (targetY p) (targetZ p)
       (originalX p) (originalY p) (originalZ p)
       (inTransition p) a b c.

Definition set_original (p : t) (a b c : num) : t :=
    mk (x p) (y p) (z p) (vx p) (vy p) (vz p) (baseVy p) (size p)
       (targetX p) (targetY p) (targetZ p)
       a b c
       (inTransition p) (prevX p) (prevY p) (prevZ p).

Definition set_target (p : t) (a b c : option num) : t :=
    mk (x p) (y p) (z p) (vx p) (vy p) (vz p) (baseVy p) (size p)
       a b c
       (originalX p) (originalY p) (originalZ p)
       (inTransition p) (prevX p) (prevY p) (prevZ p).

Definition set_inTransition (p : t) (b : bool) : t :=
    mk (x p) (y p) (z p) (vx p) (vy p) (vz p) (baseVy p) (size p)
       (targetX p) (targetY p) (targetZ p)
       (originalX p) (originalY p) (originalZ p)
       b (prevX p) (prevY p) (prevZ p).

Local Open Scope js_scope.

Definition constructor (config : Config.t) : Rand t :=
    let* x0 := randomSigned (Config.BOUND config) in
    let* y0 := randomSigned (Config.BOUND config) in
    let* z0 := randomSigned (Config.BOUND config) in
    let* vx0 := randomSigned (Config.PARTICLE_SPEED config) in
    let* vy0 := randomSigned (Config.PARTICLE_SPEED config) in
    let* vz0 := randomSigned (Config.PARTICLE_SPEED config) in
    ret (mk x0 y0 z0 vx0 vy0 vz0 vy0 (Config.PARTICLE_SIZE config)
            None None None x0 y0 z0 false x0 y0 z0).

Definition wouldEnterExclusionZone (this : t) (newX newY newZ : num)
      (exclusionZone : ExclusionZone.t) : bool :=
    let newPosition := Point.mk newX newY newZ in
    let currentPosition := Point.mk (x this) (y this) (z this) in
    let currentlyInside := ExclusionZone.contains exclusionZone currentPosition in
    if currentlyInside then false
    else ExclusionZone.contains exclusionZone newPosition.

  (** The normal [bounceOffExclusionZone] computes before it normalizes. *)
Definition bounceNormal (this : t) (exclusionZone : ExclusionZone.t)
      : num * num * num :=
    let ps := ExclusionZone.params exclusionZone in
    let ty := ExclusionZone.type exclusionZone in
    if String.eqb ty "sphere" then
      (x this - ExclusionZone.Params.x ps,
       y this - ExclusionZone.Params.y ps,
       z this - ExclusionZone.Params.z ps)
    else if String.eqb ty "cylinder" then
      let cx := ExclusionZone.Params.x ps in
      let cy := ExclusionZone.Params.y ps in
      let cz := ExclusionZone.Params.z ps in
      let axis := ExclusionZone.Params.axis ps in
      if String.eqb axis "x" then (n0, y this - cy, z this - cz)
      else if String.eqb axis "y" then (x this - cx, n0, z this - cz)
      else (x this - cx, y this - cy, n0)
    else
      let boxX := ExclusionZone.Params.x ps in
      let boxY := ExclusionZone.Params.y ps in
      let boxZ := ExclusionZone.Params.z ps in
      let halfWidth := ExclusionZone.Params.width ps / n2 in
      let halfHeight := ExclusionZone.Params.height ps / n2 in
      let halfDepth := ExclusionZone.Params.depth ps / n2 in
      let distToRight := Math.abs ((boxX + halfWidth) - x this) in
      let distToLeft := Math.abs (x this - (boxX - halfWidth)) in
      let distToTop := Math.abs ((boxY + halfHeight) - y this) in
      let distToBottom := Math.abs (y this - (boxY - halfHeight)) in
      let distToFront := Math.abs ((boxZ + halfDepth) - z this) in
      let distToBack := Math.abs (z this - (boxZ - halfDepth)) in
      let minDist := Math.min [distToRight; distToLeft; distToTop;
                               distToBottom; distToFront; distToBack] in
      if minDist === distToRight then (n1, n0, n0)
      else if minDist === distToLeft then (- n1, n0, n0)
      else if minDist === distToTop then (n0, n1, n0)
      else if minDist === distToBottom then (n0, - n1, n0)
      else if minDist === distToFront then (n0, n0, n1)
      else if minDist === distToBack then (n0, n0, - n1)
      else (n0, n0, n0).

Definition tenth : num := Fin (1 / 10).

Definition bounceOffExclusionZone (this : t) (exclusionZone : ExclusionZone.t) : t :=
    let '(normalX, normalY, normalZ) := bounceNormal this exclusionZone in
    (* Normalize the normal vector *)
    let length :=
      Math.sqrt (normalX*normalX + normalY*normalY + normalZ*normalZ) in
    let '(normalX, normalY, normalZ) :=
      if length >? n0
      then (normalX / length, normalY / length, normalZ / length)
      else (normalX, normalY, normalZ) in
    let dotProduct := vx this * normalX + vy this * normalY + vz this * normalZ in
    (* reflection: v' = v - 2(v.n)n *)
    let vx' := vx this - n2 * dotProduct * normalX in
    let vy' := vy this - n2 * dotProduct * normalY in
    let vz' := vz this - n2 * dotProduct * normalZ in
    let this := set_vel this vx' vy' vz' in
    set_pos this (prevX this + vx this * tenth)
                 (prevY this + vy this * tenth)
                 (prevZ this + vz this * tenth).

Definition resetParticle (this : t) (config : Config.t) : Rand t :=
    let* vx' := randomSigned (Config.PARTICLE_SPEED config) in
    let* vy' := randomSigned (Config.PARTICLE_SPEED config) in
    let* vz' := randomSigned (Config.PARTICLE_SPEED config) in
    ret (set_baseVy (set_vel this vx' vy' vz') vy').

Definition half : num := Fin (1 / 2).

Definition checkBounds (this : t) (config : Config.t) : Rand t :=
    let B := Config.BOUND config in
    let outOfBounds :=
      (Math.abs (x this) >? B) || (Math.abs (y this) >? B)
      || (Math.abs (z this) >? B) in
    if outOfBounds then
      let* r := random in
      let axis := Math.floor (r * n3) in
      let* s := random in
      let sign := if s <? half then - n1 else n1 in
      let* this := resetParticle this config in
      if axis === n0 then
        let* y' := randomSigned B in
        let* z' := randomSigned B in
        let this := set_pos this (sign * B) y' z' in
        ret (set_vel this (- sign * Math.abs (vx this)) (vy this) (vz this))
      else if axis === n1 then
        let* x' := randomSigned B in
        let* z' := randomSigned B in
        let this := set_pos this x' (sign * B) z' in
        let this := set_vel this (vx this) (- sign * Math.abs (vy this)) (vz this) in
        ret (set_baseVy this (vy this))
      else if axis === n2 then
        let* x' := randomSigned B in
        let* y' := randomSigned B in
        let this := set_pos this x' y' (sign * B) in
        ret (set_vel this (vx this) (vy this) (- sign * Math.abs (vz this)))
      else ret this
    else ret this.

  (** [update] returns [None] where the source throws: a shape that
      says it has an exclusion zone and carries none. *)
Definition update (this : t) (globalVelocityY : num) (config : Config.t)
      (currentShape : option Shape.t) : Rand (option t) :=
    if inTransition this then ret (Some this)
    else
      let this := set_prev this (x this) (y this) (z this) in
      let newX := x this + vx this in
      let newY := y this + vy this + globalVelocityY in
      let newZ := z this + vz this in
      let accept :=
        let this := set_pos this newX newY newZ in
        let* this := checkBounds this config in ret (Some this) in
      match currentShape with
      | Some shape =>
          if Shape.hasExclusionZone shape then
            match Shape.exclusionZone shape with
            | Some zone =>
                if wouldEnterExclusionZone this newX newY newZ zone
                then ret (Some (bounceOffExclusionZone this zone))
                else accept
            | None => ret None
            end
          else accept
      | None => accept
      end.

Definition setTarget (this : t) (tx ty tz : num) : t :=
    let this := set_target this (Some tx) (Some ty) (Some tz) in
    let this := set_original this (x this) (y this) (z this) in
    set_inTransition this true.

Definition updateTransition (this : t) (progress : num)
      (easingFunction : num -> num) : t :=
    if negb (inTransition this) then this
    else
      let eased := easingFunction progress in
      let prevX := x this in
      let prevY := y this in
      let prevZ := z this in
      let this :=
        set_pos this
          (originalX this + (Js.of_nullable (targetX this) - originalX this) * eased)
          (originalY this + (Js.of_nullable (targetY this) - originalY this) * eased)
          (originalZ this + (Js.of_nullable (targetZ this) - originalZ this) * eased) in
      if progress >=? n1 then
        let dx := x this - prevX in
        let dy := y this - prevY in
        let dz := z this - prevZ in
        let length := Math.sqrt (dx*dx + dy*dy + dz*dz) in
        let this :=
          if length >? n0 then
            let currentSpeed :=
              Math.sqrt (vx this * vx this + vy this * vy this + vz this * vz this) in
            let this :=
              set_vel this ((dx / length) * currentSpeed)
                           ((dy / length) * currentSpeed)
                           ((dz / length) * currentSpeed) in
            set_baseVy this (vy this)
          else this in
        let this := set_original this (x this) (y this) (z this) in
        set_inTransition this false
      else this.

Definition resetToRandom (this : t) (config : Config.t) : Rand t :=
    let* x' := randomSigned (Config.BOUND config) in
    let* y' := randomSigned (Config.BOUND config) in
    let* z' := randomSigned (Config.BOUND config) in
    let* this := resetParticle (set_pos this x' y' z') config in
    ret (set_inTransition this false).

End Particle.

(** ** The object store

    Particles are objects: the particle array, the spatial grid and the
    connection list all hold references to them.  A reference is an
    object identity [oid]; the store maps it to the object's fields. *)

Definition oid : Type := nat.

Module Heap.
Definition t : Type := oid -> Particle.t.

Definition set (h : t) (o : oid) (v : Particle.t) : t :=
    fun o' => if Nat.eqb o' o then v else h o'.

  (** [particles.forEach((particle, index) => ...)] where the body
      updates the fields of [particle]. *)
Fixpoint forEachFrom (index : nat) (f : Particle.t -> nat -> Particle.t)
      (particles : list oid) (h : t) : t :=
    match particles with
    | [] => h
    | o :: rest => forEachFrom (S index) f rest (set h o (f (h o) index))
    end.

Definition forEach (f : Particle.t -> nat -> Particle.t)
      (particles : list oid) (h : t) : t :=
    forEachFrom 0 f particles h.

  (** The same loop with a body that draws random numbers and may
      throw; an exception ends the loop. *)
Fixpoint forEachM (f : Particle.t -> Rand (option Particle.t))
      (particles : list oid) (h : t) : Rand (option t) :=
    match particles with
    | [] => ret (Some h)
    | o :: rest =>
        let* r := f (h o) in
        match r with
        | Some v => forEachM f rest (set h o v)
        | None => ret None
        end
    end.
End Heap.

(** ** Plain objects used as maps

    The shape registry and the easing registry are plain objects
    created by [{}] and read by [object[name]].  Such an object holds the
    values assigned to it and inherits the members of Object.prototype;
    [prototype] lists their names.  An assignment under the name
    [__proto__] adds no value: it replaces the object's prototype.  The
    model follows an object as long as that has not happened: [None] is
    an object whose prototype was replaced, and nothing is said about
    what it holds. *)

Module JsObject.

Definition t (A : Type) : Type := option (gmap string A).

(** The object [{}]. *)
Definition empty {A : Type} : t A := Some ∅.

Definition prototype : list string :=
  ["constructor"; "__defineGetter__"; "__defineSetter__"; "hasOwnProperty";
   "__lookupGetter__"; "__lookupSetter__"; "isPrototypeOf";
   "propertyIsEnumerable"; "toString"; "valueOf"; "__proto__";
   "toLocaleString"]%string.

Definition inherits (name : string) : bool :=
  existsb (String.eqb name) prototype.

(** What [object[name]] evaluates to: a value assigned under that name,
    [undefined], or something else: a member inherited from
    Object.prototype (a function or, for [__proto__], an object; truthy
    in both cases), or whatever an object with a replaced prototype
    gives.  The model does not follow what is done with the latter. *)
Inductive value (A : Type) : Type :=
  | Own (a : A)
  | Alien
  | Undefined.
Arguments Own {A} a.
Arguments Alien {A}.
Arguments Undefined {A}.

Definition get {A : Type} (object : t A) (name : string) : value A :=
  match object with
  | Some own =>
      match own !! name with
      | Some a => Own a
      | None => if inherits name then Alien else Undefined
      end
  | None => Alien
  end.

(** [object[name] = a] *)
Definition set {A : Type} (object : t A) (name : string) (a : A) : t A :=
  match object with
  | Some own =>
      if String.eqb name "__proto__" then None else Some (<[name := a]> own)
  | None => None
  end.

End JsObject.

(** ** ShapeManager *)

Module ShapeManager.

  (** The option keys the modelled generators read; an absent key is
      [None]. *)
Module Options.
Record t : Type := mk {
      bound : option num;
      radius : option num;
      centerX : option num;
      centerY : option num;
      centerZ : option num
    }.
Definition empty : t := mk None None None None None.
End Options.

  (** A generator positions the particles it is given and returns the
      shape descriptor. *)
Definition generator : Type :=
    list oid -> Options.t -> Heap.t -> Rand (Heap.t * Shape.t).

Record t : Type := mk {
    config : Config.t;
    shapes : JsObject.t generator
  }.

Definition registerShape (this : t) (name : string) (shapeFunction : generator) : t :=
    mk (config this) (JsObject.set (shapes this) name shapeFunction).

  (** The message [`Shape "${name}" not found`]. *)
Definition notFound (name : string) : string :=
    let q := String (Ascii.ascii_of_nat 34) EmptyString in
    String.append "Shape " (String.append q (String.append name
      (String.append q " not found"))).

  (** [createShape] returns the store, the shape or [null], and what it
      wrote to [console.error].  When [this.shapes[name]] is neither a
      registered generator nor [undefined], the guard lets it pass and it
      is called in place of a generator; what that call gives is not a
      shape descriptor, and the result is [None]: the model does not
      follow the program there. *)
Definition createShape (this : t) (name : string) (particles : list oid)
      (options : Options.t) (h : Heap.t)
      : Rand (option (Heap.t * option Shape.t * list string)) :=
    match JsObject.get (shapes this) name with
    | JsObject.Undefined => ret (Some (h, None, [notFound name]))
    | JsObject.Own gen =>
        let* r := gen particles options h in
        ret (Some (fst r, Some (snd r), []))
    | JsObject.Alien => ret None
    end.

Local Open Scope js_scope.

Definition createRandom (this : t) : generator :=
    fun particles options h =>
      let bound := Js.or_default (Options.bound options) (Config.BOUND (config this)) in
      let fix loop (ps : list oid) (h : Heap.t) : Rand Heap.t :=
        match ps with
        | [] => ret h
        | o :: rest =>
            let* tx := randomSigned bound in
            let* ty := randomSigned bound in
            let* tz := randomSigned bound in
            loop rest (Heap.set h o (Particle.setTarget (h o) tx ty tz))
        end in
      let* h' := loop particles h in
      ret (h', Shape.mk "random" false None (fun _ _ => false)).

Definition golden : num := Fin 1.618033988749895.

  (** The target [createSphere] gives the particle at [index]. *)
Definition sphereTarget (radius centerX centerY centerZ : num)
      (length index : num) : num * num * num :=
    let phi := Math.acos (n1 - n2 * (index + Particle.half) / length) in
    let theta := Math.PI * n2 * index * (n1 / golden) in
    let x := centerX + radius * Math.sin phi * Math.cos theta in
    let y := centerY + radius * Math.sin phi * Math.sin theta in
    let z := centerZ + radius * Math.cos phi in
    (x, y, z).

Definition createSphere (this : t) : generator :=
    fun particles options h =>
      let radius :=
        Js.or_default (Options.radius options) (Config.BOUND (config this) / n2) in
      let centerX := Js.or_default (Options.centerX options) n0 in
      let centerY := Js.or_default (Options.centerY options) n0 in
      let centerZ := Js.or_default (Options.centerZ options) n0 in
      let h' :=
        Heap.forEach
          (fun particle index =>
             let '(x, y, z) :=
               sphereTarget radius centerX centerY centerZ
                 (Fin (INR (length particles))) (Fin (INR index)) in
             Particle.setTarget particle x y z)
          particles h in
      ret (h', Shape.mk "sphere" false None (fun _ _ => false)).

Definition lineIntersectsCylinder (x1 y1 z1 x2 y2 z2 cx cy cz r h : num)
      (axis : string) : bool :=
    let p1 := Point.mk (x1 - cx) (y1 - cy) (z1 - cz) in
    let p2 := Point.mk (x2 - cx) (y2 - cy) (z2 - cz) in
    let dx := Point.x p2 - Point.x p1 in
    let dy := Point.y p2 - Point.y p1 in
    let dz := Point.z p2 - Point.z p1 in
    let '(a, b, c, axisValue1, axisValue2) :=
      if String.eqb axis "x" then
        (dy * dy + dz * dz,
         n2 * (Point.y p1 * dy + Point.z p1 * dz),
         Point.y p1 * Point.y p1 + Point.z p1 * Point.z p1 - r * r,
         Point.x p1, Point.x p2)
      else if String.eqb axis "y" then
        (dx * dx + dz * dz,
         n2 * (Point.x p1 * dx + Point.z p1 * dz),
         Point.x p1 * Point.x p1 + Point.z p1 * Point.z p1 - r * r,
         Point.y p1, Point.y p2)
      else
        (dx * dx + dy * dy,
         n2 * (Point.x p1 * dx + Point.y p1 * dy),
         Point.x p1 * Point.x p1 + Point.y p1 * Point.y p1 - r * r,
         Point.z p1, Point.z p2) in
    let discriminant := b * b - n4 * a * c in
    if discriminant <? n0 then false
    else
      let t1 := (- b + Math.sqrt discriminant) / (n2 * a) in
      let t2 := (- b - Math.sqrt discriminant) / (n2 * a) in
      if ((t1 <? n0) || (t1 >? n1)) && ((t2 <? n0) || (t2 >? n1)) then false
      else
        let halfHeight := h / n2 in
        if (t1 >=? n0) && (t1 <=? n1) &&
           (let axisPos := axisValue1 + t1 * (axisValue2 - axisValue1) in
            (axisPos >=? - halfHeight) && (axisPos <=? halfHeight))
        then true
        else
          if (t2 >=? n0) && (t2 <=? n1) &&
             (let axisPos := axisValue1 + t2 * (axisValue2 - axisValue1) in
              (axisPos >=? - halfHeight) && (axisPos <=? halfHeight))
          then true
          else false.

End ShapeManager.

(** ** Completion callbacks

    A callback is a function value of the host.  The model names the
    two kinds the core meets: a function the host supplied, known by a
    name, and the closure [transitionToShape] builds around the host's
    optional callback.  Calling a callback is recorded; a callback does
    not call back into the animation controller. *)

Module Callback.
Inductive t : Type :=
  | Host (name : string)
  | ShapeSwap (callback : option string).
End Callback.

(** ** AnimationController *)

Module AnimationController.

Definition easing : Type := num -> num.

Record t : Type := mk {
    config : Config.t;
    transitions : JsObject.t easing;
    isTransitioning : bool;
    transitionStartTime : num;
    transitionDuration : num;
    onTransitionComplete : option Callback.t;
    particles : option (list oid);
    easingFunction : JsObject.value easing
  }.

Local Open Scope js_scope.

Definition linearTransition : easing := fun t => t.

Definition easeInOutTransition : easing := fun t =>
    if t <? Particle.half then n2 * t * t
    else n1 - Math.pow2 (- n2 * t + n2) / n2.

Definition easeInTransition : easing := fun t => t * t.

Definition easeOutTransition : easing := fun t => n1 - (n1 - t) * (n1 - t).

Definition springTransition : easing := fun t =>
    let s := Fin 1.70158 * Fin 1.525 in
    if t <? Particle.half then
      (n2 * t) * (n2 * t) * ((s + n1) * n2 * t - s) / n2
    else
      (n2 * t - n2) * (n2 * t - n2) * ((s + n1) * (t * n2 - n2) + s) / n2 + n1.

Definition bounceTransition : easing := fun t =>
    let c := Fin 7.5625 in
    let d1 := Fin 2.75 in
    if t <? n1 / d1 then c * t * t
    else if t <? n2 / d1 then
      let t := t - Fin 1.5 / d1 in c * t * t + Fin 0.75
    else if t <? Fin 2.5 / d1 then
      let t := t - Fin 2.25 / d1 in c * t * t + Fin 0.9375
    else
      let t := t - Fin 2.625 / d1 in c * t * t + Fin 0.984375.

Definition elasticTransition : easing := fun t =>
    if (t === n0) || (t === n1) then t
    else
      let p := Fin 0.3 in
      let s := p / n4 in
      Math.powOf2 (- Fin 10 * t) * Math.sin ((t - s) * (n2 * Math.PI) / p) + n1.

Definition registerTransition (this : t) (name : string) (f : easing) : t :=
    mk (config this) (JsObject.set (transitions this) name f) (isTransitioning this)
       (transitionStartTime this) (transitionDuration this)
       (onTransitionComplete this) (particles this) (easingFunction this).

Definition registerBuiltInTransitions (this : t) : t :=
    let this := registerTransition this "linear" linearTransition in
    let this := registerTransition this "easeInOut" easeInOutTransition in
    let this := registerTransition this "easeIn" easeInTransition in
    let this := registerTransition this "easeOut" easeOutTransition in
    let this := registerTransition this "spring" springTransition in
    let this := registerTransition this "bounce" bounceTransition in
    registerTransition this "elastic" elasticTransition.

Definition constructor (config : Config.t) : t :=
    registerBuiltInTransitions
      (mk config JsObject.empty false n0 n0 None None JsObject.Undefined).

  (** [now] is the reading of [Date.now()]. *)
Definition startTransition (this : t) (now : num) (particles : list oid)
      (targetShape : option Shape.t) (duration : num) (type : string)
      (callback : option Callback.t) : t :=
    let easingFunction :=
      match JsObject.get (transitions this) type with
      | JsObject.Undefined => JsObject.get (transitions this) "easeInOut"
      | found => found
      end in
    mk (config this) (transitions this) true now duration callback
       (Some particles) easingFunction.

Definition set_isTransitioning (this : t) (b : bool) : t :=
    mk (config this) (transitions this) b
       (transitionStartTime this) (transitionDuration this)
       (onTransitionComplete this) (particles this) (easingFunction this).

  (** The outcome of one [updateTransition] call: the controller, the
      store, the callbacks invoked during the call and the returned
      boolean.  A particle in transition calls the easing function.
      [None] stands for the exception raised when that is [undefined],
      and for the call of a value that is not an easing function of the
      controller (a member of Object.prototype found under the type
      name), which throws or returns no number: the model does not follow
      the program there. *)
Definition updateTransition (this : t) (now : num) (particles : list oid)
      (h : Heap.t) : option (t * Heap.t * list Callback.t * bool) :=
    if negb (isTransitioning this) then Some (this, h, [], false)
    else
      let elapsed := now - transitionStartTime this in
      let progress := Math.min [elapsed / transitionDuration this; n1] in
      let moved :=
        match easingFunction this with
        | JsObject.Own f =>
            Some (Heap.forEach
                    (fun particle _ => Particle.updateTransition particle progress f)
                    particles h)
        | _ =>
            if existsb (fun o => Particle.inTransition (h o)) particles
            then None else Some h
        end in
      match moved with
      | None => None
      | Some h' =>
          if progress >=? n1 then
            let this := set_isTransitioning this false in
            let calls :=
              match onTransitionComplete this with
              | Some cb => [cb]
              | None => []
              end in
            Some (this, h', calls, isTransitioning this)
          else Some (this, h', [], isTransitioning this)
      end.

End AnimationController.

(** ** Numbers and strings

    The grid builds its cell keys from numbers and reads the numbers
    back.  [toString] is the template-literal conversion of a number
    whose finite values are integers (what [Math.floor] returns), and
    [Number] reads a decimal integer, the empty string or one of the
    three special names. *)

Module JsString.

Definition toString (a : num) : string :=
    match a with
    | Fin x => NilZero.string_of_int (Z.to_int (Zfloor x))
    | PInf => "Infinity"
    | NInf => "-Infinity"
    | NaN => "NaN"
    end.

Definition Number (s : string) : num :=
    if String.eqb s "" then Fin 0
    else if String.eqb s "Infinity" then PInf
    else if String.eqb s "-Infinity" then NInf
    else match NilZero.int_of_string s with
         | Some d => Fin (IZR (Z.of_int d))
         | None => NaN
         end.

  (** [s.split(sep)] for a one-character separator. *)
Fixpoint split (sep : Ascii.ascii) (s : string) : list string :=
    match s with
    | EmptyString => [EmptyString]
    | String c rest =>
        if Ascii.eqb c sep then EmptyString :: split sep rest
        else match split sep rest with
             | w :: ws => String c w :: ws
             | [] => [String c EmptyString]
             end
    end.

  (** The template literal [`${a}_${b}_${c}`]. *)
Definition key3 (a b c : num) : string :=
    String.append (toString a)
      (String "_"%char (String.append (toString b) (String "_"%char (toString c)))).

End JsString.

(** ** SpatialGrid *)

Module SpatialGrid.

Record t : Type := mk {
    cellSize : num;
    bound : num;
    grid : gmap string (list oid)
  }.

Local Open Scope js_scope.

Definition constructor (cellSize bound : num) : t := mk cellSize bound ∅.

Definition clear (this : t) : t := mk (cellSize this) (bound this) ∅.

Definition getCellKey (this : t) (x y z : num) : string :=
    let cx := Math.floor ((x + bound this) / cellSize this) in
    let cy := Math.floor ((y + bound this) / cellSize this) in
    let cz := Math.floor ((z + bound this) / cellSize this) in
    JsString.key3 cx cy cz.

Definition addParticle (this : t) (h : Heap.t) (particle : oid) : t :=
    let key := getCellKey this (Particle.x (h particle)) (Particle.y (h particle))
                 (Particle.z (h particle)) in
    let bucket :=
      match grid this !! key with
      | Some b => b
      | None => []
      end in
    mk (cellSize this) (bound this) (<[key := bucket ++ [particle]]> (grid this)).

Definition addParticles (this : t) (h : Heap.t) (particles : list oid) : t :=
    fold_left (fun g particle => addParticle g h particle) particles (clear this).

Definition offsets : list num := [Fin (-1); Fin 0; Fin 1].

Definition getNeighborKeys (cellKey : string) : list string :=
    let parts := map JsString.Number (JsString.split "_"%char cellKey) in
    let cx := nth 0 parts NaN in
    let cy := nth 1 parts NaN in
    let cz := nth 2 parts NaN in
    flat_map (fun dx =>
      flat_map (fun dy =>
        map (fun dz => JsString.key3 (cx + dx) (cy + dy) (cz + dz)) offsets)
        offsets)
      offsets.

  (** [this.grid[cellKey] || []].  The grid is a plain object: under a
      name Object.prototype has, what is returned is that member and not
      a list ([None]).  The keys [addParticle] and
      [getParticlesInNeighborhood] use are three numbers joined by
      underscores, which no such name is. *)
Definition getParticlesInCell (this : t) (cellKey : string) : option (list oid) :=
    match JsObject.get (Some (grid this)) cellKey with
    | JsObject.Own b => Some b
    | JsObject.Undefined => Some []
    | JsObject.Alien => None
    end.

Definition getParticlesInNeighborhood (this : t) (cellKey : string) : list oid :=
    flat_map (fun key =>
                match grid this !! key with
                | Some b => b
                | None => []
                end)
             (getNeighborKeys cellKey).

End SpatialGrid.

(** ** The world outside the simulation objects

    The object store with its allocation counter, the random number
    generator, what was written to [console.error] and the names of the
    host callbacks that were called, oldest first. *)

Module World.
Record t : Type := mk {
    heap : Heap.t;
    fresh : oid;
    rng : Rng.t;
    console : list string;
    invoked : list string
  }.

Definition set_heap (w : t) (h : Heap.t) : t :=
    mk h (fresh w) (rng w) (console w) (invoked w).
Definition set_rng (w : t) (g : Rng.t) : t :=
    mk (heap w) (fresh w) g (console w) (invoked w).
Definition log (w : t) (msgs : list string) : t :=
    mk (heap w) (fresh w) (rng w) (console w ++ msgs) (invoked w).
Definition call (w : t) (name : string) : t :=
    mk (heap w) (fresh w) (rng w) (console w) (invoked w ++ [name]).

  (** [new Particle(config)]: a fresh object. *)
Definition newParticle (w : t) (config : Config.t) : oid * t :=
    let '(p, g) := Particle.constructor config (rng w) in
    (fresh w, mk (Heap.set (heap w) (fresh w) p) (S (fresh w)) g
                 (console w) (invoked w)).
End World.

(** ** Particle3DMesh

    The renderer, the camera and the DOM are collaborators outside the
    core; [animate] below is the body of one running frame without
    them.  The camera enters only through [onScreen], which says
    whether a point projects to screen coordinates. *)

Module Particle3DMesh.

Record t : Type := mk {
    config : Config.t;
    particles : list oid;
    globalVelocityY : num;
    scrollVelocity : num;
    smoothedScrollVelocity : num;
    velocityDecay : num;
    velocitySmoothingFactor : num;
    shapeManager : ShapeManager.t;
    animationController : AnimationController.t;
    spatialGrid : SpatialGrid.t;
    currentShape : option Shape.t;
    targetShape : option Shape.t
  }.

Definition set_particles (m : t) (ps : list oid) : t :=
    mk (config m) ps (globalVelocityY m) (scrollVelocity m)
       (smoothedScrollVelocity m) (velocityDecay m) (velocitySmoothingFactor m)
       (shapeManager m) (animationController m) (spatialGrid m)
       (currentShape m) (targetShape m).

Definition set_velocities (m : t) (g s sm : num) : t :=
    mk (config m) (particles m) g s sm (velocityDecay m)
       (velocitySmoothingFactor m)
       (shapeManager m) (animationController m) (spatialGrid m)
       (currentShape m) (targetShape m).

Definition set_animationController (m : t) (ac : AnimationController.t) : t :=
    mk (config m) (particles m) (globalVelocityY m) (scrollVelocity m)
       (smoothedScrollVelocity m) (velocityDecay m) (velocitySmoothingFactor m)
       (shapeManager m) ac (spatialGrid m)
       (currentShape m) (targetShape m).

Definition set_spatialGrid (m : t) (g : SpatialGrid.t) : t :=
    mk (config m) (particles m) (globalVelocityY m) (scrollVelocity m)
       (smoothedScrollVelocity m) (velocityDecay m) (velocitySmoothingFactor m)
       (shapeManager m) (animationController m) g
       (currentShape m) (targetShape m).

Definition set_currentShape (m : t) (s : option Shape.t) : t :=
    mk (config m) (particles m) (globalVelocityY m) (scrollVelocity m)
       (smoothedScrollVelocity m) (velocityDecay m) (velocitySmoothingFactor m)
       (shapeManager m) (animationController m) (spatialGrid m)
       s (targetShape m).

Definition set_targetShape (m : t) (s : option Shape.t) : t :=
    mk (config m) (particles m) (globalVelocityY m) (scrollVelocity m)
       (smoothedScrollVelocity m) (velocityDecay m) (velocitySmoothingFactor m)
       (shapeManager m) (animationController m) (spatialGrid m)
       (currentShape m) s.

Local Open Scope js_scope.

Fixpoint allocate (n : nat) (config : Config.t) (w : World.t)
      : list oid * World.t :=
    match n with
    | O => ([], w)
    | S k =>
        let '(o, w1) := World.newParticle w config in
        let '(rest, w2) := allocate k config w1 in
        (o :: rest, w2)
    end.

Definition initParticles (this : t) (w : World.t) : t * World.t :=
    let '(ps, w') := allocate (Config.PARTICLE_COUNT (config this)) (config this) w in
    (set_particles this ps, w').

Definition updateVelocities (this : t) : t :=
    let sm := smoothedScrollVelocity this
              + (scrollVelocity this - smoothedScrollVelocity this)
                * velocitySmoothingFactor this in
    set_velocities this (globalVelocityY this * velocityDecay this)
                        (scrollVelocity this * velocityDecay this) sm.

  (** [None] when a particle's [update] throws. *)
Definition updateParticles (this : t) (w : World.t) : option World.t :=
    let '(r, g) :=
      Heap.forEachM
        (fun particle =>
           Particle.update particle (globalVelocityY this) (config this)
             (currentShape this))
        (particles this) (World.heap w) (World.rng w) in
    match r with
    | Some h => Some (World.set_rng (World.set_heap w h) g)
    | None => None
    end.

Definition updateSpatialGrid (this : t) (w : World.t) : t :=
    set_spatialGrid this
      (SpatialGrid.addParticles (spatialGrid this) (World.heap w) (particles this)).

  (** [array.indexOf(o)]: the first index holding the reference, or -1. *)
Fixpoint indexOfFrom (i : Z) (l : list oid) (o : oid) : Z :=
    match l with
    | [] => (-1)%Z
    | a :: rest => if Nat.eqb a o then i else indexOfFrom (i + 1)%Z rest o
    end.

Definition indexOf (l : list oid) (o : oid) : Z := indexOfFrom 0%Z l o.

  (** The body of the two nested loops that pair [p1] with the
      particles of its neighbourhood; [keep] is the last test a pair has
      to pass before it is emitted. *)
Definition pairsOf (this : t) (h : Heap.t) (keep : oid -> oid -> bool)
      (p1 : oid) : list (oid * oid) :=
    let cellKey :=
      SpatialGrid.getCellKey (spatialGrid this)
        (Particle.x (h p1)) (Particle.y (h p1)) (Particle.z (h p1)) in
    let neighborhoodParticles :=
      SpatialGrid.getParticlesInNeighborhood (spatialGrid this) cellKey in
    flat_map
      (fun p2 =>
         if Nat.eqb p1 p2
            || (indexOf (particles this) p1 >? indexOf (particles this) p2)%Z
         then []
         else
           let dx := Particle.x (h p1) - Particle.x (h p2) in
           let dy := Particle.y (h p1) - Particle.y (h p2) in
           let dz := Particle.z (h p1) - Particle.z (h p2) in
           let distance := Math.sqrt (dx*dx + dy*dy + dz*dz) in
           if distance <? Config.CONNECTION_DISTANCE (config this) then
             let blocked :=
               match currentShape this with
               | Some shape =>
                   Shape.hasExclusionZone shape
                   && Shape.crossesExclusionZone shape
                        (Particle.position (h p1)) (Particle.position (h p2))
               | None => false
               end in
             if blocked then []
             else if keep p1 p2 then [(p1, p2)] else []
           else [])
      neighborhoodParticles.

  (** The connection list [animate] builds. *)
Definition connections (this : t) (h : Heap.t) : list (oid * oid) :=
    let wanted :=
      Config.USE_WEBGL (config this)
      || match Config.SHOW_CONNECTIONS (config this) with
         | Some false => false
         | _ => true
         end in
    if wanted
    then flat_map (pairsOf this h (fun _ _ => true)) (particles this)
    else [].

  (** The pairs [drawConnections] hands to [renderer.drawConnection]. *)
Definition drawConnections (this : t) (h : Heap.t)
      (onScreen : Point.t -> bool) : list (oid * oid) :=
    if Config.USE_WEBGL (config this) then []
    else
      flat_map
        (pairsOf this h
           (fun p1 p2 => onScreen (Particle.position (h p1))
                         && onScreen (Particle.position (h p2))))
        (particles this).

  (** Calling a completion callback. *)
Definition runCallback (this : t) (w : World.t) (cb : Callback.t)
      : t * World.t :=
    match cb with
    | Callback.Host name => (this, World.call w name)
    | Callback.ShapeSwap callback =>
        let this := set_currentShape this (targetShape this) in
        let this := set_targetShape this None in
        match callback with
        | Some name => (this, World.call w name)
        | None => (this, w)
        end
    end.

  (** One frame.  The result is the state after the frame and the
      connections given to the renderer; [None] when the frame throws. *)
Definition animate (this : t) (now : num) (onScreen : Point.t -> bool)
      (w : World.t) : option (t * World.t * list (oid * oid)) :=
    let this := updateVelocities this in
    match AnimationController.updateTransition (animationController this) now
            (particles this) (World.heap w) with
    | None => None
    | Some (ac, h, calls, _) =>
        let this := set_animationController this ac in
        let w := World.set_heap w h in
        let '(this, w) :=
          fold_left (fun s cb => runCallback (fst s) (snd s) cb) calls (this, w) in
        match updateParticles this w with
        | None => None
        | Some w =>
            let this := updateSpatialGrid this w in
            let conns := connections this (World.heap w) in
            if Config.USE_WEBGL (config this)
            then Some (this, w, conns)
            else Some (this, w, drawConnections this (World.heap w) onScreen)
        end
    end.

  (** [setShape] and [transitionToShape] are [None] where [createShape]
      is: under a shape name that finds a member of Object.prototype. *)
Definition setShape (this : t) (shapeName : string)
      (options : ShapeManager.Options.t) (w : World.t) : option (t * World.t) :=
    let '(created, g) :=
      ShapeManager.createShape (shapeManager this) shapeName (particles this)
        options (World.heap w) (World.rng w) in
    match created with
    | Some (h, shape, msgs) =>
        Some (set_currentShape this shape,
              World.log (World.set_rng (World.set_heap w h) g) msgs)
    | None => None
    end.

Definition transitionToShape (this : t) (now : num) (shapeName : string)
      (options : ShapeManager.Options.t) (duration : num) (easing : string)
      (callback : option string) (w : World.t) : option (t * World.t) :=
    let this :=
      match currentShape this with
      | Some shape =>
          if Shape.hasExclusionZone shape then
            set_currentShape this
              (Some (Shape.mk (Shape.name shape) false None
                       (Shape.crossesExclusionZone shape)))
          else this
      | None => this
      end in
    let '(created, g) :=
      ShapeManager.createShape (shapeManager this) shapeName (particles this)
        options (World.heap w) (World.rng w) in
    match created with
    | Some (h, shape, msgs) =>
        let this := set_targetShape this shape in
        let this :=
          set_animationController this
            (AnimationController.startTransition (animationController this) now
               (particles this) (targetShape this) duration easing
               (Some (Callback.ShapeSwap callback))) in
        Some (this, World.log (World.set_rng (World.set_heap w h) g) msgs)
    | None => None
    end.

End Particle3DMesh.

(** * The spatial grid on doubles

    The numbers of the source are IEEE 754 binary64.  The model above
    computes exactly on finite numbers, which is what the program does
    up to rounding; the cell of a position, however, is the integer part
    of a rounded sum divided by the cell size and rounded again, and a
    rounding can move it across a cell boundary.  [Binary64] is the grid
    on the processor's doubles, with the same methods, for the questions
    that depend on it.  A particle is represented by its coordinates. *)

Module Binary64.
Import PrimFloat.
Local Open Scope float_scope.

(** [s.split(sep)] does not depend on the numbers. *)
Definition split : Ascii.ascii -> string -> list string := JsString.split.

(** The integer a double is, when it is one: a finite number without
    fractional part (either zero counts as 0). *)
Definition toInteger (a : float) : option Z :=
  match FloatOps.Prim2SF a with
  | SpecFloat.S754_zero _ => Some 0%Z
  | SpecFloat.S754_finite s m e =>
      let magnitude :=
        if (0 <=? e)%Z then Some (Z.shiftl (Z.pos m) e)
        else
          let q := Z.shiftr (Z.pos m) (- e) in
          if Z.eqb (Z.shiftl q (- e)) (Z.pos m) then Some q else None in
      match magnitude with
      | Some n => Some (if s then (- n)%Z else n)
      | None => None
      end
  | _ => None
  end.

(** The double of an integer below 2^53 in magnitude, which is exact. *)
Definition ofInteger (n : Z) : float :=
  let v := of_uint63 (Uint63.of_Z (Z.abs n)) in
  if (n <? 0)%Z then - v else v.

Definition safe (n : Z) : bool := (Z.abs n <? 2 ^ 53)%Z.

Module Math.

(** [Math.floor]: a double with a fractional part is below 2^52 in
    magnitude, so the integer below it is a double. *)
Definition floor (a : float) : float :=
  match FloatOps.Prim2SF a with
  | SpecFloat.S754_finite s m e =>
      if (0 <=? e)%Z then a
      else
        let q := Z.shiftr (Z.pos m) (- e) in
        let whole := Z.eqb (Z.shiftl q (- e)) (Z.pos m) in
        let n := if s && negb whole then (q + 1)%Z else q in
        let v := of_uint63 (Uint63.of_Z n) in
        if s then - v else v
  | _ => a
  end.

Definition sqrt (a : float) : float := PrimFloat.sqrt a.

End Math.

Module JsString.

(** The template-literal conversion of a number, on what the grid
    converts: NaN, the infinities and the integers below 2^53 in
    magnitude, which print as their decimal digits.  On other numbers
    the model stops ([None]). *)
Definition toString (a : float) : option string :=
  match FloatOps.Prim2SF a with
  | SpecFloat.S754_nan => Some "NaN"%string
  | SpecFloat.S754_infinity false => Some "Infinity"%string
  | SpecFloat.S754_infinity true => Some "-Infinity"%string
  | _ =>
      match toInteger a with
      | Some n => if safe n then Some (NilZero.string_of_int (Z.to_int n)) else None
      | None => None
      end
  end.

(** [Number(s)] on the strings [toString] writes and on the empty
    string; on other strings the model stops. *)
Definition Number (s : string) : option float :=
  if String.eqb s "" then Some 0
  else if String.eqb s "NaN" then Some nan
  else if String.eqb s "Infinity" then Some infinity
  else if String.eqb s "-Infinity" then Some neg_infinity
  else match NilZero.int_of_string s with
       | Some d => if safe (Z.of_int d) then Some (ofInteger (Z.of_int d)) else None
       | None => None
       end.

(** The template literal [`${a}_${b}_${c}`]. *)
Definition key3 (a b c : float) : option string :=
  match toString a, toString b, toString c with
  | Some sa, Some sb, Some sc =>
      Some (String.append sa
              (String "_"%char (String.append sb (String "_"%char sc))))
  | _, _, _ => None
  end.

End JsString.

(** The coordinates the grid reads from a particle. *)
Module Position.
Record t : Type := mk { x : float; y : float; z : float }.
End Position.

Definition Heap : Type := oid -> Position.t.

Module SpatialGrid.

Record t : Type := mk {
    cellSize : float;
    bound : float;
    grid : gmap string (list oid)
  }.

Definition constructor (cellSize bound : float) : t := mk cellSize bound ∅.

Definition clear (this : t) : t := mk (cellSize this) (bound this) ∅.

Definition getCellKey (this : t) (x y z : float) : option string :=
    let cx := Math.floor ((x + bound this) / cellSize this) in
    let cy := Math.floor ((y + bound this) / cellSize this) in
    let cz := Math.floor ((z + bound this) / cellSize this) in
    JsString.key3 cx cy cz.

Definition addParticle (this : t) (h : Heap) (particle : oid) : option t :=
    match getCellKey this (Position.x (h particle)) (Position.y (h particle))
            (Position.z (h particle)) with
    | Some key =>
        let bucket :=
          match grid this !! key with
          | Some b => b
          | None => []
          end in
        Some (mk (cellSize this) (bound this)
                (<[key := bucket ++ [particle]]> (grid this)))
    | None => None
    end.

Definition addParticles (this : t) (h : Heap) (particles : list oid) : option t :=
    fold_left
      (fun g particle =>
         match g with
         | Some g => addParticle g h particle
         | None => None
         end)
      particles (Some (clear this)).

Definition offsets : list float := [-1; 0; 1].

  (** A part the key does not have is [undefined], and the sums with
      it are NaN. *)
Definition part (parts : list string) (i : nat) : option float :=
    match nth_error parts i with
    | Some s => JsString.Number s
    | None => Some nan
    end.

Definition getNeighborKeys (cellKey : string) : option (list string) :=
    let parts := split "_"%char cellKey in
    match part parts 0, part parts 1, part parts 2 with
    | Some cx, Some cy, Some cz =>
        mapM (fun key => key)
          (flat_map (fun dx =>
             flat_map (fun dy =>
               map (fun dz => JsString.key3 (cx + dx) (cy + dy) (cz + dz)) offsets)
               offsets)
             offsets)
    | _, _, _ => None
    end.

Definition getParticlesInNeighborhood (this : t) (cellKey : string)
      : option (list oid) :=
    match getNeighborKeys cellKey with
    | Some keys =>
        Some (flat_map (fun key =>
                          match grid this !! key with
                          | Some b => b
                          | None => []
                          end)
                       keys)
    | None => None
    end.

End SpatialGrid.

(** The distance [animate] computes between two particles. *)
Definition distance (h : Heap) (p1 p2 : oid) : float :=
  let dx := Position.x (h p1) - Position.x (h p2) in
  let dy := Position.y (h p1) - Position.y (h p2) in
  let dz := Position.z (h p1) - Position.z (h p2) in
  Math.sqrt (dx * dx + dy * dy + dz * dz).

(** A grid of bound 1 whose cell size is the connection distance 0.1,
    and two particles at (0.2, 0, 0) and (0.3, 0, 0): the doubles these
    decimals denote, written exactly. *)
Module Scenario.
Definition d01 : float := 0x1.999999999999ap-4.
Definition d02 : float := 0x1.999999999999ap-3.
Definition d03 : float := 0x1.3333333333333p-2.

Definition grid : SpatialGrid.t := SpatialGrid.constructor d01 1.

Definition store : Heap :=
  fun o =>
    match o with
    | O => Position.mk d02 0 0
    | _ => Position.mk d03 0 0
    end.

Definition pair : list oid := [0; 1]%nat.
End Scenario.

End Binary64.

(** * Definitions that follow the specification's words *)

(** The slab test of a segment against an axis-aligned box, as the
    specification describes it. *)

Module SlabSpec.
Local Open Scope js_scope.

  (** Entry and exit parameters of the segment on one axis: the
      parameters at which it meets the two bounding planes [lo] and [hi],
      smaller first; a zero direction component gives the bounds
      -Infinity and +Infinity. *)
Definition slab (lo hi p d : num) : num * num :=
    if d === n0 then (NInf, PInf)
    else
      let ta := (lo - p) / d in
      let tb := (hi - p) / d in
      (Math.min [ta; tb], Math.max [ta; tb]).

Definition slabs (zone : ExclusionZone.t) (p1 p2 : Point.t)
      : (num * num) * (num * num) * (num * num) :=
    let ps := ExclusionZone.params zone in
    let cx := ExclusionZone.Params.x ps in
    let cy := ExclusionZone.Params.y ps in
    let cz := ExclusionZone.Params.z ps in
    let hw := ExclusionZone.Params.width ps / n2 in
    let hh := ExclusionZone.Params.height ps / n2 in
    let hd := ExclusionZone.Params.depth ps / n2 in
    (slab (cx - hw) (cx + hw) (Point.x p1) (Point.x p2 - Point.x p1),
     slab (cy - hh) (cy + hh) (Point.y p1) (Point.y p2 - Point.y p1),
     slab (cz - hd) (cz + hd) (Point.z p1) (Point.z p2 - Point.z p1)).

  (** The three intervals intersected: the combined entry is the
      largest entry, the combined exit the smallest exit. *)
Definition entry (zone : ExclusionZone.t) (p1 p2 : Point.t) : num :=
    let '(sx, sy, sz) := slabs zone p1 p2 in
    Math.max [fst sx; fst sy; fst sz].

Definition exit (zone : ExclusionZone.t) (p1 p2 : Point.t) : num :=
    let '(sx, sy, sz) := slabs zone p1 p2 in
    Math.min [snd sx; snd sy; snd sz].

  (** A hit: combined exit >= max(0, combined entry) and combined
      entry <= 1. *)
Definition hit (zone : ExclusionZone.t) (p1 p2 : Point.t) : bool :=
    (exit zone p1 p2 >=? Math.max [n0; entry zone p1 p2])
    && (entry zone p1 p2 <=? n1).
End SlabSpec.

(** What the specification says of a bounce off a sphere: the speed,
    the unit normal from the centre of the zone to the particle, and the
    component of a velocity along a direction. *)

Module Reflection.
Local Open Scope js_scope.

Definition speed (p : Particle.t) : num :=
  Math.sqrt (Particle.vx p * Particle.vx p + Particle.vy p * Particle.vy p
             + Particle.vz p * Particle.vz p).




(** Position and velocity are finite numbers. *)
Definition finiteMotion (p : Particle.t) : bool :=
  Js.isFinite (Particle.x p) && Js.isFinite (Particle.y p)
  && Js.isFinite (Particle.z p) && Js.isFinite (Particle.vx p)
  && Js.isFinite (Particle.vy p) && Js.isFinite (Particle.vz p).

Definition finitePoint (c : Point.t) : bool :=
  Js.isFinite (Point.x c) && Js.isFinite (Point.y c) && Js.isFinite (Point.z c).

(** Velocity components of magnitude at most 2^1022: twice such a
    number is still a double, where twice a larger one is Infinity. *)
Definition doubles (p : Particle.t) : Prop :=
  forall v : R,
    Particle.vx p = Fin v \/ Particle.vy p = Fin v \/ Particle.vz p = Fin v ->
    (Rabs v <= IZR (2 ^ 1022))%R.
End Reflection.

(** The boundary invariant: every coordinate has magnitude at most the
    bound.  A move is accepted when no exclusion zone rejects it. *)

Module Bounds.
Local Open Scope js_scope.

Definition within (p : Particle.t) (bound : num) : bool :=
  (Math.abs (Particle.x p) <=? bound)
  && (Math.abs (Particle.y p) <=? bound)
  && (Math.abs (Particle.z p) <=? bound).

End Bounds.

(** The Fibonacci-sphere law of the specification: the point of index
    [i] among [n] on the sphere of radius [r] around [(cx, cy, cz)]. *)

Module FibonacciSphere.

Definition phi (n i : nat) : R := Ratan.acos (1 - 2 * (INR i + 0.5) / INR n).

Definition theta (i : nat) : R := 2 * Rtrigo1.PI * INR i * (1 / 1.618033988749895).

Definition point (n i : nat) (r cx cy cz : R) : R * R * R :=
  (cx + r * (Rtrigo_def.sin (phi n i) * Rtrigo_def.cos (theta i)),
   cy + r * (Rtrigo_def.sin (phi n i) * Rtrigo_def.sin (theta i)),
   cz + r * Rtrigo_def.cos (phi n i)).

End FibonacciSphere.

(** A transition observed through a sequence of [updateTransition]
    calls, one per clock reading: the final controller and store and the
    callbacks invoked, oldest first. *)

Module Transition.
Local Open Scope js_scope.

(** The progress [updateTransition] computes at clock reading [now]. *)
Definition progress (ac : AnimationController.t) (now : num) : num :=
  Math.min [(now - AnimationController.transitionStartTime ac)
            / AnimationController.transitionDuration ac; n1].


End Transition.

(** What [transitionToShape] makes of the current shape before it looks
    the new shape up: a shape with an exclusion zone loses it. *)

Module Strip.

Definition withoutZone (current : option Shape.t) : option Shape.t :=
  match current with
  | Some shape =>
      if Shape.hasExclusionZone shape
      then Some (Shape.mk (Shape.name shape) false None
                   (Shape.crossesExclusionZone shape))
      else Some shape
  | None => None
  end.

End Strip.

(** What the grid's keys are made of: strings free of the separator,
    and cell coordinates as [Math.floor] returns them (an integer, an
    infinity or NaN). *)

Module Keys.
Fixpoint freeOf (sep : ascii) (s : string) : bool :=
  match s with
  | EmptyString => true
  | String c rest => negb (Ascii.eqb c sep) && freeOf sep rest
  end.

(** The key every position has in a grid whose cell size is NaN. *)
Definition nanKey : string := "NaN_NaN_NaN".

Definition integral (c : num) : Prop :=
  match c with
  | Fin x => exists k : Z, x = IZR k
  | _ => True
  end.
End Keys.

(** The cells of the grid, as [getCellKey] and [addParticle] compute
    them. *)

Module Grid.
(** The cell coordinate of a world coordinate. *)
Definition cellOf (g : SpatialGrid.t) (v : num) : num :=
  Math.floor ((v + SpatialGrid.bound g) / SpatialGrid.cellSize g)%js.

(** The key of the cell a particle is in. *)
Definition keyOf (g : SpatialGrid.t) (h : Heap.t) (p : oid) : string :=
  SpatialGrid.getCellKey g (Particle.x (h p)) (Particle.y (h p)) (Particle.z (h p)).

(** The particles the grid holds under a key. *)
Definition bucket (g : SpatialGrid.t) (key : string) : list oid :=
  match SpatialGrid.grid g !! key with
  | Some b => b
  | None => []
  end.

(** The distance [animate] computes between two particles. *)
Definition distance (h : Heap.t) (p q : oid) : num :=
  let dx := (Particle.x (h p) - Particle.x (h q))%js in
  let dy := (Particle.y (h p) - Particle.y (h q))%js in
  let dz := (Particle.z (h p) - Particle.z (h q))%js in
  Math.sqrt (dx * dx + dy * dy + dz * dz)%js.

(** Two real coordinates closer than the threshold [thr]. *)
Definition near (thr : num) (a b : R) : Prop :=
  thr = PInf \/ exists t, thr = Fin t /\ (Rabs (a - b) < t)%R.
End Grid.

(** What a frame needs in order not to throw. *)

Module Frame.
(** A shape that says it has an exclusion zone carries one. *)
Definition carriesZone (shape : option Shape.t) : bool :=
  match shape with
  | Some s =>
      if Shape.hasExclusionZone s
      then match Shape.exclusionZone s with Some _ => true | None => false end
      else true
  | None => true
  end.

(** The controller is idle or has an easing function of its own. *)
Definition canAdvance (ac : AnimationController.t) : bool :=
  negb (AnimationController.isTransitioning ac)
  || match AnimationController.easingFunction ac with
     | JsObject.Own _ => true
     | _ => false
     end.
End Frame.


(** What [checkBounds] tests and what it leaves of a particle it
    recycles. *)

Module Recycle.
Local Open Scope js_scope.
(** The test [checkBounds] makes. *)
Definition outside (p : Particle.t) (bound : num) : bool :=
  (Math.abs (Particle.x p) >? bound) || (Math.abs (Particle.y p) >? bound)
  || (Math.abs (Particle.z p) >? bound).

(** A coordinate on a face of the cube of half-width [b], with the
    velocity along it pointing back into the cube or zero. *)
Definition inward (c v : num) (b : R) : Prop :=
  exists s w : R,
    (s = 1 \/ s = -1)%R /\ c = Fin (s * b) /\ v = Fin w /\ (s * w <= 0)%R.
End Recycle.

(** Easing functions by name, and easing without overshoot. *)

Module Easing.
Import AnimationController.
(** The easing function a transition type name stands for. *)
Definition byName (type : string) : easing :=
  if String.eqb type "linear" then linearTransition
  else if String.eqb type "easeIn" then easeInTransition
  else if String.eqb type "easeOut" then easeOutTransition
  else if String.eqb type "spring" then springTransition
  else if String.eqb type "bounce" then bounceTransition
  else if String.eqb type "elastic" then elasticTransition
  else easeInOutTransition.

(** An easing function that maps the unit interval into itself. *)
Definition unit (f : easing) : Prop :=
  forall t : R, (0 <= t <= 1)%R -> exists v : R, f (Fin t) = Fin v /\ (0 <= v <= 1)%R.
End Easing.

(** What the random shape does to a particle. *)

Module Scatter.
(** What a random target within [b] leaves of a particle: the particle
    stays where it is, remembers that place as the start of its path,
    aims at a point of the cube and is in transition. *)
Definition aimed (b : R) (before after : Particle.t) : Prop :=
  Particle.inTransition after = true
  /\ Particle.position after = Particle.position before
  /\ Particle.originalX after = Particle.x before
  /\ Particle.originalY after = Particle.y before
  /\ Particle.originalZ after = Particle.z before
  /\ exists tx ty tz : R,
       Particle.targetX after = Some (Fin tx)
       /\ Particle.targetY after = Some (Fin ty)
       /\ Particle.targetZ after = Some (Fin tz)
       /\ (Rabs tx <= b)%R /\ (Rabs ty <= b)%R /\ (Rabs tz <= b)%R.
End Scatter.

(** A particle as [new Particle(config)] makes it. *)

Module Fresh.
(** A particle as the constructor leaves it: inside the cube of
    half-width [b], at rest on its own path, aiming nowhere. *)
Definition born (b : R) (p : Particle.t) : Prop :=
  Bounds.within p (Fin b) = true
  /\ Particle.inTransition p = false
  /\ Particle.targetX p = None /\ Particle.targetY p = None
  /\ Particle.targetZ p = None
  /\ Particle.originalX p = Particle.x p /\ Particle.originalY p = Particle.y p
  /\ Particle.originalZ p = Particle.z p
  /\ Particle.baseVy p = Particle.vy p.
End Fresh.

(** * Sample data *)

Module Sample.

Definition config : Config.t :=
  Config.mk (Fin 100) (Fin (1 / 2)) (Fin 3) 2 (Fin 20) (Fin 50) true true None.

(** A generator that always draws 1/2. *)
Definition rng : Rng.t := Rng.mk (fun _ => (1 / 2)%R) 0.

(** A particle at rest state apart from position and velocity. *)
Definition particle (x y z vx vy vz : R) : Particle.t :=
  Particle.mk (Fin x) (Fin y) (Fin z) (Fin vx) (Fin vy) (Fin vz) (Fin vy)
    (Fin 3) None None None (Fin x) (Fin y) (Fin z) false (Fin x) (Fin y) (Fin z).

Definition sphereZone (cx cy cz r : R) : ExclusionZone.t :=
  ExclusionZone.mk "sphere"
    (ExclusionZone.Params.mk (Fin cx) (Fin cy) (Fin cz) (Fin r) NaN NaN NaN "").

Definition boxZone (cx cy cz width height depth : R) : ExclusionZone.t :=
  ExclusionZone.mk "box"
    (ExclusionZone.Params.mk (Fin cx) (Fin cy) (Fin cz) NaN
       (Fin height) (Fin width) (Fin depth) "").

(** A shape that carries a zone and blocks what its zone intersects. *)
Definition zoned (zone : ExclusionZone.t) : Shape.t :=
  Shape.mk "custom" true (Some zone) (ExclusionZone.intersectsLine zone).

(** Scenario B: four particles, radius 1, centre at the origin. *)
Definition four : list oid := [0; 1; 2; 3]%nat.

Definition restHeap : Heap.t := fun _ => particle 0 0 0 0 0 0.

Definition unitSphereOptions : ShapeManager.Options.t :=
  ShapeManager.Options.mk None (Some (Fin 1)) None None None.

Definition manager : ShapeManager.t := ShapeManager.mk config JsObject.empty.

Definition sphereRun : Heap.t :=
  fst (fst (ShapeManager.createSphere manager four unitSphereOptions restHeap rng)).

(** What Scenario B expects of the particle at index [i]. *)
Definition matchesFormula (i : nat) (o : oid) : Prop :=
  let '(tx, ty, tz) := FibonacciSphere.point 4 i 1 0 0 0 in
  Particle.targetX (sphereRun o) = Some (Fin tx)
  /\ Particle.targetY (sphereRun o) = Some (Fin ty)
  /\ Particle.targetZ (sphereRun o) = Some (Fin tz)
  /\ Particle.inTransition (sphereRun o) = true
  /\ Particle.position (sphereRun o) = Particle.position (restHeap o).

(** Scenario A: bound 100, cell size 50, connection distance 20 and
    particles at (0,0,0), (10,0,0) and (90,90,90). *)
Definition three : list oid := [0; 1; 2]%nat.

Definition scenarioHeap : Heap.t :=
  fun o =>
    match o with
    | O => particle 0 0 0 0 0 0
    | S O => particle 10 0 0 0 0 0
    | _ => particle 90 90 90 0 0 0
    end.

Definition scenarioGrid : SpatialGrid.t := SpatialGrid.constructor (Fin 50) (Fin 100).

(** The configuration [Config.js] gives when the host sets nothing: it
    has no GRID_CELL_SIZE, so the grid is built with [undefined], which
    every division turns into NaN.  A mesh of two particles under it. *)
Definition defaults : Config.t :=
  Config.mk (Fin 100) (Fin (1 / 2)) (Fin 3) 2 (Fin 20) NaN true true None.

Definition pair : list oid := [0; 1]%nat.

Definition plainMesh : Particle3DMesh.t :=
  Particle3DMesh.mk defaults pair (Fin 0) (Fin 0) (Fin 0) (Fin 0.98) (Fin 0.1)
    (ShapeManager.mk defaults JsObject.empty) (AnimationController.constructor defaults)
    (SpatialGrid.constructor (Config.GRID_CELL_SIZE defaults) (Config.BOUND defaults))
    None None.

Definition pairWorld : World.t := World.mk scenarioHeap 2%nat rng [] [].

(** Scenario A as a mesh with no shape, and its world. *)
Definition scenarioMesh : Particle3DMesh.t :=
  Particle3DMesh.mk config three (Fin 0) (Fin 0) (Fin 0) (Fin 0.98) (Fin 0.1)
    (ShapeManager.mk config JsObject.empty) (AnimationController.constructor config)
    scenarioGrid None None.

Definition scenarioWorld : World.t := World.mk scenarioHeap 3%nat rng [] [].

(** A mesh of the four particles whose current shape carries a sphere
    zone; the registry knows the sphere generator only. *)
Definition registry : ShapeManager.t :=
  ShapeManager.registerShape manager "sphere" (ShapeManager.createSphere manager).

Definition mesh : Particle3DMesh.t :=
  Particle3DMesh.mk config four (Fin 0) (Fin 0) (Fin 0)
    (Fin 0.98) (Fin 0.1) registry (AnimationController.constructor config)
    (SpatialGrid.constructor (Fin 50) (Fin 100))
    (Some (zoned (sphereZone 5 0 0 5))) None.

Definition world : World.t := World.mk restHeap 4%nat rng [] [].

End Sample.

(** * Properties *)

(** ** Deciding comparisons of reals *)

Ltac rdec :=
  repeat match goal with
    | |- context [Rlt_dec ?a ?b] => destruct (Rlt_dec a b)
    | |- context [Rle_dec ?a ?b] => destruct (Rle_dec a b)
    | |- context [Req_dec_T ?a ?b] => destruct (Req_dec_T a b)
    | H : context [Rlt_dec ?a ?b] |- _ => destruct (Rlt_dec a b)
    | H : context [Rle_dec ?a ?b] |- _ => destruct (Rle_dec a b)
    | H : context [Req_dec_T ?a ?b] |- _ => destruct (Req_dec_T a b)
    end.

Ltac js_unfold :=
  unfold Js.gt, Js.ge, Js.sub, Js.lt, Js.le, Js.eq, Js.add, Js.neg, Js.mul,
    Js.div, Js.signed_inf, Rltb, Rleb, Reqb0, n0, n1, n2, n3, n4 in *.

(** ** ExclusionZone: the two cylinder routines *)

Section Cylinder.
Import ExclusionZone.

Lemma cylinder_same_body (ty : string) (ps : Params.t) (p1 p2 : Point.t) :
    intersectsLineCylinder (ExclusionZone.mk ty ps) p1 p2
    = ShapeManager.lineIntersectsCylinder
        (Point.x p1) (Point.y p1) (Point.z p1)
        (Point.x p2) (Point.y p2) (Point.z p2)
        (Params.x ps) (Params.y ps) (Params.z ps)
        (Params.radius ps) (Params.height ps) (Params.axis ps).
Proof.
    destruct ps as [cx cy cz r h w d axis].
    unfold intersectsLineCylinder, ShapeManager.lineIntersectsCylinder.
    cbn [params Params.x Params.y Params.z Params.radius Params.height Params.axis].
    destruct (String.eqb axis "x"); [reflexivity|].
    destruct (String.eqb axis "y"); reflexivity.
Qed.

  (** C5.  [ExclusionZone.intersectsLineCylinder] and
      [ShapeManager.lineIntersectsCylinder] return the same boolean for
      every pair of end points and every cylinder: centre, radius,
      height and axis, whatever the axis string is. *)
Theorem cylinder_routines_agree (zone : ExclusionZone.t) (p1 p2 : Point.t) :
    intersectsLineCylinder zone p1 p2
    = ShapeManager.lineIntersectsCylinder
        (Point.x p1) (Point.y p1) (Point.z p1)
        (Point.x p2) (Point.y p2) (Point.z p2)
        (Params.x (params zone)) (Params.y (params zone)) (Params.z (params zone))
        (Params.radius (params zone)) (Params.height (params zone))
        (Params.axis (params zone)).
Proof. destruct zone as [ty ps]. apply cylinder_same_body. Qed.

  (** The same through the dispatching [intersectsLine] of a cylinder
      zone. *)
Lemma cylinder_zone_agrees (ps : Params.t) (p1 p2 : Point.t) :
    intersectsLine (ExclusionZone.mk "cylinder" ps) p1 p2
    = ShapeManager.lineIntersectsCylinder
        (Point.x p1) (Point.y p1) (Point.z p1)
        (Point.x p2) (Point.y p2) (Point.z p2)
        (Params.x ps) (Params.y ps) (Params.z ps)
        (Params.radius ps) (Params.height ps) (Params.axis ps).
Proof.
    unfold intersectsLine. cbn [type]. cbn [String.eqb Ascii.eqb Bool.eqb].
    apply cylinder_same_body.
Qed.
End Cylinder.

(** ** ExclusionZone: the slab test of a box *)

Section Box.
Import ExclusionZone.
Local Open Scope js_scope.

  (** The final test of [intersectsLineBox] on the combined entry [a]
      and exit [b], against the specification's condition. *)
Lemma slab_condition (a b : num) :
    (if (b <? n0) || (a >? b) then false else (a <=? n1) && (b >=? n0))
    = (b >=? Math.max [n0; a]) && (a <=? n1).
Proof.
    destruct a as [x| | |], b as [y| | |]; cbn; js_unfold; cbn;
      rdec; cbn; rdec; try reflexivity; try lra.
Qed.

Lemma slab_of_source (lo hi p d : num) :
    SlabSpec.slab lo hi p d
    = (Math.min [if d === n0 then NInf else (lo - p) / d;
                 if d === n0 then PInf else (hi - p) / d],
       Math.max [if d === n0 then NInf else (lo - p) / d;
                 if d === n0 then PInf else (hi - p) / d]).
Proof.
    unfold SlabSpec.slab. destruct (d === n0); reflexivity.
Qed.

Lemma boxSlabs_spec (zone : ExclusionZone.t) (p1 p2 : Point.t) :
    boxSlabs zone p1 p2 = (SlabSpec.entry zone p1 p2, SlabSpec.exit zone p1 p2).
Proof.
    destruct zone as [ty [cx cy cz r h w d axis]].
    unfold boxSlabs, SlabSpec.entry, SlabSpec.exit, SlabSpec.slabs.
    cbn [params Params.x Params.y Params.z Params.width Params.height Params.depth].
    rewrite !slab_of_source. cbn [fst snd]. reflexivity.
Qed.

Lemma intersectsLineBox_hit (zone : ExclusionZone.t) (p1 p2 : Point.t) :
    intersectsLineBox zone p1 p2 = SlabSpec.hit zone p1 p2.
Proof.
    unfold intersectsLineBox. rewrite boxSlabs_spec.
    unfold SlabSpec.hit. apply slab_condition.
Qed.

  (** C9.  For every box zone and every segment, [intersectsLine]
      returns true exactly when the combined exit of the per-axis slabs
      is at least max(0, combined entry) and the combined entry is at
      most 1; a zero direction component contributes the bounds
      -Infinity and +Infinity. *)
Theorem box_intersects_iff_slabs_overlap (ps : Params.t) (p1 p2 : Point.t) :
    let zone := ExclusionZone.mk "box" ps in
    intersectsLine zone p1 p2 = true
    <-> (SlabSpec.exit zone p1 p2 >=? Math.max [n0; SlabSpec.entry zone p1 p2]) = true
        /\ (SlabSpec.entry zone p1 p2 <=? n1) = true.
Proof.
    intros zone. unfold intersectsLine.
    change (type zone) with "box"%string.
    cbn [String.eqb Ascii.eqb Bool.eqb].
    rewrite intersectsLineBox_hit. unfold SlabSpec.hit.
    rewrite andb_true_iff. reflexivity.
Qed.
End Box.

(** ** Arithmetic on the special values *)

Section Special.
Local Open Scope js_scope.

Lemma add_NaN_r a : a + NaN = NaN.
Proof. destruct a; reflexivity. Qed.

Lemma sub_NaN_r a : a - NaN = NaN.
Proof. destruct a; reflexivity. Qed.

Lemma mul_NaN_r a : a * NaN = NaN.
Proof. destruct a; reflexivity. Qed.

Lemma div_NaN_r a : a / NaN = NaN.
Proof. destruct a; reflexivity. Qed.

Lemma Fin_eq (x y : R) : x = y -> Fin x = Fin y.
Proof. intros ->; reflexivity. Qed.

  (** A value that is zero or NaN: what the difference of a number with
      itself is. *)
Definition zero_or_NaN (v : num) : Prop := v = NaN \/ v = Fin 0.

Lemma sub_self a : zero_or_NaN (a - a).
Proof.
    destruct a; [right | left | left | left]; try reflexivity.
    apply Fin_eq. lra.
Qed.

Lemma zero_or_NaN_mul u v : zero_or_NaN u -> zero_or_NaN v -> zero_or_NaN (u * v).
Proof.
    intros [-> | ->] [-> | ->]; [left | left | left | right]; try reflexivity.
    apply Fin_eq. lra.
Qed.

Lemma zero_or_NaN_add u v : zero_or_NaN u -> zero_or_NaN v -> zero_or_NaN (u + v).
Proof.
    intros [-> | ->] [-> | ->]; [left | left | left | right]; try reflexivity.
    apply Fin_eq. lra.
Qed.

Lemma zero_or_NaN_sqrt u : zero_or_NaN u -> zero_or_NaN (Math.sqrt u).
Proof.
    intros [-> | ->]; [left; reflexivity | right].
    unfold Math.sqrt. destruct (Rlt_dec 0 0) as [H | _]; [lra |].
    apply Fin_eq, sqrt_0.
Qed.

  (** 0/0 and everything with a NaN in it is NaN. *)
Lemma zero_or_NaN_div u v : zero_or_NaN u -> zero_or_NaN v -> u / v = NaN.
Proof.
    intros [-> | ->] [-> | ->]; try reflexivity.
    unfold Js.div. destruct (Req_dec_T 0 0) as [_ | H]; [| lra].
    unfold Js.signed_inf. destruct (Rlt_dec 0 0); [lra | reflexivity].
Qed.
End Special.

(** ** ExclusionZone: a point on the surface of a sphere *)

Section Sphere.
Import ExclusionZone.
Local Open Scope js_scope.

  (** A point whose squared distance from the centre is the squared
      radius is contained. *)
Lemma containsSphere_on_surface (ty : string) (cx cy cz r px py pz : R)
      (h w d : num) (axis : string) :
    ((px - cx) * (px - cx) + (py - cy) * (py - cy) + (pz - cz) * (pz - cz)
     = r * r)%R ->
    containsSphere
      (ExclusionZone.mk ty (Params.mk (Fin cx) (Fin cy) (Fin cz) (Fin r) h w d axis))
      (Point.mk (Fin px) (Fin py) (Fin pz)) = true.
Proof.
    intros E. unfold containsSphere. cbn. unfold Rleb.
    destruct (Rle_dec _ _) as [_ | H]; [reflexivity |].
    exfalso. apply H. right. rewrite <- E. ring.
Qed.

  (** The segment from a point to itself never meets a sphere: its
      length is zero, the direction is normalized by 0/0, and every
      comparison with the resulting NaN fails. *)
Lemma intersectsLineSphere_zero_length (zone : ExclusionZone.t) (P : Point.t) :
    intersectsLineSphere zone P P = false.
Proof.
    destruct zone as [ty [cx cy cz r h w d axis]], P as [px py pz].
    unfold intersectsLineSphere. cbn [params Point.x Point.y Point.z].
    pose proof (sub_self px) as Hx. pose proof (sub_self py) as Hy.
    pose proof (sub_self pz) as Hz.
    set (dirX := px - px) in *. set (dirY := py - py) in *.
    set (dirZ := pz - pz) in *.
    assert (Hlen : zero_or_NaN (Math.sqrt (dirX * dirX + dirY * dirY + dirZ * dirZ))).
    { apply zero_or_NaN_sqrt; repeat apply zero_or_NaN_add;
        apply zero_or_NaN_mul; assumption. }
    set (len := Math.sqrt _) in *.
    rewrite (zero_or_NaN_div dirX len Hx Hlen).
    rewrite (zero_or_NaN_div dirY len Hy Hlen).
    rewrite (zero_or_NaN_div dirZ len Hz Hlen).
    rewrite !mul_NaN_r, !add_NaN_r. cbn. reflexivity.
Qed.

  (** C4, at the unit sphere and the point (1, 0, 0) of its surface:
      the point is contained, and the zero-length segment at the point is
      reported as not intersecting. *)
Theorem sphere_surface_point_segment_misses :
    let zone := ExclusionZone.mk "sphere"
                  (Params.mk (Fin 0) (Fin 0) (Fin 0) (Fin 1) NaN NaN NaN "") in
    let P := Point.mk (Fin 1) (Fin 0) (Fin 0) in
    contains zone P = true /\ intersectsLine zone P P = false.
Proof.
    intros zone P. unfold contains, intersectsLine.
    change (type zone) with "sphere"%string.
    cbn [String.eqb Ascii.eqb Bool.eqb]. split.
    - apply containsSphere_on_surface. lra.
    - apply intersectsLineSphere_zero_length.
Qed.
End Sphere.

(** ** Arithmetic on finite values *)

Section Finite.
Local Open Scope js_scope.

Lemma isFinite_Fin (a : num) : Js.isFinite a = true -> exists r, a = Fin r.
Proof. destruct a; try discriminate. eauto. Qed.

Lemma Rltb_true (a b : R) : (a < b)%R -> Rltb a b = true.
Proof. intros H. unfold Rltb. destruct (Rlt_dec a b); [reflexivity | lra]. Qed.

Lemma Rltb_false (a b : R) : (b <= a)%R -> Rltb a b = false.
Proof. intros H. unfold Rltb. destruct (Rlt_dec a b); [lra | reflexivity]. Qed.

Lemma Rleb_true (a b : R) : (a <= b)%R -> Rleb a b = true.
Proof. intros H. unfold Rleb. destruct (Rle_dec a b); [reflexivity | lra]. Qed.

Lemma Rleb_false (a b : R) : (b < a)%R -> Rleb a b = false.
Proof. intros H. unfold Rleb. destruct (Rle_dec a b); [lra | reflexivity]. Qed.

Lemma Reqb0_true (a b : R) : a = b -> Reqb0 a b = true.
Proof. intros H. unfold Reqb0. destruct (Req_dec_T a b); [reflexivity | lra]. Qed.

Lemma Reqb0_false (a b : R) : a <> b -> Reqb0 a b = false.
Proof.
  intros H. unfold Reqb0. destruct (Req_dec_T a b); [contradiction | reflexivity].
Qed.

Lemma sqrt_Fin (x : R) : (0 <= x)%R -> Math.sqrt (Fin x) = Fin (R_sqrt.sqrt x).
Proof. intros H. unfold Math.sqrt. destruct (Rlt_dec x 0); [lra | reflexivity]. Qed.

Lemma div_Fin (x y : R) : y <> 0%R -> Fin x / Fin y = Fin (x / y).
Proof.
  intros H. unfold Js.div. destruct (Req_dec_T y 0); [contradiction | reflexivity].
Qed.
End Finite.

Ltac rbool :=
  repeat first
    [ rewrite Rleb_true by lra | rewrite Rleb_false by lra
    | rewrite Rltb_true by lra | rewrite Rltb_false by lra
    | rewrite Reqb0_true by lra | rewrite Reqb0_false by lra ].

(** Evaluating arithmetic on given finite numbers. *)
Ltac js_cbn := cbn -[Js.div Math.sqrt Math.floor Rabs R_sqrt.sqrt Zfloor].

Ltac js_eval :=
  unfold n0, n1, n2, n3, n4, Particle.half, Particle.tenth;
  repeat (js_cbn;
          first
            [ rewrite div_Fin by lra
            | rewrite sqrt_Fin by lra
            | rewrite Rabs_pos_eq by lra
            | rewrite Rabs_left by lra
            | rewrite Rleb_true by lra | rewrite Rleb_false by lra
            | rewrite Rltb_true by lra | rewrite Rltb_false by lra
            | rewrite Reqb0_true by lra | rewrite Reqb0_false by lra ]);
  js_cbn.


(** ** Particle: bouncing off a sphere *)

Section Bounce.
Import Particle.
Local Open Scope js_scope.








End Bounce.

(** ** Particle: the boundary *)

Section Boundary.
Import Particle.
Local Open Scope js_scope.

Lemma scaled_draw_within (r b : R) :
  (0 <= r < 1)%R -> (0 < b)%R -> (Rabs ((r * 2 + - (1)) * b) <= b)%R.
Proof. intros Hr Hb. apply Rabs_le. nra. Qed.


Lemma axis_of_draw (r : R) :
  (0 <= r < 1)%R -> Zfloor (r * 3) = 0%Z \/ Zfloor (r * 3) = 1%Z \/ Zfloor (r * 3) = 2%Z.
Proof.
  intros Hr. pose proof (Zfloor_bound (r * 3)) as [Hlo Hhi].
  assert (H0 : (-1 < Zfloor (r * 3))%Z).
  { apply lt_IZR. lra. }
  assert (H3 : (Zfloor (r * 3) < 3)%Z).
  { apply lt_IZR. lra. }
  lia.
Qed.

Lemma valid_skip (k : nat) (g : Rng.t) : Rng.valid g -> Rng.valid (Rng.skip k g).
Proof. intros H n. apply H. Qed.






(** A bounce is not followed by the boundary check either: a particle
    within the bound that bounces off a sphere near the boundary ends
    the step outside the bound. *)
Lemma bounce_step_outside_bounds :
  let p := Sample.particle (399 / 4) 0 0 (- 4) 0 0 in
  let shape := Sample.zoned (Sample.sphereZone 96 0 0 (7 / 2)) in
  Bounds.within p (Config.BOUND Sample.config) = true
  /\ exists p',
       update p (Fin 0) Sample.config (Some shape) Sample.rng
       = (Some p', Sample.rng)
       /\ Bounds.within p' (Config.BOUND Sample.config) = false.
Proof.
  intros p shape. split.
  - unfold Bounds.within. js_eval. reflexivity.
  - eexists. split.
    + unfold update. cbn -[wouldEnterExclusionZone bounceOffExclusionZone].
      replace (wouldEnterExclusionZone _ _ _ _ _) with true; [reflexivity |].
      symmetry. unfold wouldEnterExclusionZone, ExclusionZone.contains,
        ExclusionZone.containsSphere.
      js_eval. reflexivity.
    + unfold bounceOffExclusionZone, bounceNormal, Bounds.within.
      cbn -[Js.div Math.sqrt Js.gt R_sqrt.sqrt Rabs].
      rewrite sqrt_Fin by lra.
      replace ((399 / 4 + - (96)) * (399 / 4 + - (96)) + (0 + - 0) * (0 + - 0)
               + (0 + - 0) * (0 + - 0))%R with ((15 / 4) * (15 / 4))%R by lra.
      rewrite sqrt_square by lra.
      js_eval. reflexivity.
Qed.
End Boundary.

(** ** Loops over the particle array *)

Section ForEach.

Lemma forEachFrom_other (f : Particle.t -> nat -> Particle.t)
    (particles : list oid) (k : nat) (h : Heap.t) (o : oid) :
  o ∉ particles -> Heap.forEachFrom k f particles h o = h o.
Proof.
  revert k h. induction particles as [| a rest IH]; intros k h Hnot.
  - reflexivity.
  - cbn. rewrite IH.
    + unfold Heap.set. destruct (Nat.eqb_spec o a) as [-> | _]; [| reflexivity].
      exfalso. apply Hnot. left.
    + intros Hin. apply Hnot. right. exact Hin.
Qed.

(** In an array without repetition the body is applied once to each
    particle, with the particle's index. *)
Lemma forEachFrom_lookup (f : Particle.t -> nat -> Particle.t)
    (particles : list oid) (k : nat) (h : Heap.t) (i : nat) (o : oid) :
  NoDup particles -> particles !! i = Some o ->
  Heap.forEachFrom k f particles h o = f (h o) (k + i)%nat.
Proof.
  revert k h i. induction particles as [| a rest IH]; intros k h i Hnd Hi.
  - discriminate.
  - apply NoDup_cons in Hnd as [Ha Hnd]. destruct i as [| i]; cbn in Hi.
    + injection Hi as ->. cbn. rewrite forEachFrom_other by exact Ha.
      unfold Heap.set. rewrite Nat.eqb_refl. f_equal. lia.
    + cbn. rewrite (IH (S k) _ i Hnd Hi).
      assert (o <> a).
      { intros ->. apply Ha. apply list_elem_of_lookup. eauto. }
      unfold Heap.set. destruct (Nat.eqb_spec o a); [contradiction |].
      f_equal. lia.
Qed.

End ForEach.

(** ** ShapeManager: the sphere *)

Section SphereShape.
Import ShapeManager.
Local Open Scope js_scope.

Lemma acos_argument (n i : nat) :
  (i < n)%nat -> (-1 <= 1 + - (2 * (INR i + 1 / 2) / INR n) <= 1)%R.
Proof.
  intros Hi.
  assert (Hn : (0 < INR n)%R) by (apply lt_0_INR; lia).
  assert (Hin : (INR i + 1 <= INR n)%R).
  { rewrite <- S_INR. apply le_INR. lia. }
  assert (H0 : (0 <= INR i)%R) by apply pos_INR.
  assert (Hq : (0 <= 2 * (INR i + 1 / 2) / INR n <= 2)%R).
  { split.
    - apply Rmult_le_pos; [lra |]. left. apply Rinv_0_lt_compat. exact Hn.
    - apply Rmult_le_reg_r with (INR n); [exact Hn |].
      unfold Rdiv. rewrite Rmult_assoc, Rinv_l by lra. lra. }
  lra.
Qed.

(** The target [createSphere] computes, on finite numbers. *)
Lemma sphereTarget_point (n i : nat) (r cx cy cz : R) :
  (i < n)%nat ->
  sphereTarget (Fin r) (Fin cx) (Fin cy) (Fin cz) (Fin (INR n)) (Fin (INR i))
  = let '(tx, ty, tz) := FibonacciSphere.point n i r cx cy cz in
    (Fin tx, Fin ty, Fin tz).
Proof.
  intros Hi.
  assert (Hn : INR n <> 0%R).
  { apply not_0_INR. lia. }
  pose proof (acos_argument n i Hi) as [Hlo Hhi].
  unfold sphereTarget, FibonacciSphere.point, FibonacciSphere.phi,
    FibonacciSphere.theta, golden, Particle.half, n0, n1, n2.
  cbn [Js.add Js.mul Js.sub Js.neg].
  rewrite !div_Fin by (try exact Hn; lra).
  cbn [Js.add Js.mul Js.sub Js.neg Math.PI].
  unfold Math.acos.
  destruct (Rle_dec (-1) _) as [_ | H]; [| lra].
  destruct (Rle_dec _ 1) as [_ | H]; [| lra].
  cbn [Math.sin Math.cos Js.add Js.mul].
  replace (1 + - (2 * (INR i + 1 / 2) / INR n))%R
    with (1 - 2 * (INR i + 0.5) / INR n)%R by lra.
  replace (Rtrigo1.PI * 2 * INR i * (1 / 1.618033988749895))%R
    with (2 * Rtrigo1.PI * INR i * (1 / 1.618033988749895))%R by ring.
  rewrite !Rmult_assoc. reflexivity.
Qed.

(** C8.  For n > 0 particles (an array without repetition) and every
    index i < n, [createSphere] gives the particle at index i the target
    centre + radius (sin phi cos theta, sin phi sin theta, cos phi) with
    phi = acos(1 - 2(i + 0.5)/n) and theta = 2 pi i (1/1.618033988749895),
    where radius and centre are the finite values the options resolve
    to; the particle is put in transition from where it is.  Arithmetic
    is exact, so the targets match the formula with no error at all. *)
Theorem sphere_targets_follow_formula (this : ShapeManager.t)
    (particles : list oid) (options : Options.t) (h : Heap.t) (g : Rng.t)
    (i : nat) (o : oid) (r cx cy cz : R) :
  NoDup particles ->
  particles !! i = Some o ->
  Js.or_default (Options.radius options) (Config.BOUND (config this) / n2) = Fin r ->
  Js.or_default (Options.centerX options) n0 = Fin cx ->
  Js.or_default (Options.centerY options) n0 = Fin cy ->
  Js.or_default (Options.centerZ options) n0 = Fin cz ->
  let h' := fst (fst (createSphere this particles options h g)) in
  let '(tx, ty, tz) := FibonacciSphere.point (length particles) i r cx cy cz in
  Particle.targetX (h' o) = Some (Fin tx)
  /\ Particle.targetY (h' o) = Some (Fin ty)
  /\ Particle.targetZ (h' o) = Some (Fin tz)
  /\ Particle.inTransition (h' o) = true
  /\ Particle.position (h' o) = Particle.position (h o).
Proof.
  intros Hnd Hi Hr Hx Hy Hz.
  assert (Hlt : (i < length particles)%nat).
  { apply lookup_lt_Some in Hi. exact Hi. }
  unfold createSphere, ret. cbn [fst]. rewrite Hr, Hx, Hy, Hz.
  unfold Heap.forEach. rewrite (forEachFrom_lookup _ _ 0 h i o Hnd Hi).
  cbn [Nat.add]. rewrite (sphereTarget_point _ _ r cx cy cz Hlt).
  destruct (FibonacciSphere.point (length particles) i r cx cy cz) as [[tx ty] tz].
  repeat split.
Qed.

Lemma sphere_targets_follow_formula_witness :
  Sample.matchesFormula 0%nat 0%nat /\ Sample.matchesFormula 1%nat 1%nat
  /\ Sample.matchesFormula 2%nat 2%nat /\ Sample.matchesFormula 3%nat 3%nat.
Proof.
  assert (Hnd : NoDup Sample.four).
  { unfold Sample.four.
    repeat (apply NoDup_cons_2; [rewrite ?elem_of_cons, elem_of_nil; lia |]).
    apply NoDup_nil_2. }
  assert (Hr : Js.or_default (Options.radius Sample.unitSphereOptions)
                 (Config.BOUND (config Sample.manager) / n2) = Fin 1).
  { cbn. rewrite Reqb0_false by lra. reflexivity. }
  split; [| split; [| split]].
  - apply (sphere_targets_follow_formula Sample.manager Sample.four
             Sample.unitSphereOptions Sample.restHeap Sample.rng 0%nat 0%nat 1 0 0 0
             Hnd eq_refl Hr eq_refl eq_refl eq_refl).
  - apply (sphere_targets_follow_formula Sample.manager Sample.four
             Sample.unitSphereOptions Sample.restHeap Sample.rng 1%nat 1%nat 1 0 0 0
             Hnd eq_refl Hr eq_refl eq_refl eq_refl).
  - apply (sphere_targets_follow_formula Sample.manager Sample.four
             Sample.unitSphereOptions Sample.restHeap Sample.rng 2%nat 2%nat 1 0 0 0
             Hnd eq_refl Hr eq_refl eq_refl eq_refl).
  - apply (sphere_targets_follow_formula Sample.manager Sample.four
             Sample.unitSphereOptions Sample.restHeap Sample.rng 3%nat 3%nat 1 0 0 0
             Hnd eq_refl Hr eq_refl eq_refl eq_refl).
Defined.

End SphereShape.

(** ** AnimationController: a transition ends once *)

Section TransitionEnds.
Import AnimationController.
Local Open Scope js_scope.








End TransitionEnds.

(** ** Particle3DMesh: an unknown shape name *)

Section UnknownShape.
Import Particle3DMesh.

Lemma createShape_unknown (sm : ShapeManager.t) (name : string)
    (particles : list oid) (options : ShapeManager.Options.t) (h : Heap.t)
    (g : Rng.t) :
  JsObject.get (ShapeManager.shapes sm) name = JsObject.Undefined ->
  ShapeManager.createShape sm name particles options h g
  = (Some (h, None, [ShapeManager.notFound name]), g).
Proof.
  intros H. unfold ShapeManager.createShape, ShapeManager.generator in *.
  rewrite H. reflexivity.
Qed.

(** C3, as amended.  With a shape name under which the registry holds
    nothing and inherits nothing ([this.shapes[name]] is [undefined]),
    both entry points report the failure on the console and leave every
    particle as it was, but the current shape does not stay:
    [setShape] makes it null; [transitionToShape] strips its exclusion
    zone, records a null target and starts a transition whose completion
    callback makes the current shape null. *)
Theorem unknown_shape_reported_current_shape_lost (m : Particle3DMesh.t)
    (name : string) (options : ShapeManager.Options.t) (w : World.t)
    (now duration : num) (easing : string) (callback : option string) :
  JsObject.get (ShapeManager.shapes (shapeManager m)) name = JsObject.Undefined ->
  exists m1 w1 m2 w2,
    setShape m name options w = Some (m1, w1)
    /\ transitionToShape m now name options duration easing callback w
       = Some (m2, w2)
    /\ (World.console w1 = World.console w ++ [ShapeManager.notFound name]
        /\ World.heap w1 = World.heap w
        /\ particles m1 = particles m
        /\ currentShape m1 = None)
    /\ (World.console w2 = World.console w ++ [ShapeManager.notFound name]
        /\ World.heap w2 = World.heap w
        /\ particles m2 = particles m
        /\ currentShape m2 = Strip.withoutZone (currentShape m)
        /\ targetShape m2 = None
        /\ AnimationController.isTransitioning (animationController m2) = true
        /\ forall w', currentShape
                        (fst (runCallback m2 w' (Callback.ShapeSwap callback)))
                      = None).
Proof.
  intros Hno.
  unfold setShape, transitionToShape.
  assert (E : forall m0,
             shapeManager m0 = shapeManager m ->
             particles m0 = particles m ->
             ShapeManager.createShape (shapeManager m0) name (particles m0)
               options (World.heap w) (World.rng w)
             = (Some (World.heap w, None, [ShapeManager.notFound name]),
                World.rng w)).
  { intros m0 -> ->. apply createShape_unknown. exact Hno. }
  rewrite (E m eq_refl eq_refl).
  destruct (currentShape m) as [shape |] eqn:Hc.
  - destruct (Shape.hasExclusionZone shape) eqn:Hz.
    + rewrite E by reflexivity. do 4 eexists.
      split; [reflexivity |]. split; [reflexivity |].
      cbn. rewrite Hz. repeat split. intros w'. destruct callback; reflexivity.
    + rewrite E by reflexivity. do 4 eexists.
      split; [reflexivity |]. split; [reflexivity |].
      cbn. rewrite Hz, Hc. repeat split. intros w'. destruct callback; reflexivity.
  - rewrite E by reflexivity. do 4 eexists.
    split; [reflexivity |]. split; [reflexivity |].
    cbn. rewrite Hc. repeat split. intros w'. destruct callback; reflexivity.
Qed.

Lemma unknown_shape_reported_current_shape_lost_witness :
  exists m1 w1 m2 w2,
    setShape Sample.mesh "bogus" ShapeManager.Options.empty Sample.world
    = Some (m1, w1)
    /\ transitionToShape Sample.mesh (Fin 0) "bogus" ShapeManager.Options.empty
         (Fin 1000) "easeInOut" None Sample.world
       = Some (m2, w2)
    /\ (World.console w1
        = World.console Sample.world ++ [ShapeManager.notFound "bogus"]
        /\ World.heap w1 = World.heap Sample.world
        /\ particles m1 = particles Sample.mesh
        /\ currentShape m1 = None)
    /\ (World.console w2
        = World.console Sample.world ++ [ShapeManager.notFound "bogus"]
        /\ World.heap w2 = World.heap Sample.world
        /\ particles m2 = particles Sample.mesh
        /\ currentShape m2 = Strip.withoutZone (currentShape Sample.mesh)
        /\ targetShape m2 = None
        /\ AnimationController.isTransitioning (animationController m2) = true
        /\ forall w', currentShape
                        (fst (runCallback m2 w' (Callback.ShapeSwap None)))
                      = None).
Proof.
  apply (unknown_shape_reported_current_shape_lost Sample.mesh "bogus"
           ShapeManager.Options.empty Sample.world (Fin 0) (Fin 1000)
           "easeInOut" None).
  reflexivity.
Defined.

(** C3 as stated fails: after [setShape] with an unknown name the
    previously active shape is no longer the current shape. *)
Lemma unknown_shape_drops_current_shape :
  currentShape Sample.mesh = Some (Sample.zoned (Sample.sphereZone 5 0 0 5))
  /\ JsObject.get (ShapeManager.shapes (shapeManager Sample.mesh)) "bogus"
     = JsObject.Undefined
  /\ exists m1 w1,
       setShape Sample.mesh "bogus" ShapeManager.Options.empty Sample.world
       = Some (m1, w1)
       /\ currentShape m1 = None.
Proof.
  split; [reflexivity |]. split; [reflexivity |].
  unfold setShape.
  rewrite (createShape_unknown (shapeManager Sample.mesh) "bogus") by reflexivity.
  do 2 eexists. split; reflexivity.
Qed.

End UnknownShape.

(** ** SpatialGrid: keys written and read back *)

Section KeyStrings.

Lemma split_free (sep : ascii) (s : string) :
  Keys.freeOf sep s = true -> JsString.split sep s = [s].
Proof.
  induction s as [| c rest IH]; intros H; [reflexivity |].
  cbn [JsString.split Keys.freeOf] in *. apply andb_true_iff in H as [Hc Hrest].
  apply negb_true_iff in Hc. rewrite Hc, (IH Hrest). reflexivity.
Qed.

Lemma split_app (sep : ascii) (a rest : string) :
  Keys.freeOf sep a = true ->
  JsString.split sep (String.append a (String sep rest))
  = a :: JsString.split sep rest.
Proof.
  induction a as [| c a IH]; intros H.
  - change (String.append "" (String sep rest)) with (String sep rest).
    cbn [JsString.split]. rewrite Ascii.eqb_refl. reflexivity.
  - change (String.append (String c a) (String sep rest))
      with (String c (String.append a (String sep rest))).
    cbn [JsString.split Keys.freeOf] in *.
    apply andb_true_iff in H as [Hc Ha].
    apply negb_true_iff in Hc. rewrite Hc, (IH Ha). reflexivity.
Qed.

Lemma uint_free (d : Decimal.uint) :
  Keys.freeOf "_" (NilEmpty.string_of_uint d) = true.
Proof. induction d; cbn; try rewrite IHd; reflexivity. Qed.

Lemma toString_free (c : num) : Keys.freeOf "_" (JsString.toString c) = true.
Proof.
  destruct c as [x | | |]; try reflexivity.
  unfold JsString.toString.
  destruct (Z.to_int (Zfloor x)) as [d | d]; cbn.
  - destruct d; try reflexivity; cbn; apply uint_free.
  - destruct d; try reflexivity; cbn; apply uint_free.
Qed.

Lemma to_int_proper (k : Z) :
  Z.to_int k <> Decimal.Pos Decimal.Nil /\ Z.to_int k <> Decimal.Neg Decimal.Nil.
Proof.
  destruct k as [| p | p]; cbn; split; try discriminate;
    intros E; injection E as E; exact (Unsigned.to_uint_nonnil p E).
Qed.

Lemma Number_toString (c : num) :
  Keys.integral c -> JsString.Number (JsString.toString c) = c.
Proof.
  destruct c as [x | | |]; try reflexivity.
  intros [k ->]. unfold JsString.toString. rewrite ZfloorZ.
  destruct (to_int_proper k) as [Hp Hn].
  pose proof (NilZero.isi (Z.to_int k) Hp Hn) as Hisi.
  unfold JsString.Number.
  destruct (String.eqb_spec (NilZero.string_of_int (Z.to_int k)) "") as [E | _].
  { rewrite E in Hisi. discriminate. }
  destruct (String.eqb_spec (NilZero.string_of_int (Z.to_int k)) "Infinity") as [E | _].
  { rewrite E in Hisi. discriminate. }
  destruct (String.eqb_spec (NilZero.string_of_int (Z.to_int k)) "-Infinity") as [E | _].
  { rewrite E in Hisi. discriminate. }
  rewrite Hisi, DecimalZ.of_to. reflexivity.
Qed.

Lemma key3_parts (a b c : num) :
  JsString.split "_" (JsString.key3 a b c)
  = [JsString.toString a; JsString.toString b; JsString.toString c].
Proof.
  unfold JsString.key3.
  rewrite split_app by apply toString_free.
  rewrite split_app by apply toString_free.
  rewrite split_free by apply toString_free. reflexivity.
Qed.

End KeyStrings.

(** ** SpatialGrid: buckets and neighbourhoods *)

Section GridIndex.
Import SpatialGrid.
Local Open Scope js_scope.

Lemma floor_integral (v : num) : Keys.integral (Math.floor v).
Proof. destruct v; cbn; eauto. Qed.

Lemma getNeighborKeys_key3 (a b c : num) :
  Keys.integral a -> Keys.integral b -> Keys.integral c ->
  getNeighborKeys (JsString.key3 a b c)
  = flat_map (fun dx =>
      flat_map (fun dy =>
        map (fun dz => JsString.key3 (a + dx) (b + dy) (c + dz)) offsets)
        offsets)
      offsets.
Proof.
  intros Ha Hb Hc. unfold getNeighborKeys.
  rewrite key3_parts. cbn [map nth].
  rewrite !Number_toString by assumption. reflexivity.
Qed.

Lemma neighbour_key (a b c dx dy dz : num) :
  Keys.integral a -> Keys.integral b -> Keys.integral c ->
  In dx offsets -> In dy offsets -> In dz offsets ->
  In (JsString.key3 (a + dx) (b + dy) (c + dz))
     (getNeighborKeys (JsString.key3 a b c)).
Proof.
  intros Ha Hb Hc Hx Hy Hz. rewrite getNeighborKeys_key3 by assumption.
  apply in_flat_map. exists dx. split; [exact Hx |].
  apply in_flat_map. exists dy. split; [exact Hy |].
  apply in_map_iff. exists dz. split; [reflexivity | exact Hz].
Qed.

Lemma neighbourhood_of_bucket (g : t) (cellKey key : string) (b : list oid) (q : oid) :
  In key (getNeighborKeys cellKey) -> grid g !! key = Some b -> In q b ->
  In q (getParticlesInNeighborhood g cellKey).
Proof.
  intros Hk Hb Hq. unfold getParticlesInNeighborhood.
  apply in_flat_map. exists key. split; [exact Hk |]. rewrite Hb. exact Hq.
Qed.

Lemma addParticle_params (g : t) (h : Heap.t) (p : oid) :
  cellSize (addParticle g h p) = cellSize g /\ bound (addParticle g h p) = bound g.
Proof. split; reflexivity. Qed.

Lemma keyOf_params (g g' : t) (h : Heap.t) (p : oid) :
  cellSize g' = cellSize g -> bound g' = bound g -> Grid.keyOf g' h p = Grid.keyOf g h p.
Proof.
  intros Hc Hb. unfold Grid.keyOf, getCellKey. rewrite Hc, Hb. reflexivity.
Qed.

Lemma cell_addParticle (g : t) (h : Heap.t) (a : oid) (k : string) :
  Grid.bucket (addParticle g h a) k
  = Grid.bucket g k ++ (if decide (Grid.keyOf g h a = k) then [a] else []).
Proof.
  unfold Grid.bucket, addParticle. cbn [grid].
  fold (Grid.keyOf g h a).
  destruct (decide (Grid.keyOf g h a = k)) as [<- | Hne].
  - rewrite lookup_insert_eq. reflexivity.
  - rewrite lookup_insert_ne by exact Hne. rewrite app_nil_r. reflexivity.
Qed.

Lemma cell_fold (g0 g : t) (h : Heap.t) (ps : list oid) (k : string) :
  cellSize g = cellSize g0 -> bound g = bound g0 ->
  Grid.bucket (fold_left (fun g p => addParticle g h p) ps g) k
  = Grid.bucket g k ++ filter (fun p => Grid.keyOf g0 h p = k) ps.
Proof.
  revert g. induction ps as [| a rest IH]; intros g Hc Hb.
  - cbn. rewrite app_nil_r. reflexivity.
  - cbn [fold_left]. rewrite IH by (cbn; assumption).
    rewrite cell_addParticle, (keyOf_params g0 g h a Hc Hb).
    rewrite filter_cons. rewrite <- app_assoc.
    destruct (decide (Grid.keyOf g0 h a = k)); reflexivity.
Qed.

(** After [addParticles] the bucket of a cell holds the particles of
    that cell, in array order. *)
Lemma cell_addParticles (g0 : t) (h : Heap.t) (ps : list oid) (k : string) :
  Grid.bucket (addParticles g0 h ps) k
  = filter (fun p => Grid.keyOf g0 h p = k) ps.
Proof.
  unfold addParticles. rewrite (cell_fold g0 (clear g0)) by reflexivity.
  unfold Grid.bucket, clear. cbn. rewrite lookup_empty. reflexivity.
Qed.

End GridIndex.

(** ** SpatialGrid: close particles are neighbours *)

Section GridComplete.
Import SpatialGrid.
Local Open Scope js_scope.

Lemma lt_true_left (a b : num) :
  (a <? b) = true -> a = NInf \/ exists r, a = Fin r.
Proof. destruct a, b; cbn; intros H; try discriminate; eauto. Qed.

Lemma sqrt_Fin_inv (u : num) (r : R) :
  Math.sqrt u = Fin r -> exists s, u = Fin s /\ (0 <= s)%R /\ r = R_sqrt.sqrt s.
Proof.
  destruct u as [s | | |]; cbn; try discriminate.
  destruct (Rlt_dec s 0); [discriminate |]. intros [= <-].
  exists s. repeat split. lra.
Qed.

Lemma sqrt_not_NInf (u : num) : Math.sqrt u <> NInf.
Proof. destruct u; cbn; try discriminate. destruct (Rlt_dec r 0); discriminate. Qed.

Lemma add_Fin_inv (a b : num) (r : R) :
  a + b = Fin r -> exists x y, a = Fin x /\ b = Fin y /\ r = (x + y)%R.
Proof. destruct a, b; cbn; try discriminate. intros [= <-]. eauto. Qed.

Lemma sub_Fin_inv (a b : num) (r : R) :
  a - b = Fin r -> exists x y, a = Fin x /\ b = Fin y /\ r = (x + - y)%R.
Proof. destruct a, b; cbn; try discriminate. intros [= <-]. eauto. Qed.

Lemma square_Fin_inv (a : num) (r : R) :
  a * a = Fin r -> exists x, a = Fin x /\ r = (x * x)%R.
Proof. destruct a; cbn; try discriminate. intros [= <-]. eauto. Qed.


Lemma near_sym (thr : num) (a b : R) : Grid.near thr a b -> Grid.near thr b a.
Proof.
  intros [-> | (t & -> & H)]; [left; reflexivity | right].
  exists t. split; [reflexivity |]. rewrite Rabs_minus_sym. exact H.
Qed.

Lemma axis_below_norm (dx dy dz t : R) :
  (R_sqrt.sqrt (dx * dx + dy * dy + dz * dz) < t)%R -> (Rabs dx < t)%R.
Proof.
  intros H. set (S := (dx * dx + dy * dy + dz * dz)%R) in *.
  assert (HS : (0 <= S)%R) by (unfold S; nra).
  pose proof (sqrt_pos S) as H0. pose proof (sqrt_sqrt S HS) as Hsq.
  apply Rabs_def1; unfold S in *; nra.
Qed.

(** Particles closer than the threshold have finite coordinates, close
    on every axis. *)
Lemma distance_near (h : Heap.t) (p q : oid) (thr : num) :
  (Grid.distance h p q <? thr) = true ->
  exists px py pz qx qy qz,
    Particle.x (h p) = Fin px /\ Particle.y (h p) = Fin py
    /\ Particle.z (h p) = Fin pz /\ Particle.x (h q) = Fin qx
    /\ Particle.y (h q) = Fin qy /\ Particle.z (h q) = Fin qz
    /\ Grid.near thr px qx /\ Grid.near thr py qy /\ Grid.near thr pz qz.
Proof.
  intros H. unfold Grid.distance in H.
  destruct (lt_true_left _ _ H) as [E | [r E]].
  { exfalso. exact (sqrt_not_NInf _ E). }
  rewrite E in H.
  apply sqrt_Fin_inv in E as (s & E & Hs & ->).
  apply add_Fin_inv in E as (sxy & sz & E & Ez & ->).
  apply add_Fin_inv in E as (sx & sy & Ex & Ey & ->).
  apply square_Fin_inv in Ex as (dx & Ex & ->).
  apply square_Fin_inv in Ey as (dy & Ey & ->).
  apply square_Fin_inv in Ez as (dz & Ez & ->).
  apply sub_Fin_inv in Ex as (px & qx & Hpx & Hqx & ->).
  apply sub_Fin_inv in Ey as (py & qy & Hpy & Hqy & ->).
  apply sub_Fin_inv in Ez as (pz & qz & Hpz & Hqz & ->).
  exists px, py, pz, qx, qy, qz. repeat (split; [assumption |]).
  destruct thr as [t | | |]; cbn in H; try discriminate.
  - unfold Rltb in H. destruct (Rlt_dec _ t) as [Ht | _]; [| discriminate].
    repeat split; right; exists t; (split; [reflexivity |]).
    + apply (axis_below_norm _ (py + - qy) (pz + - qz)).
      replace (px - qx)%R with (px + - qx)%R by lra. exact Ht.
    + apply (axis_below_norm _ (px + - qx) (pz + - qz)).
      replace (py - qy)%R with (py + - qy)%R by lra.
      replace ((py + - qy) * (py + - qy) + (px + - qx) * (px + - qx)
               + (pz + - qz) * (pz + - qz))%R
        with ((px + - qx) * (px + - qx) + (py + - qy) * (py + - qy)
              + (pz + - qz) * (pz + - qz))%R by ring.
      exact Ht.
    + apply (axis_below_norm _ (px + - qx) (py + - qy)).
      replace (pz - qz)%R with (pz + - qz)%R by lra.
      replace ((pz + - qz) * (pz + - qz) + (px + - qx) * (px + - qx)
               + (py + - qy) * (py + - qy))%R
        with ((px + - qx) * (px + - qx) + (py + - qy) * (py + - qy)
              + (pz + - qz) * (pz + - qz))%R by ring.
      exact Ht.
  - repeat split; left; reflexivity.
Qed.

Lemma floor_adjacent (a b : R) :
  (Rabs (a - b) < 1)%R ->
  (Zfloor b = Zfloor a - 1 \/ Zfloor b = Zfloor a \/ Zfloor b = Zfloor a + 1)%Z.
Proof.
  intros H. apply Rabs_def2 in H as [H1 H2].
  pose proof (Zfloor_bound a) as [La Ua]. pose proof (Zfloor_bound b) as [Lb Ub].
  assert (A : (Zfloor b < Zfloor a + 2)%Z).
  { apply lt_IZR. rewrite plus_IZR. lra. }
  assert (B : (Zfloor a < Zfloor b + 2)%Z).
  { apply lt_IZR. rewrite plus_IZR. lra. }
  lia.
Qed.

(** On one axis: the cells of two close coordinates differ by one of
    the offsets -1, 0, 1, whatever the bound is, when the threshold is at
    most the cell size. *)
Lemma cell_adjacent (g : t) (thr : num) (a b : R) :
  (thr <=? cellSize g) = true -> Grid.near thr a b ->
  exists d, In d offsets /\ Grid.cellOf g (Fin b) = Grid.cellOf g (Fin a) + d.
Proof.
  intros Hle Hnear. unfold Grid.cellOf.
  destruct (cellSize g) as [c | | |] eqn:Ec.
  - destruct Hnear as [-> | (t & -> & Ht)]; [discriminate |].
    cbn in Hle. unfold Rleb in Hle.
    destruct (Rle_dec t c) as [Htc | _]; [| discriminate].
    assert (Hc : (0 < c)%R) by (pose proof (Rabs_pos (a - b)); lra).
    destruct (bound g) as [bd | | |].
    + cbn [Js.add]. rewrite !div_Fin by lra. cbn [Math.floor].
      assert (Hq : (Rabs ((a + bd) / c - (b + bd) / c) < 1)%R).
      { replace ((a + bd) / c - (b + bd) / c)%R with ((a - b) / c)%R
          by (field; lra).
        unfold Rdiv. rewrite Rabs_mult, (Rabs_pos_eq (/ c)).
        - apply Rmult_lt_reg_r with c; [exact Hc |].
          rewrite Rmult_assoc, Rinv_l by lra. lra.
        - left. apply Rinv_0_lt_compat. exact Hc. }
      destruct (floor_adjacent _ _ Hq) as [E | [E | E]]; rewrite E.
      * exists (Fin (-1)). split; [left; reflexivity |].
        cbn. apply Fin_eq. rewrite minus_IZR. lra.
      * exists (Fin 0). split; [right; left; reflexivity |].
        cbn. apply Fin_eq. lra.
      * exists (Fin 1). split; [right; right; left; reflexivity |].
        cbn. apply Fin_eq. rewrite plus_IZR. lra.
    + exists (Fin 0). split; [right; left; reflexivity |].
      cbn. destruct (Rlt_dec c 0); reflexivity.
    + exists (Fin 0). split; [right; left; reflexivity |].
      cbn. destruct (Rlt_dec c 0); reflexivity.
    + exists (Fin 0). split; [right; left; reflexivity |]. reflexivity.
  - exists (Fin 0). split; [right; left; reflexivity |].
    destruct (bound g); cbn; try reflexivity. apply Fin_eq. lra.
  - destruct Hnear as [-> | (t & -> & Ht)]; discriminate.
  - destruct thr; discriminate.
Qed.

Lemma addParticles_params (g0 : t) (h : Heap.t) (ps : list oid) :
  cellSize (addParticles g0 h ps) = cellSize g0
  /\ bound (addParticles g0 h ps) = bound g0.
Proof.
  unfold addParticles.
  assert (G : forall g, cellSize (fold_left (fun g p => addParticle g h p) ps g)
                        = cellSize g
                        /\ bound (fold_left (fun g p => addParticle g h p) ps g)
                           = bound g).
  { induction ps as [| a rest IH]; intros g; [split; reflexivity |].
    cbn [fold_left]. destruct (IH (addParticle g h a)) as [-> ->].
    split; reflexivity. }
  apply (G (clear g0)).
Qed.

(** One direction of the completeness of the grid. *)
Lemma neighbour_found (g0 : t) (h : Heap.t) (ps : list oid) (p q : oid)
    (thr : num) (px py pz qx qy qz : R) :
  Particle.x (h p) = Fin px -> Particle.y (h p) = Fin py ->
  Particle.z (h p) = Fin pz -> Particle.x (h q) = Fin qx ->
  Particle.y (h q) = Fin qy -> Particle.z (h q) = Fin qz ->
  Grid.near thr px qx -> Grid.near thr py qy -> Grid.near thr pz qz ->
  (thr <=? cellSize g0) = true ->
  In q ps ->
  let g := addParticles g0 h ps in
  In q (getParticlesInNeighborhood g
          (getCellKey g (Particle.x (h p)) (Particle.y (h p)) (Particle.z (h p)))).
Proof.
  intros Hpx Hpy Hpz Hqx Hqy Hqz Nx Ny Nz Hle Hq g.
  destruct (addParticles_params g0 h ps) as [Hc Hb].
  destruct (cell_adjacent g0 thr px qx Hle Nx) as (dx & Hdx & Ex).
  destruct (cell_adjacent g0 thr py qy Hle Ny) as (dy & Hdy & Ey).
  destruct (cell_adjacent g0 thr pz qz Hle Nz) as (dz & Hdz & Ez).
  assert (Hkey : Grid.keyOf g0 h q
                 = JsString.key3 (Grid.cellOf g0 (Fin px) + dx)
                     (Grid.cellOf g0 (Fin py) + dy) (Grid.cellOf g0 (Fin pz) + dz)).
  { unfold Grid.keyOf, getCellKey. rewrite Hqx, Hqy, Hqz.
    fold (Grid.cellOf g0 (Fin qx)). fold (Grid.cellOf g0 (Fin qy)).
    fold (Grid.cellOf g0 (Fin qz)). rewrite Ex, Ey, Ez. reflexivity. }
  assert (Hcell : getCellKey g (Particle.x (h p)) (Particle.y (h p))
                    (Particle.z (h p))
                  = JsString.key3 (Grid.cellOf g0 (Fin px))
                      (Grid.cellOf g0 (Fin py)) (Grid.cellOf g0 (Fin pz))).
  { unfold getCellKey, g. rewrite Hc, Hb, Hpx, Hpy, Hpz. reflexivity. }
  rewrite Hcell.
  pose proof (cell_addParticles g0 h ps (Grid.keyOf g0 h q)) as Hbucket.
  unfold Grid.bucket in Hbucket. fold g in Hbucket.
  unfold getParticlesInNeighborhood. apply in_flat_map.
  exists (Grid.keyOf g0 h q). split.
  - rewrite Hkey. apply neighbour_key; try assumption; apply floor_integral.
  - rewrite Hbucket. apply list_elem_of_In. apply list_elem_of_filter.
    split; [reflexivity | apply list_elem_of_In; exact Hq].
Qed.

(** Where the sum and the quotient of the cell index are exact, the
    27 cells suffice: among the particles indexed by [addParticles], two
    particles whose distance is below a threshold that is at most the
    cell size are each in the list [getParticlesInNeighborhood] returns
    for the cell key of the other.  This is the grid without rounding;
    the program rounds. *)
Lemma neighbourhood_complete_without_rounding (g0 : t) (h : Heap.t) (ps : list oid)
    (p q : oid) (threshold : num) :
  In p ps -> In q ps ->
  (Grid.distance h p q <? threshold) = true ->
  (threshold <=? cellSize g0) = true ->
  let g := addParticles g0 h ps in
  In q (getParticlesInNeighborhood g
          (getCellKey g (Particle.x (h p)) (Particle.y (h p)) (Particle.z (h p))))
  /\ In p (getParticlesInNeighborhood g
             (getCellKey g (Particle.x (h q)) (Particle.y (h q)) (Particle.z (h q)))).
Proof.
  intros Hp Hq Hd Hle g.
  destruct (distance_near h p q threshold Hd)
    as (px & py & pz & qx & qy & qz & Hpx & Hpy & Hpz & Hqx & Hqy & Hqz
        & Nx & Ny & Nz).
  split.
  - apply (neighbour_found g0 h ps p q threshold px py pz qx qy qz);
      assumption.
  - apply (neighbour_found g0 h ps q p threshold qx qy qz px py pz);
      try assumption; apply near_sym; assumption.
Qed.
End GridComplete.

(** ** SpatialGrid on doubles: a near pair in cells two apart *)

Section RoundedGrid.
Import PrimFloat.
Import Binary64 Binary64.SpatialGrid.
Local Open Scope float_scope.

(** C1.  The claim fails in the program's arithmetic.  On the grid of
    bound 1 and cell size 0.1, with threshold 0.1, the particles at
    (0.2, 0, 0) and (0.3, 0, 0) are at distance 0.09999999999999998,
    below the threshold, and the threshold is at most the cell size; but
    (0.2 + 1) / 0.1 is 11.999999999999998 and (0.3 + 1) / 0.1 is 13, so
    the cells are 11 and 13 along x, and the neighbourhood of each
    particle's cell key holds that particle alone. *)
Theorem rounded_cell_index_hides_a_near_pair :
  exists grid,
    addParticles Scenario.grid Scenario.store Scenario.pair = Some grid
    /\ ltb (distance Scenario.store 0%nat 1%nat) Scenario.d01 = true
    /\ leb Scenario.d01 (cellSize grid) = true
    /\ getCellKey grid Scenario.d02 0 0 = Some "11_10_10"%string
    /\ getCellKey grid Scenario.d03 0 0 = Some "13_10_10"%string
    /\ getParticlesInNeighborhood grid "11_10_10" = Some [0%nat]
    /\ getParticlesInNeighborhood grid "13_10_10" = Some [1%nat].
Proof.
  eexists. split; [vm_compute; reflexivity |].
  repeat split; vm_compute; reflexivity.
Qed.

End RoundedGrid.

(** ** SpatialGrid: a cell size that is NaN *)

Section Degenerate.
Import SpatialGrid.
Local Open Scope js_scope.

Lemma getCellKey_NaN (g : t) (x y z : num) :
  cellSize g = NaN -> getCellKey g x y z = Keys.nanKey.
Proof.
  intros H. unfold getCellKey. rewrite H, !div_NaN_r. reflexivity.
Qed.

Lemma getNeighborKeys_NaN : getNeighborKeys Keys.nanKey = repeat Keys.nanKey 27.
Proof. reflexivity. Qed.

Lemma filter_all {A} (P : A -> Prop) `{forall a, Decision (P a)} (l : list A) :
  (forall a, P a) -> filter P l = l.
Proof.
  intros HP. induction l as [| a l IH]; [reflexivity |].
  rewrite filter_cons. destruct (decide (P a)) as [_ | N]; [| destruct (N (HP a))].
  rewrite IH. reflexivity.
Qed.

(** With a cell size that is NaN every particle is in the one cell
    "NaN_NaN_NaN", whose 27 neighbour keys are all that same key: the
    neighbourhood of any position lists the whole array 27 times. *)
Lemma neighbourhood_NaN (g0 : t) (h : Heap.t) (ps : list oid) (x y z : num) :
  cellSize g0 = NaN ->
  let g := addParticles g0 h ps in
  getParticlesInNeighborhood g (getCellKey g x y z)
  = concat (repeat ps 27).
Proof.
  intros H g.
  assert (Hg : cellSize g = NaN).
  { unfold g. destruct (addParticles_params g0 h ps) as [-> _]. exact H. }
  rewrite (getCellKey_NaN g x y z Hg).
  unfold getParticlesInNeighborhood. rewrite getNeighborKeys_NaN.
  pose proof (cell_addParticles g0 h ps Keys.nanKey) as Hb.
  unfold Grid.bucket in Hb. fold g in Hb.
  rewrite filter_all in Hb
    by (intros a; apply getCellKey_NaN; exact H).
  cbn [repeat flat_map]. rewrite Hb. cbn [concat]. reflexivity.
Qed.
End Degenerate.

(** ** Particle3DMesh: connections over a degenerate grid *)

Section Dup.
Import Particle3DMesh.
Local Open Scope js_scope.

Lemma updateTransition_idle (ac : AnimationController.t) (now : num)
    (ps : list oid) (h : Heap.t) :
  AnimationController.isTransitioning ac = false ->
  AnimationController.updateTransition ac now ps h = Some (ac, h, [], false).
Proof.
  intros H. unfold AnimationController.updateTransition. rewrite H. reflexivity.
Qed.

Lemma rest_update (x y z : R) (g : Rng.t) :
  (Rabs x <= 100)%R -> (Rabs y <= 100)%R -> (Rabs z <= 100)%R ->
  Particle.update (Sample.particle x y z 0 0 0) (Fin 0 * Fin 0.98) Sample.defaults None g
  = (Some (Particle.set_pos (Sample.particle x y z 0 0 0)
             (Fin (x + 0)) (Fin (y + 0 + 0 * 0.98)) (Fin (z + 0))), g).
Proof.
  intros Hx Hy Hz. unfold Particle.update. cbn [Sample.particle Particle.inTransition].
  cbn iota. unfold bind, ret, Particle.checkBounds.
  cbn -[Rabs]. 
  replace (x + 0)%R with x by lra. replace (y + 0 + 0 * 0.98)%R with y by lra.
  replace (z + 0)%R with z by lra.
  rewrite !Rltb_false by assumption. cbn. reflexivity.
Qed.

Lemma flat_map_concat_repeat {A B} (f : A -> list B) (l : list A) (n : nat) :
  flat_map f (concat (repeat l n)) = concat (repeat (flat_map f l) n).
Proof.
  induction n as [| n IH]; [reflexivity |].
  cbn [repeat concat]. rewrite flat_map_app, IH. reflexivity.
Qed.

(** C10, on the configuration without GRID_CELL_SIZE and two particles
    at distance 10 with connection distance 20: the frame emits the
    pair (0, 1) twenty-seven times. *)
Theorem degenerate_grid_duplicates_connections :
  exists m' w',
    animate Sample.plainMesh (Fin 0) (fun _ => true) Sample.pairWorld
    = Some (m', w', repeat (0%nat, 1%nat) 27).
Proof.
  unfold animate.
  rewrite updateTransition_idle by reflexivity.
  cbn [fold_left fst snd].
  unfold updateParticles.
  cbn [particles updateVelocities set_velocities set_animationController
       Sample.plainMesh Sample.pair config globalVelocityY currentShape World.heap
       World.rng World.set_heap Sample.pairWorld Heap.forEachM velocityDecay].
  unfold bind at 1.
  change (Sample.scenarioHeap 0%nat) with (Sample.particle 0 0 0 0 0 0).
  rewrite rest_update by (rewrite Rabs_R0; lra).
  cbn iota. unfold bind at 1.
  change (Heap.set Sample.scenarioHeap 0%nat
            (Particle.set_pos (Sample.particle 0 0 0 0 0 0)
               (Fin (0 + 0)) (Fin (0 + 0 + 0 * 0.98)) (Fin (0 + 0))) 1%nat)
    with (Sample.particle 10 0 0 0 0 0).
  rewrite rest_update
    by (rewrite ?Rabs_R0; rewrite ?(Rabs_pos_eq 10) by lra; lra).
  cbn iota. unfold ret.
  set (h2 := Heap.set _ 1%nat _).
  cbn [World.set_rng World.set_heap World.heap World.fresh World.console
       World.invoked Sample.pairWorld].
  eexists. eexists.
  replace (Config.USE_WEBGL _) with true by reflexivity.
  f_equal. f_equal.
  unfold connections.
  replace (Config.USE_WEBGL _) with true by reflexivity.
  cbn [orb].
  replace (particles _) with Sample.pair by reflexivity.
  unfold Sample.pair. cbn [flat_map]. rewrite app_nil_r.
  unfold pairsOf.
  replace (spatialGrid _)
    with (SpatialGrid.addParticles (SpatialGrid.constructor NaN (Fin 100)) h2
            Sample.pair) by reflexivity.
  rewrite !neighbourhood_NaN by reflexivity.
  rewrite !flat_map_concat_repeat.
  replace (particles _) with Sample.pair by reflexivity.
  replace (Config.CONNECTION_DISTANCE _) with (Fin 20) by reflexivity.
  replace (currentShape _) with (@None Shape.t) by reflexivity.
  unfold Sample.pair. cbn [flat_map indexOf indexOfFrom Nat.eqb orb].
  cbn [Z.gtb Z.compare Z.add Pos.compare Pos.compare_cont].
  cbn [app].
  assert (Hd : (Math.sqrt
                  ((Particle.x (h2 0%nat) - Particle.x (h2 1%nat))
                   * (Particle.x (h2 0%nat) - Particle.x (h2 1%nat))
                   + (Particle.y (h2 0%nat) - Particle.y (h2 1%nat))
                     * (Particle.y (h2 0%nat) - Particle.y (h2 1%nat))
                   + (Particle.z (h2 0%nat) - Particle.z (h2 1%nat))
                     * (Particle.z (h2 0%nat) - Particle.z (h2 1%nat)))
                <? Fin 20) = true).
  { unfold h2. cbn -[Math.sqrt]. rewrite sqrt_Fin by nra.
    cbn. apply Rltb_true.
    match goal with |- (R_sqrt.sqrt ?e < _)%R =>
      replace e with (10 * 10)%R by lra end.
    rewrite sqrt_square; lra. }
  rewrite Hd. reflexivity.
Qed.
End Dup.

(** ** SpatialGrid: different cells have different keys *)

Section KeysInjective.
Import SpatialGrid.
Local Open Scope js_scope.

Lemma key3_inj (a b c a' b' c' : num) :
  Keys.integral a -> Keys.integral b -> Keys.integral c ->
  Keys.integral a' -> Keys.integral b' -> Keys.integral c' ->
  JsString.key3 a b c = JsString.key3 a' b' c' -> a = a' /\ b = b' /\ c = c'.
Proof.
  intros Ha Hb Hc Ha' Hb' Hc' E.
  apply (f_equal (JsString.split "_")) in E. rewrite !key3_parts in E.
  injection E as Ea Eb Ec.
  apply (f_equal JsString.Number) in Ea, Eb, Ec.
  rewrite !Number_toString in Ea, Eb, Ec by assumption. auto.
Qed.

Lemma NoDup_flat_map {A B} (f : A -> list B) (l : list A) :
  NoDup l -> (forall a, In a l -> NoDup (f a)) ->
  (forall a a' x, In a l -> In a' l -> In x (f a) -> In x (f a') -> a = a') ->
  NoDup (flat_map f l).
Proof.
  induction l as [| a l IH]; intros Hnd Hf Hdis; cbn; [constructor |].
  apply NoDup_cons in Hnd as [Ha Hnd].
  apply NoDup_app. split; [apply Hf; left; reflexivity |]. split.
  - intros x Hx Hx'. apply list_elem_of_In in Hx, Hx'.
    apply in_flat_map in Hx' as (a' & Ha' & Hx').
    assert (a = a') by (apply (Hdis a a' x); auto; [left | right]; auto).
    subst a'. apply Ha. apply list_elem_of_In. exact Ha'.
  - apply IH; [exact Hnd | |].
    + intros a0 H0. apply Hf. right. exact H0.
    + intros a0 a' x H0 H0'. apply Hdis; right; assumption.
Qed.

Lemma offset_integral (k : Z) (d : num) :
  In d offsets -> Keys.integral (Fin (IZR k) + d).
Proof.
  intros [<- | [<- | [<- | []]]]; cbn.
  - exists (k - 1)%Z. rewrite minus_IZR. lra.
  - exists k. lra.
  - exists (k + 1)%Z. rewrite plus_IZR. lra.
Qed.

Lemma offset_cancel (k : Z) (d d' : num) :
  In d offsets -> In d' offsets -> Fin (IZR k) + d = Fin (IZR k) + d' -> d = d'.
Proof.
  intros [<- | [<- | [<- | []]]] [<- | [<- | [<- | []]]]; cbn;
    intros E; try reflexivity; injection E as E; exfalso; lra.
Qed.

Lemma NoDup_offsets : NoDup offsets.
Proof.
  unfold offsets.
  repeat (apply NoDup_cons_2;
          [rewrite ?elem_of_cons, elem_of_nil;
           intros H; repeat destruct H as [H | H]; try injection H as H; lra |]).
  apply NoDup_nil_2.
Qed.

(** The 27 neighbour keys of a cell with finite coordinates are
    pairwise different. *)
Lemma NoDup_getNeighborKeys (ka kb kc : Z) :
  NoDup (getNeighborKeys
           (JsString.key3 (Fin (IZR ka)) (Fin (IZR kb)) (Fin (IZR kc)))).
Proof.
  rewrite getNeighborKeys_key3 by (cbn; eauto).
  apply NoDup_flat_map; [exact NoDup_offsets | |].
  - intros dx Hdx. apply NoDup_flat_map; [exact NoDup_offsets | |].
    + intros dy Hdy. apply NoDup_fmap_2_strong; [| exact NoDup_offsets].
      intros dz dz' Hz Hz' E. apply list_elem_of_In in Hz, Hz'.
      apply key3_inj in E as (_ & _ & E);
        try (apply offset_integral; assumption).
      exact (offset_cancel kc dz dz' Hz Hz' E).
    + intros dy dy' x Hdy Hdy' Hx Hx'.
      apply in_map_iff in Hx as (dz & <- & Hz), Hx' as (dz' & E & Hz').
      apply key3_inj in E as (_ & E & _);
        try (apply offset_integral; assumption).
      symmetry. exact (offset_cancel kb dy' dy Hdy' Hdy E).
  - intros dx dx' x Hdx Hdx' Hx Hx'.
    apply in_flat_map in Hx as (dy & Hdy & Hx), Hx' as (dy' & Hdy' & Hx').
    apply in_map_iff in Hx as (dz & <- & Hz), Hx' as (dz' & E & Hz').
    apply key3_inj in E as (E & _ & _);
      try (apply offset_integral; assumption).
    symmetry. exact (offset_cancel ka dx' dx Hdx' Hdx E).
Qed.

End KeysInjective.

(** ** Particle3DMesh: connections on a proper grid *)

Section NoDuplicates.
Import SpatialGrid Particle3DMesh.
Local Open Scope js_scope.

Lemma neighbourhood_cells (g : SpatialGrid.t) (cellKey : string) :
  getParticlesInNeighborhood g cellKey
  = flat_map (Grid.bucket g) (getNeighborKeys cellKey).
Proof. reflexivity. Qed.

(** Only particles of the indexed array come back from a query. *)
Lemma neighbourhood_subset (g0 : SpatialGrid.t) (h : Heap.t) (ps : list oid)
    (cellKey : string) (q : oid) :
  In q (getParticlesInNeighborhood (addParticles g0 h ps) cellKey) -> In q ps.
Proof.
  rewrite neighbourhood_cells. intros H.
  apply in_flat_map in H as (k & _ & H). rewrite cell_addParticles in H.
  apply list_elem_of_In, list_elem_of_filter in H as [_ H].
  apply list_elem_of_In. exact H.
Qed.

Lemma proper_cell (g : SpatialGrid.t) (c b v : R) :
  cellSize g = Fin c -> c <> 0%R -> bound g = Fin b ->
  exists k, Grid.cellOf g (Fin v) = Fin (IZR k).
Proof.
  intros Hc Hc0 Hb. unfold Grid.cellOf. rewrite Hc, Hb. cbn [Js.add].
  rewrite div_Fin by exact Hc0. cbn. eauto.
Qed.

(** On a grid with a finite nonzero cell size and a finite bound the
    neighbourhood of a finite position lists no particle twice. *)
Lemma NoDup_neighbourhood (g0 : SpatialGrid.t) (h : Heap.t) (ps : list oid)
    (c b x y z : R) :
  cellSize g0 = Fin c -> c <> 0%R -> bound g0 = Fin b -> NoDup ps ->
  let g := addParticles g0 h ps in
  NoDup (getParticlesInNeighborhood g (getCellKey g (Fin x) (Fin y) (Fin z))).
Proof.
  intros Hc Hc0 Hb Hnd g.
  destruct (addParticles_params g0 h ps) as [Hgc Hgb].
  assert (Hkey : getCellKey g (Fin x) (Fin y) (Fin z)
                 = JsString.key3 (Grid.cellOf g0 (Fin x)) (Grid.cellOf g0 (Fin y))
                     (Grid.cellOf g0 (Fin z))).
  { unfold getCellKey, g. rewrite Hgc, Hgb. reflexivity. }
  rewrite Hkey.
  destruct (proper_cell g0 c b x Hc Hc0 Hb) as [kx ->].
  destruct (proper_cell g0 c b y Hc Hc0 Hb) as [ky ->].
  destruct (proper_cell g0 c b z Hc Hc0 Hb) as [kz ->].
  rewrite neighbourhood_cells.
  apply NoDup_flat_map; [apply NoDup_getNeighborKeys | |].
  - intros k _. unfold g. rewrite cell_addParticles. apply NoDup_filter. exact Hnd.
  - intros k k' q _ _ Hq Hq'. unfold g in Hq, Hq'.
    rewrite cell_addParticles in Hq, Hq'.
    apply list_elem_of_In, list_elem_of_filter in Hq as [Hq _].
    apply list_elem_of_In, list_elem_of_filter in Hq' as [Hq' _].
    congruence.
Qed.

Lemma indexOfFrom_found (l : list oid) (i : Z) (o : oid) :
  In o l -> (i <= indexOfFrom i l o)%Z.
Proof.
  revert i. induction l as [| a l IH]; intros i Hin; [destruct Hin |].
  cbn. destruct (Nat.eqb_spec a o) as [_ | Hne]; [lia |].
  destruct Hin as [-> | Hin]; [contradiction |].
  specialize (IH (i + 1)%Z Hin). lia.
Qed.

Lemma indexOfFrom_inj (l : list oid) (i : Z) (a b : oid) :
  In a l -> In b l -> indexOfFrom i l a = indexOfFrom i l b -> a = b.
Proof.
  revert i. induction l as [| c l IH]; intros i Ha Hb E; [destruct Ha |].
  cbn in E.
  destruct (Nat.eqb_spec c a) as [Eca | Nca], (Nat.eqb_spec c b) as [Ecb | Ncb].
  - congruence.
  - destruct Hb as [-> | Hb]; [contradiction |].
    pose proof (indexOfFrom_found l (i + 1)%Z b Hb). lia.
  - destruct Ha as [-> | Ha]; [contradiction |].
    pose proof (indexOfFrom_found l (i + 1)%Z a Ha). lia.
  - destruct Ha as [-> | Ha]; [contradiction |].
    destruct Hb as [-> | Hb]; [contradiction |].
    exact (IH _ Ha Hb E).
Qed.

(** What a pair emitted for [p1] has passed. *)
Lemma pairsOf_inv (m : Particle3DMesh.t) (h : Heap.t) (keep : oid -> oid -> bool)
    (p1 : oid) (pr : oid * oid) :
  In pr (pairsOf m h keep p1) ->
  exists p2,
    pr = (p1, p2)
    /\ In p2 (getParticlesInNeighborhood (spatialGrid m)
                (getCellKey (spatialGrid m) (Particle.x (h p1))
                   (Particle.y (h p1)) (Particle.z (h p1))))
    /\ p1 <> p2
    /\ (indexOf (particles m) p1 <= indexOf (particles m) p2)%Z
    /\ (Grid.distance h p1 p2 <? Config.CONNECTION_DISTANCE (config m)) = true.
Proof.
  unfold pairsOf. intros H. apply in_flat_map in H as (p2 & Hp2 & H).
  exists p2.
  destruct (Nat.eqb_spec p1 p2) as [-> | Hne]; cbn [orb] in H; [destruct H |].
  destruct (indexOf (particles m) p1 >? indexOf (particles m) p2)%Z eqn:Hidx;
    [destruct H |].
  fold (Grid.distance h p1 p2) in H.
  destruct (Grid.distance h p1 p2 <? Config.CONNECTION_DISTANCE (config m)) eqn:Hd;
    [| destruct H].
  assert (pr = (p1, p2)).
  { destruct (match currentShape m with Some _ => _ | None => _ end);
      [destruct H |].
    destruct (keep p1 p2); [| destruct H].
    destruct H as [<- | []]. reflexivity. }
  repeat split; try assumption. lia.
Qed.

Lemma pairsOf_nil_or_one (m : Particle3DMesh.t) (h : Heap.t)
    (keep : oid -> oid -> bool) (p1 : oid) :
  exists f : oid -> list (oid * oid),
    pairsOf m h keep p1
    = flat_map f (getParticlesInNeighborhood (spatialGrid m)
                    (getCellKey (spatialGrid m) (Particle.x (h p1))
                       (Particle.y (h p1)) (Particle.z (h p1))))
    /\ (forall p2, f p2 = [] \/ f p2 = [(p1, p2)])
    /\ (forall p2, f p2 <> [] ->
          (Grid.distance h p1 p2 <? Config.CONNECTION_DISTANCE (config m)) = true).
Proof.
  eexists. split; [reflexivity |]. split.
  - intros p2. cbn beta.
    destruct (Nat.eqb p1 p2 || (_ >? _)%Z); [left; reflexivity |].
    cbv zeta. destruct (Js.lt _ _); [| left; reflexivity].
    destruct (match currentShape m with Some _ => _ | None => _ end);
      [left; reflexivity |].
    destruct (keep p1 p2); [right | left]; reflexivity.
  - intros p2 H. cbn beta in H.
    destruct (Nat.eqb p1 p2 || (_ >? _)%Z); [contradiction |].
    cbv zeta in H. fold (Grid.distance h p1 p2) in *.
    destruct (Grid.distance h p1 p2 <? _); [reflexivity | contradiction].
Qed.

Lemma flat_map_nil {A B} (f : A -> list B) (l : list A) :
  (forall a, f a = []) -> flat_map f l = [].
Proof.
  intros H. induction l as [| a l IH]; [reflexivity |].
  cbn. rewrite H, IH. reflexivity.
Qed.

(** On a proper grid the pairs emitted for one particle are pairwise
    different. *)
Lemma NoDup_pairsOf (m : Particle3DMesh.t) (g0 : SpatialGrid.t) (h : Heap.t)
    (keep : oid -> oid -> bool) (c b : R) (p1 : oid) :
  spatialGrid m = addParticles g0 h (particles m) ->
  cellSize g0 = Fin c -> c <> 0%R -> bound g0 = Fin b ->
  NoDup (particles m) ->
  NoDup (pairsOf m h keep p1).
Proof.
  intros Hg Hc Hc0 Hb Hnd.
  destruct (pairsOf_nil_or_one m h keep p1) as (f & -> & Hf & Hdist).
  destruct (Particle.x (h p1)) as [x | | |] eqn:Ex;
    [destruct (Particle.y (h p1)) as [y | | |] eqn:Ey;
     [destruct (Particle.z (h p1)) as [z | | |] eqn:Ez |..] |..].
  1: { rewrite Hg. apply NoDup_flat_map.
       - apply (NoDup_neighbourhood g0 h (particles m) c b x y z); assumption.
       - intros p2 _. destruct (Hf p2) as [-> | ->]; [constructor |].
         apply NoDup_singleton.
       - intros p2 p2' pr _ _ H H'.
         destruct (Hf p2) as [E | E]; rewrite E in H; [destruct H |].
         destruct (Hf p2') as [E' | E']; rewrite E' in H'; [destruct H' |].
         destruct H as [<- | []]. destruct H' as [H' | []]. congruence. }
  all: rewrite flat_map_nil; [constructor |]; intros p2;
    destruct (Hf p2) as [E | E]; [exact E | exfalso];
    assert (Hd := Hdist p2 ltac:(rewrite E; discriminate));
    apply distance_near in Hd as (px & py & pz & _ & _ & _ & Hx & Hy & Hz & _);
    congruence.
Qed.

Lemma NoDup_pairs_all (m : Particle3DMesh.t) (g0 : SpatialGrid.t) (h : Heap.t)
    (keep : oid -> oid -> bool) (c b : R) :
  spatialGrid m = addParticles g0 h (particles m) ->
  cellSize g0 = Fin c -> c <> 0%R -> bound g0 = Fin b ->
  NoDup (particles m) ->
  NoDup (flat_map (pairsOf m h keep) (particles m)).
Proof.
  intros Hg Hc Hc0 Hb Hnd. apply NoDup_flat_map; [exact Hnd | |].
  - intros p1 _. apply (NoDup_pairsOf m g0 h keep c b); assumption.
  - intros p1 p1' pr _ _ H H'.
    apply pairsOf_inv in H as (p2 & -> & _), H' as (p2' & E & _). congruence.
Qed.

Lemma pairs_ordered (m : Particle3DMesh.t) (g0 : SpatialGrid.t) (h : Heap.t)
    (keep keep' : oid -> oid -> bool) (p q : oid) :
  spatialGrid m = addParticles g0 h (particles m) ->
  In (p, q) (flat_map (pairsOf m h keep) (particles m)) ->
  p <> q /\ ~ In (q, p) (flat_map (pairsOf m h keep') (particles m)).
Proof.
  intros Hg H. apply in_flat_map in H as (p1 & Hp1 & H).
  apply pairsOf_inv in H as (p2 & [= -> ->] & Hn & Hne & Hidx & _).
  split; [exact Hne |]. intros H'.
  apply in_flat_map in H' as (q1 & Hq1 & H').
  apply pairsOf_inv in H' as (q2 & [= -> ->] & _ & _ & Hidx' & _).
  apply Hne. apply (indexOfFrom_inj (particles m) 0%Z); try assumption.
  unfold indexOf in *. lia.
Qed.

End NoDuplicates.

(** ** Particle3DMesh: one frame *)

Section Frames.
Import Particle3DMesh.
Local Open Scope js_scope.

Lemma update_returns (p : Particle.t) (gvy : num) (config : Config.t)
    (shape : option Shape.t) (g : Rng.t) :
  Frame.carriesZone shape = true ->
  exists v g', Particle.update p gvy config shape g = (Some v, g').
Proof.
  intros Hwf. unfold Particle.update.
  destruct (Particle.inTransition p); [unfold ret; eauto |].
  set (acc := bind _ _).
  assert (Hacc : exists v g', acc g = (Some v, g')).
  { unfold acc, bind, ret. destruct (Particle.checkBounds _ config g). eauto. }
  destruct shape as [s |]; [| exact Hacc].
  cbn in Hwf. destruct (Shape.hasExclusionZone s); [| exact Hacc].
  destruct (Shape.exclusionZone s) as [zone |]; [| discriminate].
  destruct (Particle.wouldEnterExclusionZone _ _ _ _ zone);
    [unfold ret; eauto | exact Hacc].
Qed.

Lemma forEachM_returns (f : Particle.t -> Rand (option Particle.t))
    (ps : list oid) (h : Heap.t) (g : Rng.t) :
  (forall p g, exists v g', f p g = (Some v, g')) ->
  exists h' g', Heap.forEachM f ps h g = (Some h', g').
Proof.
  intros Hf. revert h g. induction ps as [| o rest IH]; intros h g.
  - cbn. unfold ret. eauto.
  - cbn. unfold bind. destruct (Hf (h o) g) as (v & g' & ->). apply IH.
Qed.

Lemma updateTransition_returns (ac : AnimationController.t) (now : num)
    (ps : list oid) (h : Heap.t) :
  Frame.canAdvance ac = true ->
  exists ac' h' calls r,
    AnimationController.updateTransition ac now ps h = Some (ac', h', calls, r)
    /\ (calls = [] \/ exists cb, calls = [cb]).
Proof.
  intros H. unfold AnimationController.updateTransition, Frame.canAdvance in *.
  destruct (AnimationController.isTransitioning ac); cbn [negb orb] in *.
  - destruct (AnimationController.easingFunction ac) as [f | |];
      [| discriminate | discriminate].
    destruct (_ >=? n1).
    + do 4 eexists. split; [reflexivity |].
      cbn. destruct (AnimationController.onTransitionComplete ac); eauto.
    + do 4 eexists. split; [reflexivity | left; reflexivity].
  - do 4 eexists. split; [reflexivity | left; reflexivity].
Qed.

Lemma runCallback_same (m : Particle3DMesh.t) (w : World.t) (cb : Callback.t) :
  let m' := fst (runCallback m w cb) in
  particles m' = particles m /\ config m' = config m
  /\ spatialGrid m' = spatialGrid m
  /\ globalVelocityY m' = globalVelocityY m
  /\ World.heap (snd (runCallback m w cb)) = World.heap w
  /\ World.rng (snd (runCallback m w cb)) = World.rng w
  /\ (currentShape m' = currentShape m \/ currentShape m' = targetShape m).
Proof.
  destruct cb as [name | [name |]]; cbn; repeat split; auto.
Qed.

(** A frame returns, and does not throw, when the current and the
    pending shape carry the zones they announce and the controller can
    advance. *)
Lemma animate_returns (m : Particle3DMesh.t) (now : num)
    (onScreen : Point.t -> bool) (w : World.t) :
  Frame.carriesZone (currentShape m) = true ->
  Frame.carriesZone (targetShape m) = true ->
  Frame.canAdvance (animationController m) = true ->
  exists m' w' conns, animate m now onScreen w = Some (m', w', conns).
Proof.
  intros Hc Ht Ha. unfold animate.
  destruct (updateTransition_returns (animationController (updateVelocities m))
              now (particles (updateVelocities m)) (World.heap w) Ha)
    as (ac' & h' & calls & r & -> & Hcalls).
  set (m1 := set_animationController (updateVelocities m) ac').
  set (w1 := World.set_heap w h').
  assert (Hs : exists m2 w2,
             fold_left (fun s cb => runCallback (fst s) (snd s) cb) calls (m1, w1)
             = (m2, w2)
             /\ Frame.carriesZone (currentShape m2) = true).
  { destruct Hcalls as [-> | [cb ->]].
    - exists m1, w1. split; [reflexivity | exact Hc].
    - cbn [fold_left fst snd].
      destruct (runCallback m1 w1 cb) as [m2 w2] eqn:E. exists m2, w2.
      split; [reflexivity |].
      pose proof (runCallback_same m1 w1 cb) as (_ & _ & _ & _ & _ & _ & Hsh).
      rewrite E in Hsh. cbn [fst] in Hsh.
      destruct Hsh as [-> | ->]; assumption. }
  destruct Hs as (m2 & w2 & -> & Hc2).
  unfold updateParticles.
  destruct (forEachM_returns
              (fun particle =>
                 Particle.update particle (globalVelocityY m2) (config m2)
                   (currentShape m2))
              (particles m2) (World.heap w2) (World.rng w2)) as (h2 & g2 & ->).
  { intros p g. apply update_returns. exact Hc2. }
  destruct (Config.USE_WEBGL _); eauto.
Qed.

(** What a frame that returns has done to the mesh: the array and the
    configuration are the same, the grid has been rebuilt from the
    positions the frame ends with, and the connections are computed on
    that grid. *)
Lemma animate_inv (m m' : Particle3DMesh.t) (now : num)
    (onScreen : Point.t -> bool) (w w' : World.t) (conns : list (oid * oid)) :
  animate m now onScreen w = Some (m', w', conns) ->
  particles m' = particles m /\ config m' = config m
  /\ spatialGrid m'
     = SpatialGrid.addParticles (spatialGrid m) (World.heap w') (particles m)
  /\ conns = (if Config.USE_WEBGL (config m)
              then connections m' (World.heap w')
              else drawConnections m' (World.heap w') onScreen).
Proof.
  unfold animate. intros H.
  destruct (AnimationController.updateTransition _ _ _ _)
    as [[[[ac' h'] calls] r] |] eqn:Eu; [| discriminate].
  set (m1 := set_animationController (updateVelocities m) ac') in *.
  set (w1 := World.set_heap w h') in *.
  assert (Hcalls : calls = [] \/ exists cb, calls = [cb]).
  { unfold AnimationController.updateTransition in Eu.
    destruct (negb _); [injection Eu as <- <- <- <-; left; reflexivity |].
    destruct (match AnimationController.easingFunction _ with
              | JsObject.Own _ => _ | _ => _ end); [| discriminate].
    destruct (_ >=? n1); injection Eu as <- <- <- <-; [| left; reflexivity].
    destruct (AnimationController.onTransitionComplete _); eauto. }
  assert (Hs : let s := fold_left (fun s cb => runCallback (fst s) (snd s) cb)
                          calls (m1, w1) in
               particles (fst s) = particles m /\ config (fst s) = config m
               /\ spatialGrid (fst s) = spatialGrid m).
  { destruct Hcalls as [-> | [cb ->]]; cbn [fold_left fst snd].
    - repeat split.
    - pose proof (runCallback_same m1 w1 cb) as (Hp & Hc & Hg & _).
      rewrite Hp, Hc, Hg. repeat split. }
  destruct (fold_left _ calls (m1, w1)) as [m2 w2]. cbn [fst] in Hs.
  destruct Hs as (Hp & Hc & Hg).
  destruct (updateParticles m2 w2) as [w3 |]; [| discriminate].
  assert (Hu : particles (updateSpatialGrid m2 w3) = particles m
               /\ config (updateSpatialGrid m2 w3) = config m
               /\ spatialGrid (updateSpatialGrid m2 w3)
                  = SpatialGrid.addParticles (spatialGrid m) (World.heap w3)
                      (particles m)).
  { unfold updateSpatialGrid. cbn. rewrite Hp, Hc, Hg. repeat split. }
  destruct Hu as (Hp3 & Hc3 & Hg3). rewrite Hc3 in H.
  destruct (Config.USE_WEBGL (config m)); injection H as <- <- <-;
    repeat split; assumption.
Qed.

End Frames.

(** ** The grid and the frame: further properties *)

Section GridFurther.
Import SpatialGrid Particle3DMesh.
Local Open Scope js_scope.

(** X1.  A frame returns and does not throw when the current and the
    pending shape carry the exclusion zones they announce and the
    controller is idle or has its easing function. *)
Theorem frame_does_not_throw (m : Particle3DMesh.t) (now : num)
    (onScreen : Point.t -> bool) (w : World.t) :
  Frame.carriesZone (currentShape m) = true ->
  Frame.carriesZone (targetShape m) = true ->
  Frame.canAdvance (animationController m) = true ->
  exists m' w' conns,
    animate m now onScreen w = Some (m', w', conns)
    /\ particles m' = particles m
    /\ spatialGrid m'
       = addParticles (spatialGrid m) (World.heap w') (particles m).
Proof.
  intros Hc Ht Ha.
  destruct (animate_returns m now onScreen w Hc Ht Ha) as (m' & w' & conns & E).
  exists m', w', conns. split; [exact E |].
  apply animate_inv in E as (Hp & _ & Hg & _). split; assumption.
Qed.

Lemma frame_does_not_throw_witness :
  exists m' w' conns,
    animate Sample.mesh (Fin 16) (fun _ => true) Sample.world
    = Some (m', w', conns)
    /\ particles m' = particles Sample.mesh
    /\ spatialGrid m'
       = addParticles (spatialGrid Sample.mesh) (World.heap w')
           (particles Sample.mesh).
Proof.
  apply (frame_does_not_throw Sample.mesh (Fin 16) (fun _ => true) Sample.world);
    reflexivity.
Defined.

(** X2.  After [addParticles], [getParticlesInCell] under a key that
    is not a name of Object.prototype returns exactly the particles of
    the array whose position has that key, in array order; what the grid
    held before is gone, and a key no particle has gives the empty
    list. *)
Theorem bucket_holds_the_particles_of_its_cell (g0 : SpatialGrid.t)
    (h : Heap.t) (ps : list oid) (key : string) :
  JsObject.inherits key = false ->
  getParticlesInCell (addParticles g0 h ps) key
  = Some (filter (fun p => Grid.keyOf (addParticles g0 h ps) h p = key) ps).
Proof.
  intros Hkey.
  pose proof (cell_addParticles g0 h ps key) as E.
  unfold Grid.bucket in E. unfold getParticlesInCell, JsObject.get.
  rewrite Hkey.
  assert (F : filter (fun p => Grid.keyOf (addParticles g0 h ps) h p = key) ps
              = filter (fun p => Grid.keyOf g0 h p = key) ps).
  { destruct (addParticles_params g0 h ps) as [Hc Hb].
    apply list_filter_iff. intros p.
    rewrite (keyOf_params g0 (addParticles g0 h ps) h p Hc Hb). reflexivity. }
  rewrite F.
  destruct (grid (addParticles g0 h ps) !! key) as [b |]; rewrite <- E; reflexivity.
Qed.

Lemma bucket_holds_the_particles_of_its_cell_witness :
  getParticlesInCell
    (addParticles Sample.scenarioGrid Sample.scenarioHeap Sample.three) "9_9_9"
  = Some (filter
            (fun p =>
               Grid.keyOf
                 (addParticles Sample.scenarioGrid Sample.scenarioHeap Sample.three)
                 Sample.scenarioHeap p = "9_9_9"%string)
            Sample.three).
Proof.
  apply (bucket_holds_the_particles_of_its_cell Sample.scenarioGrid
           Sample.scenarioHeap Sample.three "9_9_9").
  reflexivity.
Defined.

(** X3.  A neighbourhood query returns particles of the indexed array
    only. *)
Theorem neighbourhood_within_array (g0 : SpatialGrid.t) (h : Heap.t)
    (ps : list oid) (cellKey : string) :
  incl (getParticlesInNeighborhood (addParticles g0 h ps) cellKey) ps.
Proof. intros q Hq. eapply neighbourhood_subset. exact Hq. Qed.

(** X4.  With a cell size that is NaN (what a missing GRID_CELL_SIZE
    becomes) every position has the key "NaN_NaN_NaN" and the
    neighbourhood of any position is the whole array, 27 times over. *)
Theorem nan_cell_size_lists_array_27_times (g0 : SpatialGrid.t) (h : Heap.t)
    (ps : list oid) (x y z : num) :
  cellSize g0 = NaN ->
  let g := addParticles g0 h ps in
  getCellKey g x y z = Keys.nanKey
  /\ getParticlesInNeighborhood g (getCellKey g x y z) = concat (repeat ps 27).
Proof.
  intros H g. split.
  - apply getCellKey_NaN. unfold g.
    destruct (addParticles_params g0 h ps) as [-> _]. exact H.
  - apply neighbourhood_NaN. exact H.
Qed.

Lemma nan_cell_size_lists_array_27_times_witness :
  let g := addParticles (SpatialGrid.constructor NaN (Fin 100))
             Sample.scenarioHeap Sample.three in
  getCellKey g (Fin 0) (Fin 0) (Fin 0) = Keys.nanKey
  /\ getParticlesInNeighborhood g (getCellKey g (Fin 0) (Fin 0) (Fin 0))
     = concat (repeat Sample.three 27).
Proof.
  apply (nan_cell_size_lists_array_27_times (SpatialGrid.constructor NaN (Fin 100))
           Sample.scenarioHeap Sample.three (Fin 0) (Fin 0) (Fin 0)).
  reflexivity.
Defined.

End GridFurther.

(** ** ExclusionZone: segments of length zero *)

Section ZoneEdges.
Import ExclusionZone.
Local Open Scope js_scope.

Lemma sub_self_fin (v : num) :
  (v - v === n0) = Js.isFinite v.
Proof.
  destruct v; cbn; try reflexivity. apply Reqb0_true. lra.
Qed.

(** X6.  The segment from a point to itself is reported as
    intersecting every box, wherever the box is, as soon as the point has
    finite coordinates: with all three direction components zero every
    slab is unbounded.  With a coordinate that is not finite the answer
    is false. *)
Theorem point_segment_hits_every_box (zone : ExclusionZone.t) (P : Point.t) :
  intersectsLineBox zone P P = Reflection.finitePoint P.
Proof.
  destruct zone as [ty [cx cy cz r h w d axis]], P as [px py pz].
  unfold intersectsLineBox, boxSlabs, Reflection.finitePoint.
  cbn [params Point.x Point.y Point.z].
  rewrite !sub_self_fin.
  destruct px as [x | | |], py as [y | | |], pz as [z | | |];
    cbn [Js.isFinite andb]; try reflexivity;
    rewrite ?sub_NaN_r, ?div_NaN_r; cbn;
    repeat match goal with
      | |- context [Math.min2 ?a NaN] => replace (Math.min2 a NaN) with NaN by (destruct a; reflexivity)
      | |- context [Math.max2 ?a NaN] => replace (Math.max2 a NaN) with NaN by (destruct a; reflexivity)
      end; cbn; try reflexivity.
Qed.

Lemma zero_or_NaN_mul_l u v : zero_or_NaN v -> zero_or_NaN (u * v).
Proof.
  intros [-> | ->]; [left; apply mul_NaN_r |].
  destruct u as [x | | |]; cbn.
  - right. apply Fin_eq. lra.
  - left. unfold Js.signed_inf.
    destruct (Rlt_dec 0 0); [lra |]. reflexivity.
  - left. unfold Js.signed_inf.
    destruct (Rlt_dec 0 (- 0)); [lra |].
    destruct (Rlt_dec (- 0) 0); [lra |]. reflexivity.
  - left. reflexivity.
Qed.

Lemma zero_or_NaN_mul_r u v : zero_or_NaN v -> zero_or_NaN (v * u).
Proof.
  intros [-> | ->]; [left; reflexivity |].
  destruct u as [x | | |]; cbn.
  - right. apply Fin_eq. lra.
  - left. unfold Js.signed_inf.
    destruct (Rlt_dec 0 0); [lra |]. reflexivity.
  - left. unfold Js.signed_inf.
    destruct (Rlt_dec 0 (- 0)); [lra |].
    destruct (Rlt_dec (- 0) 0); [lra |]. reflexivity.
  - left. reflexivity.
Qed.

Lemma zero_or_NaN_neg u : zero_or_NaN u -> zero_or_NaN (- u).
Proof.
  intros [-> | ->]; [left; reflexivity | right]. cbn. apply Fin_eq. lra.
Qed.

Lemma zero_or_NaN_sub u v : zero_or_NaN u -> zero_or_NaN v -> zero_or_NaN (u - v).
Proof. intros Hu Hv. apply zero_or_NaN_add; [exact Hu | apply zero_or_NaN_neg, Hv]. Qed.

Lemma sub_sub_self (p c : num) : zero_or_NaN ((p - c) - (p - c)).
Proof. apply sub_self. Qed.

(** The tail of both cylinder routines once the quadratic is set up
    with coefficients that are zero or NaN. *)
Lemma cylinder_tail (a b c av1 av2 hh : num) :
  zero_or_NaN a -> zero_or_NaN b ->
  (let discriminant := b * b - n4 * a * c in
   if discriminant <? n0 then false
   else
     let t1 := (- b + Math.sqrt discriminant) / (n2 * a) in
     let t2 := (- b - Math.sqrt discriminant) / (n2 * a) in
     if ((t1 <? n0) || (t1 >? n1)) && ((t2 <? n0) || (t2 >? n1)) then false
     else
       if (t1 >=? n0) && (t1 <=? n1) &&
          (let axisPos := av1 + t1 * (av2 - av1) in
           (axisPos >=? - hh) && (axisPos <=? hh))
       then true
       else
         if (t2 >=? n0) && (t2 <=? n1) &&
            (let axisPos := av1 + t2 * (av2 - av1) in
             (axisPos >=? - hh) && (axisPos <=? hh))
         then true
         else false) = false.
Proof.
  intros Ha Hb. cbv zeta.
  assert (Hd : zero_or_NaN (b * b - n4 * a * c)).
  { apply zero_or_NaN_sub; [apply zero_or_NaN_mul; assumption |].
    apply zero_or_NaN_mul_r, zero_or_NaN_mul_l, Ha. }
  assert (H2a : zero_or_NaN (n2 * a)) by apply zero_or_NaN_mul_l, Ha.
  assert (Hs : zero_or_NaN (Math.sqrt (b * b - n4 * a * c)))
    by apply zero_or_NaN_sqrt, Hd.
  assert (T1 : (- b + Math.sqrt (b * b - n4 * a * c)) / (n2 * a) = NaN).
  { apply zero_or_NaN_div; [| exact H2a].
    apply zero_or_NaN_add; [apply zero_or_NaN_neg, Hb | exact Hs]. }
  assert (T2 : (- b - Math.sqrt (b * b - n4 * a * c)) / (n2 * a) = NaN).
  { apply zero_or_NaN_div; [| exact H2a].
    apply zero_or_NaN_sub; [apply zero_or_NaN_neg, Hb | exact Hs]. }
  rewrite T1, T2.
  destruct (_ <? n0); reflexivity.
Qed.

(** X7.  The segment from a point to itself never intersects a
    cylinder zone: the quadratic has a zero leading coefficient and both
    roots are NaN. *)
Theorem point_segment_misses_every_cylinder (zone : ExclusionZone.t) (P : Point.t) :
  intersectsLineCylinder zone P P = false.
Proof.
  destruct zone as [ty [cx cy cz r h w d axis]], P as [px py pz].
  unfold intersectsLineCylinder. cbn [params Point.x Point.y Point.z].
  pose proof (sub_sub_self px cx) as Hx. pose proof (sub_sub_self py cy) as Hy.
  pose proof (sub_sub_self pz cz) as Hz.
  set (dx := (px - cx) - (px - cx)) in *.
  set (dy := (py - cy) - (py - cy)) in *.
  set (dz := (pz - cz) - (pz - cz)) in *.
  destruct (String.eqb axis "x"); [| destruct (String.eqb axis "y")];
    apply cylinder_tail;
    first [ apply zero_or_NaN_add; apply zero_or_NaN_mul; assumption
          | apply zero_or_NaN_mul_l, zero_or_NaN_add;
            apply zero_or_NaN_mul_l; assumption ].
Qed.

(** X5.  The segment from a point to itself never intersects a sphere
    zone, also when the point is inside the sphere or on its surface. *)
Theorem point_segment_misses_every_sphere (zone : ExclusionZone.t) (P : Point.t) :
  intersectsLineSphere zone P P = false.
Proof. apply intersectsLineSphere_zero_length. Qed.

End ZoneEdges.

(** ** Particle3DMesh: what the connection list holds *)

Section ConnectionsSound.
Import SpatialGrid Particle3DMesh.
Local Open Scope js_scope.

Lemma pairs_sound (m : Particle3DMesh.t) (g0 : SpatialGrid.t) (h : Heap.t)
    (keep : oid -> oid -> bool) (p q : oid) :
  spatialGrid m = addParticles g0 h (particles m) ->
  In (p, q) (flat_map (pairsOf m h keep) (particles m)) ->
  In p (particles m) /\ In q (particles m)
  /\ (Grid.distance h p q <? Config.CONNECTION_DISTANCE (config m)) = true
  /\ keep p q = true.
Proof.
  intros Hg H. apply in_flat_map in H as (p1 & Hp1 & H).
  assert (K : keep p q = true).
  { unfold pairsOf in H. apply in_flat_map in H as (q' & _ & H).
    cbv zeta in H.
    destruct (Nat.eqb _ q' || _); [destruct H |].
    destruct (Js.lt _ _); [| destruct H].
    destruct (match currentShape m with Some _ => _ | None => _ end);
      [destruct H |].
    destruct (keep p1 q') eqn:K; [| destruct H].
    destruct H as [[= <- <-] | []]. exact K. }
  apply pairsOf_inv in H as (p2 & [= -> ->] & Hn & Hne & Hidx & Hd).
  rewrite Hg in Hn. apply neighbourhood_subset in Hn.
  repeat split; assumption.
Qed.


(** X8.  Every connection a frame gives to the renderer joins two
    particles of the array whose distance, as the frame computes it, is
    below CONNECTION_DISTANCE; on the canvas path both ends are also on
    screen. *)
Theorem frame_connections_join_near_particles (m m' : Particle3DMesh.t)
    (now : num) (onScreen : Point.t -> bool) (w w' : World.t)
    (conns : list (oid * oid)) :
  animate m now onScreen w = Some (m', w', conns) ->
  forall p q, In (p, q) conns ->
    In p (particles m) /\ In q (particles m)
    /\ (Grid.distance (World.heap w') p q
        <? Config.CONNECTION_DISTANCE (config m)) = true
    /\ (Config.USE_WEBGL (config m) = false ->
        onScreen (Particle.position (World.heap w' p)) = true
        /\ onScreen (Particle.position (World.heap w' q)) = true).
Proof.
  intros Ha p q H.
  apply animate_inv in Ha as (Hp & Hcfg & Hg & ->).
  rewrite <- Hp in Hg. rewrite <- Hp, <- Hcfg.
  unfold connections, drawConnections in H. rewrite Hcfg in H.
  destruct (Config.USE_WEBGL (config m)) eqn:Hw; cbn [orb] in H.
  - apply (pairs_sound m' (spatialGrid m)) in H as (? & ? & ? & _);
      [| exact Hg].
    rewrite Hcfg in *. rewrite Hw.
    split; [| split; [| split]]; try assumption.
    intros; discriminate.
  - apply (pairs_sound m' (spatialGrid m)) in H as (? & ? & ? & K);
      [| exact Hg].
    apply andb_true_iff in K.
    rewrite Hcfg in *. rewrite Hw.
    split; [| split; [| split]]; try assumption.
    intros _; exact K.
Qed.

Lemma frame_connections_join_near_particles_witness :
  exists m' w' conns,
    animate Sample.scenarioMesh (Fin 16) (fun _ => true) Sample.scenarioWorld
    = Some (m', w', conns)
    /\ forall p q, In (p, q) conns ->
         In p (particles Sample.scenarioMesh)
         /\ In q (particles Sample.scenarioMesh)
         /\ (Grid.distance (World.heap w') p q
             <? Config.CONNECTION_DISTANCE (config Sample.scenarioMesh)) = true
         /\ (Config.USE_WEBGL (config Sample.scenarioMesh) = false ->
             True /\ True).
Proof.
  destruct (animate_returns Sample.scenarioMesh (Fin 16) (fun _ => true)
              Sample.scenarioWorld eq_refl eq_refl eq_refl)
    as (m' & w' & conns & E).
  exists m', w', conns. split; [exact E |].
  intros p q H.
  destruct (frame_connections_join_near_particles Sample.scenarioMesh m'
              (Fin 16) (fun _ => true) Sample.scenarioWorld w' conns E p q H)
    as (? & ? & ? & _).
  repeat split; assumption.
Defined.

End ConnectionsSound.


(** ** Particle: recycling at the bound, and steps inside a zone *)

Section Recycling.
Import Particle.
Local Open Scope js_scope.

(** X9.  A particle [checkBounds] finds outside the bound is put on a
    face of the cube, with the velocity component along that axis
    pointing back inside (or zero), its base vertical velocity equal to
    its vertical velocity, after exactly seven calls of [Math.random]. *)
Theorem recycled_particle_heads_inward (p : Particle.t) (config : Config.t)
    (g : Rng.t) (b s : R) :
  Config.BOUND config = Fin b -> Config.PARTICLE_SPEED config = Fin s ->
  Rng.valid g ->
  Recycle.outside p (Fin b) = true ->
  let p' := fst (checkBounds p config g) in
  (Recycle.inward (x p') (vx p') b \/ Recycle.inward (y p') (vy p') b
   \/ Recycle.inward (z p') (vz p') b)
  /\ baseVy p' = vy p'
  /\ snd (checkBounds p config g) = Rng.skip 7 g.
Proof.
  intros HB HS Hg Hout.
  unfold Recycle.outside in Hout.
  pose proof (Hg (Rng.cursor g)) as H0.
  assert (E : exists sign, (sign = Fin 1 \/ sign = Fin (-1)) /\
     checkBounds p config g =
     (let axis := Fin (IZR (Zfloor (Rng.draws g (Rng.cursor g) * 3))) in
      let q := fst (resetParticle p config (Rng.skip 2 g)) in
      let g3 := Rng.skip 5 g in
      (if axis === n0 then
        (let* y' := randomSigned (Fin b) in
         let* z' := randomSigned (Fin b) in
         let this := set_pos q (sign * Fin b) y' z' in
         ret (set_vel this (- sign * Math.abs (vx this)) (vy this) (vz this)))
      else if axis === n1 then
        (let* x' := randomSigned (Fin b) in
         let* z' := randomSigned (Fin b) in
         let this := set_pos q x' (sign * Fin b) z' in
         let this := set_vel this (vx this) (- sign * Math.abs (vy this)) (vz this) in
         ret (set_baseVy this (vy this)))
      else if axis === n2 then
        (let* x' := randomSigned (Fin b) in
         let* y' := randomSigned (Fin b) in
         let this := set_pos q x' y' (sign * Fin b) in
         ret (set_vel this (vx this) (vy this) (- sign * Math.abs (vz this))))
      else ret q) g3)).
  { exists (if Fin (Rng.draws g (S (Rng.cursor g))) <? half then - n1 else n1).
    split; [| unfold checkBounds; rewrite HB, Hout; reflexivity].
    destruct (_ <? half); [right | left]; reflexivity. }
  destruct E as (sign & Hsign & ->). cbv zeta.
  unfold resetParticle. rewrite HS.
  destruct (axis_of_draw _ H0) as [-> | [-> | ->]];
    unfold n0, n1, n2; cbn [Js.eq]; rbool; cbn iota;
    unfold bind, ret, random, randomSigned, bind, ret, random;
    cbn -[Rabs Js.mul Js.neg Math.abs];
    (split; [| split; [reflexivity |]]).
  all: try (unfold Rng.skip; cbn; reflexivity).
  - left. destruct Hsign as [-> | ->]; cbn -[Rabs].
    + exists 1%R. eexists. split; [left; reflexivity |].
      split; [reflexivity |]. split; [reflexivity |].
      pose proof (Rabs_pos ((Rng.draws g (S (S (Rng.cursor g))) * 2 + - (1)) * s)).
      lra.
    + exists (-1)%R. eexists. split; [right; reflexivity |].
      split; [reflexivity |]. split; [reflexivity |].
      pose proof (Rabs_pos ((Rng.draws g (S (S (Rng.cursor g))) * 2 + - (1)) * s)).
      lra.
  - right; left. destruct Hsign as [-> | ->]; cbn -[Rabs].
    + exists 1%R. eexists. split; [left; reflexivity |].
      split; [reflexivity |]. split; [reflexivity |].
      pose proof (Rabs_pos ((Rng.draws g (S (S (S (Rng.cursor g)))) * 2 + - (1)) * s)).
      lra.
    + exists (-1)%R. eexists. split; [right; reflexivity |].
      split; [reflexivity |]. split; [reflexivity |].
      pose proof (Rabs_pos ((Rng.draws g (S (S (S (Rng.cursor g)))) * 2 + - (1)) * s)).
      lra.
  - right; right. destruct Hsign as [-> | ->]; cbn -[Rabs].
    + exists 1%R. eexists. split; [left; reflexivity |].
      split; [reflexivity |]. split; [reflexivity |].
      pose proof (Rabs_pos ((Rng.draws g (S (S (S (S (Rng.cursor g))))) * 2 + - (1)) * s)).
      lra.
    + exists (-1)%R. eexists. split; [right; reflexivity |].
      split; [reflexivity |]. split; [reflexivity |].
      pose proof (Rabs_pos ((Rng.draws g (S (S (S (S (Rng.cursor g))))) * 2 + - (1)) * s)).
      lra.
Qed.

End Recycling.

Section RecyclingWitness.
Import Particle.
Local Open Scope js_scope.

Lemma recycled_particle_heads_inward_witness :
  let p := Sample.particle 150 0 0 0 0 0 in
  let p' := fst (checkBounds p Sample.config Sample.rng) in
  (Recycle.inward (x p') (vx p') 100 \/ Recycle.inward (y p') (vy p') 100
   \/ Recycle.inward (z p') (vz p') 100)
  /\ baseVy p' = vy p'
  /\ snd (checkBounds p Sample.config Sample.rng) = Rng.skip 7 Sample.rng.
Proof.
  apply (recycled_particle_heads_inward (Sample.particle 150 0 0 0 0 0)
           Sample.config Sample.rng 100 (1 / 2)).
  - reflexivity.
  - reflexivity.
  - intros n. cbn. lra.
  - unfold Recycle.outside. js_eval. reflexivity.
Defined.

(** X10.  A particle that is already inside the exclusion zone is
    never bounced: its step is the step it would make with no shape at
    all. *)
Theorem particle_inside_zone_moves_freely (p : Particle.t) (globalVelocityY : num)
    (config : Config.t) (shape : Shape.t) (zone : ExclusionZone.t) (g : Rng.t) :
  Shape.exclusionZone shape = Some zone ->
  ExclusionZone.contains zone (position p) = true ->
  update p globalVelocityY config (Some shape) g
  = update p globalVelocityY config None g.
Proof.
  intros Hz Hin. unfold update.
  destruct (inTransition p); [reflexivity |].
  destruct (Shape.hasExclusionZone shape); [| reflexivity].
  rewrite Hz. unfold wouldEnterExclusionZone.
  change (Point.mk (x (set_prev p (x p) (y p) (z p)))
            (y (set_prev p (x p) (y p) (z p))) (z (set_prev p (x p) (y p) (z p))))
    with (position p).
  rewrite Hin. reflexivity.
Qed.

Lemma particle_inside_zone_moves_freely_witness :
  update (Sample.particle 5 0 0 1 0 0) (Fin 0) Sample.config
    (Some (Sample.zoned (Sample.sphereZone 5 0 0 5))) Sample.rng
  = update (Sample.particle 5 0 0 1 0 0) (Fin 0) Sample.config None Sample.rng.
Proof.
  apply (particle_inside_zone_moves_freely _ _ _ _ (Sample.sphereZone 5 0 0 5)).
  - reflexivity.
  - unfold ExclusionZone.contains, ExclusionZone.containsSphere. js_eval.
    reflexivity.
Defined.

End RecyclingWitness.

(** ** AnimationController: the built-in easings *)

Section Easings.
Import AnimationController.
Local Open Scope js_scope.

Lemma transitions_constructor (config : Config.t) :
  transitions (constructor config)
  = Some (<["elastic" := elasticTransition]>
            (<["bounce" := bounceTransition]>
               (<["spring" := springTransition]>
                  (<["easeOut" := easeOutTransition]>
                     (<["easeIn" := easeInTransition]>
                        (<["easeInOut" := easeInOutTransition]>
                           (<["linear" := linearTransition]> ∅))))))).
Proof. reflexivity. Qed.

Lemma built_in_lookup (config : Config.t) (type : string) :
  JsObject.get (transitions (constructor config)) type
  = if String.eqb type "linear" then JsObject.Own linearTransition
    else if String.eqb type "easeInOut" then JsObject.Own easeInOutTransition
    else if String.eqb type "easeIn" then JsObject.Own easeInTransition
    else if String.eqb type "easeOut" then JsObject.Own easeOutTransition
    else if String.eqb type "spring" then JsObject.Own springTransition
    else if String.eqb type "bounce" then JsObject.Own bounceTransition
    else if String.eqb type "elastic" then JsObject.Own elasticTransition
    else if JsObject.inherits type then JsObject.Alien
    else JsObject.Undefined.
Proof.
  rewrite transitions_constructor. unfold JsObject.get.
  repeat match goal with
         | |- context [String.eqb type ?s] =>
             destruct (String.eqb_spec type s) as [-> | ?];
             [repeat (rewrite lookup_insert_ne by discriminate);
              rewrite lookup_insert_eq; reflexivity |]
         end.
  rewrite !lookup_insert_ne by congruence. rewrite lookup_empty. reflexivity.
Qed.

(** X11.  After the constructor, [startTransition] under a type name
    that is not a member of Object.prototype always finds an easing
    function: the one registered under the name, or easeInOut for any
    other name; and [updateTransition] does not throw on such a
    controller. *)
Theorem transition_type_selects_easing (config : Config.t) (now : num)
    (particles : list oid) (targetShape : option Shape.t) (duration : num)
    (type : string) (callback : option Callback.t) :
  JsObject.inherits type = false ->
  let ac := startTransition (constructor config) now particles targetShape
              duration type callback in
  easingFunction ac = JsObject.Own (Easing.byName type)
  /\ forall now' ps h, updateTransition ac now' ps h <> None.
Proof.
  intros Hn ac.
  assert (E : easingFunction ac = JsObject.Own (Easing.byName type)).
  { subst ac. unfold startTransition. cbn [easingFunction].
    rewrite !built_in_lookup. unfold Easing.byName. rewrite Hn.
    repeat match goal with
           | |- context [String.eqb type ?s] =>
               destruct (String.eqb_spec type s) as [-> | ?]; [reflexivity |]
           end.
    reflexivity. }
  split; [exact E |].
  intros now' ps h. unfold updateTransition. rewrite E.
  destruct (negb _); [discriminate |].
  destruct (_ >=? n1); discriminate.
Qed.

Lemma transition_type_selects_easing_witness :
  let ac := startTransition (constructor Sample.config) (Fin 0) Sample.four None
              (Fin 1000) "wobble" None in
  easingFunction ac = JsObject.Own (Easing.byName "wobble")
  /\ forall now' ps h, updateTransition ac now' ps h <> None.
Proof.
  apply (transition_type_selects_easing Sample.config (Fin 0) Sample.four None
           (Fin 1000) "wobble" None).
  reflexivity.
Defined.

(** X12.  Each of the seven built-in easing functions maps 0 to 0 and
    1 to 1. *)
Theorem built_in_easings_fix_endpoints (config : Config.t) (name : string)
    (f : easing) :
  JsObject.get (transitions (constructor config)) name = JsObject.Own f ->
  f (Fin 0) = Fin 0 /\ f (Fin 1) = Fin 1.
Proof.
  rewrite built_in_lookup. intros H.
  repeat match type of H with
         | context [String.eqb name ?s] =>
             destruct (String.eqb name s); [injection H as <- |]
         end; [.. | destruct (JsObject.inherits name); discriminate].
  - split; reflexivity.
  - unfold easeInOutTransition, Math.pow2. split; js_eval; f_equal; lra.
  - unfold easeInTransition. split; js_eval; f_equal; lra.
  - unfold easeOutTransition. split; js_eval; f_equal; lra.
  - unfold springTransition. split; js_eval; f_equal; lra.
  - unfold bounceTransition. split; js_eval; f_equal; lra.
  - unfold elasticTransition. split; js_eval; reflexivity.
Qed.

Lemma built_in_easings_fix_endpoints_witness :
  springTransition (Fin 0) = Fin 0 /\ springTransition (Fin 1) = Fin 1.
Proof.
  apply (built_in_easings_fix_endpoints Sample.config "spring").
  reflexivity.
Defined.

(** X13.  The linear, easeIn, easeOut and easeInOut easings map the
    unit interval into itself: a transition with one of them never
    overshoots its target. *)
Theorem smooth_easings_stay_in_unit_interval :
  Easing.unit linearTransition /\ Easing.unit easeInTransition
  /\ Easing.unit easeOutTransition /\ Easing.unit easeInOutTransition.
Proof.
  unfold Easing.unit. split; [| split; [| split]]; intros t Ht.
  - exists t. split; [reflexivity | exact Ht].
  - unfold easeInTransition. js_eval. eexists. split; [reflexivity | nra].
  - unfold easeOutTransition. js_eval. eexists. split; [reflexivity | nra].
  - unfold easeInOutTransition, Math.pow2.
    destruct (Rlt_dec t (1 / 2)) as [Hlt | Hge]; js_eval.
    + eexists. split; [reflexivity | nra].
    + eexists. split; [reflexivity | nra].
Qed.

End Easings.

(** ** ShapeManager and particle creation *)

Section Shapes.
Import ShapeManager.
Local Open Scope js_scope.

(** X14.  On a registry whose prototype is untouched, [createShape]
    after [registerShape] under a name other than [__proto__] runs the
    registered generator for that name, logs nothing and returns its
    shape, also when the name is one Object.prototype has; a
    registration under the same name replaces the earlier one, and other
    names are looked up as before. *)
Theorem registered_shape_is_created (m : ShapeManager.t) (name name' : string)
    (gen : generator) (particles : list oid) (options : Options.t)
    (h : Heap.t) (g : Rng.t) :
  is_Some (shapes m) -> name <> "__proto__"%string ->
  createShape (registerShape m name gen) name' particles options h g
  = if String.eqb name' name
    then (let '(r, g') := gen particles options h g in
          (Some (fst r, Some (snd r), []), g'))
    else createShape m name' particles options h g.
Proof.
  intros [own Hown] Hname.
  unfold createShape, registerShape, generator in *. cbn [shapes].
  rewrite Hown. unfold JsObject.set, JsObject.get.
  destruct (String.eqb_spec name "__proto__") as [E | _]; [contradiction |].
  destruct (String.eqb_spec name' name) as [-> | Hne].
  - rewrite lookup_insert_eq. reflexivity.
  - rewrite lookup_insert_ne by congruence. reflexivity.
Qed.

Lemma registered_shape_is_created_witness :
  createShape (registerShape Sample.manager "toString" (createSphere Sample.manager))
    "toString" Sample.four Sample.unitSphereOptions Sample.restHeap Sample.rng
  = (let '(r, g') := createSphere Sample.manager Sample.four
                       Sample.unitSphereOptions Sample.restHeap Sample.rng in
     (Some (fst r, Some (snd r), []), g')).
Proof.
  apply (registered_shape_is_created Sample.manager "toString" "toString"
           (createSphere Sample.manager) Sample.four Sample.unitSphereOptions
           Sample.restHeap Sample.rng).
  - eexists. reflexivity.
  - discriminate.
Defined.

Lemma createRandom_cons (m : ShapeManager.t) (o : oid) (rest : list oid)
    (options : Options.t) (h : Heap.t) (g : Rng.t) :
  let bound := Js.or_default (Options.bound options) (Config.BOUND (config m)) in
  createRandom m (o :: rest) options h g
  = createRandom m rest options
      (Heap.set h o
         (Particle.setTarget (h o)
            (fst (randomSigned bound g))
            (fst (randomSigned bound (Rng.skip 1 g)))
            (fst (randomSigned bound (Rng.skip 2 g)))))
      (Rng.skip 3 g).
Proof. reflexivity. Qed.

Lemma createRandom_nil (m : ShapeManager.t) (options : Options.t)
    (h : Heap.t) (g : Rng.t) :
  createRandom m [] options h g
  = ((h, Shape.mk "random" false None (fun _ _ => false)), g).
Proof. reflexivity. Qed.

(** X15.  The random shape gives every particle of the array a target
    inside the cube of the bound, leaves every position as it is, marks
    the particle as in transition from where it stands, touches no other
    object, returns a shape without exclusion zone and draws three
    random numbers per particle. *)
Theorem random_shape_aims_within_bound (m : ShapeManager.t) (options : Options.t) (b : R)
    (particles : list oid) :
  Js.or_default (Options.bound options) (Config.BOUND (config m)) = Fin b ->
  (0 < b)%R ->
  forall (h : Heap.t) (g : Rng.t), Rng.valid g ->
  let r := createRandom m particles options h g in
  (forall o, In o particles -> Scatter.aimed b (h o) (fst (fst r) o))
  /\ (forall o, ~ In o particles -> fst (fst r) o = h o)
  /\ (forall o, Particle.position (fst (fst r) o) = Particle.position (h o))
  /\ snd (fst r) = Shape.mk "random" false None (fun _ _ => false)
  /\ snd r = Rng.skip (3 * length particles) g.
Proof.
  intros HB Hb. induction particles as [| a rest IH]; intros h g Hg.
  - rewrite createRandom_nil. cbn.
    split; [intros o [] |]. repeat (split; [reflexivity |]). destruct g; reflexivity.
  - pose proof (createRandom_cons m a rest options h g) as E. cbv zeta in E.
    rewrite HB in E.
    set (h1 := Heap.set h a _) in E.
    specialize (IH h1 (Rng.skip 3 g) (valid_skip 3 g Hg)).
    cbv zeta in IH |- *. rewrite E.
    destruct IH as (Hin & Hout & Hpos & Hsh & Hrng).
    assert (Hh1 : forall o, Particle.position (h1 o) = Particle.position (h o)).
    { intros o. subst h1. unfold Heap.set.
      destruct (Nat.eqb_spec o a) as [-> | _]; reflexivity. }
    assert (Ha : Scatter.aimed b (h a) (h1 a)).
    { subst h1. unfold Heap.set. rewrite Nat.eqb_refl.
      unfold Scatter.aimed. repeat (split; [reflexivity |]).
      unfold randomSigned, bind, ret, random. cbn -[Rabs].
      eexists _, _, _. repeat (split; [reflexivity |]).
      pose proof (Hg (Rng.cursor g)). pose proof (Hg (S (Rng.cursor g))).
      pose proof (Hg (S (S (Rng.cursor g)))).
      repeat split; apply scaled_draw_within; assumption. }
    split; [| split; [| split; [| split]]].
    + intros o Ho.
      destruct (in_dec Nat.eq_dec o rest) as [Hr | Hr].
      * specialize (Hin o Hr). unfold Scatter.aimed in *.
        pose proof (Hh1 o) as Ep. unfold Particle.position in Ep.
        injection Ep as Ex Ey Ez.
        rewrite <- Ex, <- Ey, <- Ez, <- Hh1. exact Hin.
      * destruct Ho as [<- | Ho]; [| contradiction].
        rewrite (Hout a Hr). exact Ha.
    + intros o Ho. rewrite Hout.
      * subst h1. unfold Heap.set.
        destruct (Nat.eqb_spec o a) as [-> | _]; [| reflexivity].
        exfalso. apply Ho. left. reflexivity.
      * intros Hr. apply Ho. right. exact Hr.
    + intros o. rewrite Hpos. apply Hh1.
    + exact Hsh.
    + rewrite Hrng. unfold Rng.skip. cbn [Rng.draws Rng.cursor length].
      f_equal. lia.
Qed.


Lemma random_shape_aims_within_bound_witness :
  let r := createRandom Sample.manager Sample.four Options.empty
             Sample.restHeap Sample.rng in
  (forall o, In o Sample.four -> Scatter.aimed 100 (Sample.restHeap o) (fst (fst r) o))
  /\ (forall o, ~ In o Sample.four -> fst (fst r) o = Sample.restHeap o)
  /\ (forall o, Particle.position (fst (fst r) o)
                = Particle.position (Sample.restHeap o))
  /\ snd (fst r) = Shape.mk "random" false None (fun _ _ => false)
  /\ snd r = Rng.skip (3 * length Sample.four) Sample.rng.
Proof.
  apply (random_shape_aims_within_bound Sample.manager Options.empty 100
           Sample.four).
  - reflexivity.
  - lra.
  - intros n. cbn. lra.
Defined.

End Shapes.



Section Init.
Import Particle3DMesh.
Local Open Scope js_scope.

Lemma constructor_born (config : Config.t) (g : Rng.t) (b : R) :
  Config.BOUND config = Fin b -> (0 < b)%R -> Rng.valid g ->
  Fresh.born b (fst (Particle.constructor config g))
  /\ snd (Particle.constructor config g) = Rng.skip 6 g.
Proof.
  intros HB Hb Hg.
  unfold Particle.constructor, randomSigned, bind, ret, random. rewrite HB.
  cbn -[Rabs]. split; [| reflexivity].
  unfold Fresh.born, Bounds.within. cbn -[Rabs].
  pose proof (Hg (Rng.cursor g)). pose proof (Hg (S (Rng.cursor g))).
  pose proof (Hg (S (S (Rng.cursor g)))).
  rewrite !Rleb_true by (apply scaled_draw_within; assumption).
  repeat split.
Qed.

Lemma allocate_spec (config : Config.t) (b : R) (n : nat) :
  Config.BOUND config = Fin b -> (0 < b)%R ->
  forall w : World.t, Rng.valid (World.rng w) ->
  let r := allocate n config w in
  fst r = seq (World.fresh w) n
  /\ World.fresh (snd r) = (World.fresh w + n)%nat
  /\ Rng.valid (World.rng (snd r))
  /\ (forall o, In o (fst r) -> Fresh.born b (World.heap (snd r) o))
  /\ (forall o, (o < World.fresh w)%nat -> World.heap (snd r) o = World.heap w o)
  /\ World.console (snd r) = World.console w
  /\ World.invoked (snd r) = World.invoked w.
Proof.
  intros HB Hb. induction n as [| n IH]; intros w Hg.
  - cbn. split; [reflexivity |]. split; [lia |]. split; [exact Hg |].
    split; [intros o [] |]. repeat split.
  - cbn [allocate]. unfold World.newParticle.
    destruct (constructor_born config (World.rng w) b HB Hb Hg) as [Hborn Hr].
    destruct (Particle.constructor config (World.rng w)) as [p g1].
    cbn [fst snd] in Hborn, Hr.
    set (w1 := World.mk _ _ _ _ _).
    assert (Hg1 : Rng.valid (World.rng w1)).
    { subst w1. cbn. rewrite Hr. apply valid_skip. exact Hg. }
    specialize (IH w1 Hg1). cbv zeta in IH.
    destruct (allocate n config w1) as [rest w2]. cbn [fst snd] in *.
    destruct IH as (Hl & Hf & Hv & Hb' & Hold & Hc & Hi).
    subst w1. cbn [World.fresh World.heap World.console World.invoked] in *.
    split; [rewrite Hl; reflexivity |].
    split; [lia |]. split; [exact Hv |].
    split; [| split; [| split; assumption]].
    + intros o [<- | Ho].
      * rewrite Hold by lia. unfold Heap.set. rewrite Nat.eqb_refl. exact Hborn.
      * apply Hb'. exact Ho.
    + intros o Ho. rewrite Hold by lia. unfold Heap.set.
      destruct (Nat.eqb_spec o (World.fresh w)); [lia | reflexivity].
Qed.

(** X16.  [initParticles] makes PARTICLE_COUNT new objects, all
    distinct and distinct from the objects that existed, each inside the
    cube of the bound, not in transition and without target; existing
    objects are untouched. *)
Theorem initParticles_creates_fresh_particles (m : Particle3DMesh.t)
    (w : World.t) (b : R) :
  Config.BOUND (config m) = Fin b -> (0 < b)%R -> Rng.valid (World.rng w) ->
  let m' := fst (initParticles m w) in
  let w' := snd (initParticles m w) in
  length (particles m') = Config.PARTICLE_COUNT (config m)
  /\ NoDup (particles m')
  /\ (forall o, In o (particles m') ->
        (World.fresh w <= o)%nat /\ Fresh.born b (World.heap w' o))
  /\ (forall o, (o < World.fresh w)%nat -> World.heap w' o = World.heap w o).
Proof.
  intros HB Hb Hg. unfold initParticles.
  pose proof (allocate_spec (config m) b (Config.PARTICLE_COUNT (config m))
                HB Hb w Hg) as H.
  cbv zeta in H.
  destruct (allocate _ _ w) as [ps w']. cbn [fst snd] in *.
  destruct H as (Hl & _ & _ & Hborn & Hold & _).
  cbn [particles set_particles].
  split; [rewrite Hl; apply length_seq |].
  split; [rewrite Hl; apply NoDup_ListNoDup, List.seq_NoDup |].
  split; [| exact Hold].
  intros o Ho. split; [| apply Hborn; exact Ho].
  rewrite Hl in Ho. apply in_seq in Ho. lia.
Qed.

Lemma initParticles_creates_fresh_particles_witness :
  let m' := fst (initParticles Sample.scenarioMesh Sample.scenarioWorld) in
  let w' := snd (initParticles Sample.scenarioMesh Sample.scenarioWorld) in
  length (particles m') = Config.PARTICLE_COUNT (config Sample.scenarioMesh)
  /\ NoDup (particles m')
  /\ (forall o, In o (particles m') ->
        (World.fresh Sample.scenarioWorld <= o)%nat
        /\ Fresh.born 100 (World.heap w' o))
  /\ (forall o, (o < World.fresh Sample.scenarioWorld)%nat ->
        World.heap w' o = World.heap Sample.scenarioWorld o).
Proof.
  apply (initParticles_creates_fresh_particles Sample.scenarioMesh
           Sample.scenarioWorld 100).
  - reflexivity.
  - lra.
  - intros n. cbn. lra.
Defined.

End Init.

(** ** Particle: bouncing off a box, and resetting *)

Section BoxBounce.
Import Particle.
Local Open Scope js_scope.

Lemma min2_Fin (a b : R) : Math.min2 (Fin a) (Fin b) = Fin (Rmin a b).
Proof.
  unfold Math.min2, Js.le, Rleb, Rmin.
  destruct (Rle_dec a b); reflexivity.
Qed.

Lemma min_six (a b c d e f : R) :
  exists m : R,
    Math.min [Fin a; Fin b; Fin c; Fin d; Fin e; Fin f] = Fin m
    /\ (m = a \/ m = b \/ m = c \/ m = d \/ m = e \/ m = f).
Proof.
  exists (Rmin a (Rmin b (Rmin c (Rmin d (Rmin e f))))). split.
  - unfold Math.min. cbn [fold_right].
    assert (E : Math.min2 (Fin f) PInf = Fin f).
    { unfold Math.min2, Js.le. reflexivity. }
    rewrite E, !min2_Fin. reflexivity.
  - unfold Rmin. repeat destruct (Rle_dec _ _); tauto.
Qed.

Lemma bounce_of_normal (p : Particle.t) (zone : ExclusionZone.t)
    (a b c : R) (vx0 vy0 vz0 : R) :
  bounceNormal p zone = (Fin a, Fin b, Fin c) ->
  (a * a + b * b + c * c = 1)%R ->
  vx p = Fin vx0 -> vy p = Fin vy0 -> vz p = Fin vz0 ->
  let p' := bounceOffExclusionZone p zone in
  let dot := (vx0 * a + vy0 * b + vz0 * c)%R in
  vx p' = Fin (vx0 - 2 * dot * a) /\ vy p' = Fin (vy0 - 2 * dot * b)
  /\ vz p' = Fin (vz0 - 2 * dot * c).
Proof.
  intros Hn H1 Hx Hy Hz. unfold bounceOffExclusionZone. rewrite Hn.
  cbn [Js.mul Js.add]. rewrite H1, sqrt_Fin by lra. rewrite sqrt_1.
  unfold n0. cbn [Js.gt Js.lt]. rewrite Rltb_true by lra.
  rewrite !div_Fin by lra. rewrite Hx, Hy, Hz.
  cbn. repeat split; f_equal; field.
Qed.


Lemma bounce_position (p : Particle.t) (zone : ExclusionZone.t) :
  let p' := bounceOffExclusionZone p zone in
  x p' = prevX p + vx p' * tenth /\ y p' = prevY p + vy p' * tenth
  /\ z p' = prevZ p + vz p' * tenth.
Proof.
  unfold bounceOffExclusionZone.
  destruct (bounceNormal p zone) as [[a b] c].
  destruct (if _ >? n0 then _ else _) as [[a' b'] c'].
  repeat split.
Qed.

Lemma box_normal (p : Particle.t) (ty axis : string) (cx cy cz : R) (r : num)
    (h w d px py pz : R) :
  let zone := ExclusionZone.mk ty
                (ExclusionZone.Params.mk (Fin cx) (Fin cy) (Fin cz) r
                   (Fin h) (Fin w) (Fin d) axis) in
  String.eqb ty "sphere" = false -> String.eqb ty "cylinder" = false ->
  x p = Fin px -> y p = Fin py -> z p = Fin pz ->
  exists s : R, (s = 1 \/ s = -1)%R
    /\ (bounceNormal p zone = (Fin s, Fin 0, Fin 0)
        \/ bounceNormal p zone = (Fin 0, Fin s, Fin 0)
        \/ bounceNormal p zone = (Fin 0, Fin 0, Fin s)).
Proof.
  intros zone Hs Hc Hx Hy Hz. unfold bounceNormal. subst zone.
  cbn [ExclusionZone.type ExclusionZone.params ExclusionZone.Params.x
       ExclusionZone.Params.y ExclusionZone.Params.z ExclusionZone.Params.width
       ExclusionZone.Params.height ExclusionZone.Params.depth].
  rewrite Hs, Hc, Hx, Hy, Hz. unfold n2. rewrite !div_Fin by lra.
  cbn [Js.add Js.sub Js.neg Math.abs]. cbv zeta.
  destruct (min_six (Rabs (cx + w / 2 + - px)) (Rabs (px + - (cx + - (w / 2))))
              (Rabs (cy + h / 2 + - py)) (Rabs (py + - (cy + - (h / 2))))
              (Rabs (cz + d / 2 + - pz)) (Rabs (pz + - (cz + - (d / 2)))))
    as (m & -> & Hm).
  unfold n0, n1. cbn [Js.eq Js.neg]. unfold Reqb0.
  repeat match goal with
         | |- context [Req_dec_T m ?v] => destruct (Req_dec_T m v)
         end.
  all: try (exists 1%R; split; [left; reflexivity | tauto]; fail).
  all: exists (-1)%R; split; [right; reflexivity | tauto].
Qed.

(** X17.  Bouncing off a box zone negates exactly one component of a
    finite velocity and keeps the other two, so the speed is kept; the
    particle is put one tenth of the new velocity past its previous
    position.  The reflection doubles a velocity component, so the
    components are taken of magnitude at most 2^1022. *)
Theorem box_bounce_flips_one_velocity_component (p : Particle.t)
    (cx cy cz h w d : R) (r : num) (axis : string) :
  let zone := ExclusionZone.mk "box"
                (ExclusionZone.Params.mk (Fin cx) (Fin cy) (Fin cz) r
                   (Fin h) (Fin w) (Fin d) axis) in
  Reflection.finiteMotion p = true ->
  Reflection.doubles p ->
  let p' := bounceOffExclusionZone p zone in
  ((vx p' = - vx p /\ vy p' = vy p /\ vz p' = vz p)
   \/ (vx p' = vx p /\ vy p' = - vy p /\ vz p' = vz p)
   \/ (vx p' = vx p /\ vy p' = vy p /\ vz p' = - vz p))
  /\ Reflection.speed p' = Reflection.speed p
  /\ x p' = prevX p + vx p' * tenth
  /\ y p' = prevY p + vy p' * tenth
  /\ z p' = prevZ p + vz p' * tenth.
Proof.
  intros zone Hp _.
  destruct p as [px py pz a b c bvy sz tx ty tz ox oy oz tr qx qy qz].
  unfold Reflection.finiteMotion in Hp. cbn in Hp.
  repeat (apply andb_true_iff in Hp; destruct Hp as [Hp ?]).
  repeat match goal with
         | H : Js.isFinite _ = true |- _ =>
             apply isFinite_Fin in H; destruct H as [? ->]
         end.
  match goal with
  | |- context [mk (Fin ?px) (Fin ?py) (Fin ?pz) (Fin ?a) (Fin ?b) (Fin ?c)] =>
      rename px into px0; rename py into py0; rename pz into pz0;
      rename a into a0; rename b into b0; rename c into c0
  end.
  set (p := mk _ _ _ _ _ _ _ _ _ _ _ _ _ _ _ _ _ _). intros p'.
  destruct (box_normal p "box" axis cx cy cz r h w d px0 py0 pz0
              eq_refl eq_refl eq_refl eq_refl eq_refl) as (s & Hs & Hn).
  fold zone in Hn.
  assert (Hv : exists n1 n2 n3 : R,
            (n1 * n1 + n2 * n2 + n3 * n3 = 1)%R
            /\ ((n2 = 0 /\ n3 = 0) \/ (n1 = 0 /\ n3 = 0) \/ (n1 = 0 /\ n2 = 0))%R
            /\ vx p' = Fin (a0 - 2 * (a0 * n1 + b0 * n2 + c0 * n3) * n1)
            /\ vy p' = Fin (b0 - 2 * (a0 * n1 + b0 * n2 + c0 * n3) * n2)
            /\ vz p' = Fin (c0 - 2 * (a0 * n1 + b0 * n2 + c0 * n3) * n3)).
  { destruct Hn as [Hn | [Hn | Hn]];
      [ exists s, 0%R, 0%R | exists 0%R, s, 0%R | exists 0%R, 0%R, s ];
      (split; [destruct Hs; subst s; lra |]);
      (split; [tauto |]);
      apply (bounce_of_normal p zone _ _ _ a0 b0 c0 Hn);
      try reflexivity; destruct Hs; subst s; lra. }
  destruct Hv as (n1 & n2 & n3 & H1 & H0 & Ex & Ey & Ez).
  assert (K : forall v n : R, (n * n = 1 -> v - 2 * (v * n) * n = - v)%R).
  { intros v n E. transitivity (v - 2 * v * (n * n))%R; [ring | rewrite E; ring]. }
  assert (Hf : (vx p' = Fin (- a0) /\ vy p' = Fin b0 /\ vz p' = Fin c0)
               \/ (vx p' = Fin a0 /\ vy p' = Fin (- b0) /\ vz p' = Fin c0)
               \/ (vx p' = Fin a0 /\ vy p' = Fin b0 /\ vz p' = Fin (- c0))).
  { rewrite Ex, Ey, Ez.
    destruct H0 as [[-> ->] | [[-> ->] | [-> ->]]];
      [ left; rewrite <- (K a0 n1) by lra
      | right; left; rewrite <- (K b0 n2) by lra
      | right; right; rewrite <- (K c0 n3) by lra ];
      (split; [| split]); f_equal; ring. }
  split; [| split; [| exact (bounce_position p zone)]].
  - cbn [vx vy vz p Js.neg]. exact Hf.
  - unfold Reflection.speed.
    destruct Hf as [(-> & -> & ->) | [(-> & -> & ->) | (-> & -> & ->)]];
      cbn [vx vy vz p Js.mul Js.add]; do 2 f_equal; ring.
Qed.


Lemma box_bounce_flips_one_velocity_component_witness :
  let p := Sample.particle 0 0 0 1 2 3 in
  let p' := bounceOffExclusionZone p (Sample.boxZone 5 0 0 2 2 2) in
  ((vx p' = - vx p /\ vy p' = vy p /\ vz p' = vz p)
   \/ (vx p' = vx p /\ vy p' = - vy p /\ vz p' = vz p)
   \/ (vx p' = vx p /\ vy p' = vy p /\ vz p' = - vz p))
  /\ Reflection.speed p' = Reflection.speed p
  /\ x p' = prevX p + vx p' * tenth
  /\ y p' = prevY p + vy p' * tenth
  /\ z p' = prevZ p + vz p' * tenth.
Proof.
  apply (box_bounce_flips_one_velocity_component (Sample.particle 0 0 0 1 2 3)
           5 0 0 2 2 2 NaN "").
  - reflexivity.
  - intros v Hv.
    assert (Hle : (Rabs v <= 3)%R).
    { destruct Hv as [E | [E | E]]; injection E as <-;
        rewrite Rabs_pos_eq by lra; lra. }
    apply (Rle_trans _ 3 _ Hle). apply (IZR_le 3).
    apply Z.leb_le. vm_compute. reflexivity.
Defined.

(** X19.  [resetToRandom] puts the particle inside the cube of the
    bound with every velocity component within PARTICLE_SPEED, its base
    vertical velocity equal to its vertical velocity, out of transition,
    after six calls of [Math.random]. *)
Theorem resetToRandom_lands_within_bound (p : Particle.t) (config : Config.t)
    (g : Rng.t) (b s : R) :
  Config.BOUND config = Fin b -> (0 < b)%R ->
  Config.PARTICLE_SPEED config = Fin s -> (0 < s)%R ->
  Rng.valid g ->
  let p' := fst (resetToRandom p config g) in
  Bounds.within p' (Fin b) = true
  /\ (Math.abs (vx p') <=? Fin s) && (Math.abs (vy p') <=? Fin s)
     && (Math.abs (vz p') <=? Fin s) = true
  /\ baseVy p' = vy p'
  /\ inTransition p' = false
  /\ snd (resetToRandom p config g) = Rng.skip 6 g.
Proof.
  intros HB Hb HS Hs Hg.
  unfold resetToRandom, resetParticle, randomSigned, bind, ret, random.
  rewrite HB, HS. cbn -[Rabs]. unfold Bounds.within. cbn -[Rabs].
  pose proof (Hg (Rng.cursor g)). pose proof (Hg (S (Rng.cursor g))).
  pose proof (Hg (S (S (Rng.cursor g)))).
  pose proof (Hg (S (S (S (Rng.cursor g))))).
  pose proof (Hg (S (S (S (S (Rng.cursor g)))))).
  pose proof (Hg (S (S (S (S (S (Rng.cursor g))))))).
  rewrite !Rleb_true by (apply scaled_draw_within; assumption).
  repeat split.
Qed.

Lemma resetToRandom_lands_within_bound_witness :
  let p' := fst (resetToRandom (Sample.particle 150 0 0 0 0 0) Sample.config
                   Sample.rng) in
  Bounds.within p' (Fin 100) = true
  /\ (Math.abs (vx p') <=? Fin (1 / 2)) && (Math.abs (vy p') <=? Fin (1 / 2))
     && (Math.abs (vz p') <=? Fin (1 / 2)) = true
  /\ baseVy p' = vy p'
  /\ inTransition p' = false
  /\ snd (resetToRandom (Sample.particle 150 0 0 0 0 0) Sample.config Sample.rng)
     = Rng.skip 6 Sample.rng.
Proof.
  apply (resetToRandom_lands_within_bound (Sample.particle 150 0 0 0 0 0)
           Sample.config Sample.rng 100 (1 / 2)).
  - reflexivity.
  - lra.
  - reflexivity.
  - lra.
  - intros n. cbn. lra.
Defined.

End BoxBounce.

(** ** Particle3DMesh: the frame that completes a shape transition *)

Section ShapeSwap.
Import Particle3DMesh.
Local Open Scope js_scope.











End ShapeSwap.

